(** * Band fitting and band-identity resolution of [arpes]

    A shallow embedding of the band pipeline of
    [arpes/analysis/band_analysis.py] and of the composite models of
    [arpes/fits/fit_models/x_model_mixin.py], with the properties the
    specification states about them.

    Conventions of the embedding.
    - Python floats are rationals ([Q], exact arithmetic); the one place the
      source uses [float("inf")] is modelled by the type [xfloat].
    - Python exceptions are the [Raise] results of the error monad [res].
    - Python dictionaries keep their insertion order: they are association
      lists ([PyDict]), updated in place when the key is already present.
    - Library functions the source calls ([itertools], [numpy], [xarray],
      [lmfit], [scipy]) are modelled from their documented behaviour, or taken
      as parameters of a section when they cannot be computed over [Q]. *)

From Stdlib Require Import String Ascii.
From Stdlib Require Import List Bool Arith ZArith Lia QArith Qabs Qround Lqa.
From Stdlib Require Import Permutation Factorial DecimalString.
Import ListNotations.

Close Scope Q_scope.
Open Scope nat_scope.
Open Scope list_scope.

(* ------------------------------------------------------------------------ *)
(** ** Exceptions *)

Inductive pyerr : Type :=
| KeyError
| IndexError
| TypeError
| ValueError
| ZeroDivisionError
| StopIteration
| NotImplementedError
| AttributeError.

Inductive res (A : Type) : Type :=
| Ok (a : A)
| Raise (e : pyerr).

Arguments Ok {A} a.
Arguments Raise {A} e.

Definition bind {A B : Type} (m : res A) (k : A -> res B) : res B :=
  match m with
  | Ok a => k a
  | Raise e => Raise e
  end.

Notation "x <- m ;; k" := (bind m (fun x => k))
  (at level 61, m at next level, right associativity).
Notation "' p <- m ;; k" := (bind m (fun p => k))
  (at level 61, p pattern, m at next level, right associativity).

Definition of_option {A : Type} (e : pyerr) (o : option A) : res A :=
  match o with
  | Some a => Ok a
  | None => Raise e
  end.

(** [[f(x) for x in l]] when [f] may raise: the first exception aborts. *)
Fixpoint mapM {A B : Type} (f : A -> res B) (l : list A) : res (list B) :=
  match l with
  | [] => Ok []
  | x :: xs => y <- f x ;; ys <- mapM f xs ;; Ok (y :: ys)
  end.

(** A [for] loop threading a state, aborted by the first exception. *)
Fixpoint foldM {A S : Type} (f : S -> A -> res S) (l : list A) (s : S) : res S :=
  match l with
  | [] => Ok s
  | x :: xs => s' <- f s x ;; foldM f xs s'
  end.

(* ------------------------------------------------------------------------ *)
(** ** Floats with infinity *)

Inductive xfloat : Type :=
| Fin (q : Q)
| PosInf.

(** [x < y] on finite numbers. *)
Definition Qltb (x y : Q) : bool := negb (Qle_bool y x).

(** [x < d] for a finite [x] and a running minimum [d] that starts at
    infinity. *)
Definition lt_x (x : Q) (d : xfloat) : bool :=
  match d with
  | Fin q => Qltb x q
  | PosInf => true
  end.

(* ------------------------------------------------------------------------ *)
(** ** Insertion-ordered dictionaries *)

Class KeyEq (K : Type) : Type := keqb : K -> K -> bool.

#[export] Instance string_KeyEq : KeyEq string := String.eqb.

Fixpoint tuple_eqb (c1 c2 : list Q) : bool :=
  match c1, c2 with
  | [], [] => true
  | x :: xs, y :: ys => Qeq_bool x y && tuple_eqb xs ys
  | _, _ => false
  end.

#[export] Instance tuple_KeyEq : KeyEq (list Q) := tuple_eqb.

Module PyDict.
Section Dict.
Context {K V : Type} `{KeyEq K}.

Definition t : Type := list (K * V).

Definition empty : t := [].

(** [d.items()], in insertion order. *)
Definition items (d : t) : list (K * V) := d.

Definition keys (d : t) : list K := map fst d.

(** [d.get(k)]. *)
Fixpoint get (d : t) (k : K) : option V :=
  match d with
  | [] => None
  | (k', v) :: d' => if keqb k' k then Some v else get d' k
  end.

(** [d.get(k, default)]. *)
Definition get_default (d : t) (k : K) (default : V) : V :=
  match get d k with
  | Some v => v
  | None => default
  end.

(** [d[k]], raising [KeyError]. *)
Definition getitem (d : t) (k : K) : res V := of_option KeyError (get d k).

(** [d[k] = v]: an existing key keeps its position, a new one goes last. *)
Fixpoint set (d : t) (k : K) (v : V) : t :=
  match d with
  | [] => [(k, v)]
  | (k', v') :: d' => if keqb k' k then (k', v) :: d' else (k', v') :: set d' k v
  end.

(** [d.update(other)]. *)
Definition update (d other : t) : t :=
  fold_left (fun acc kv => set acc (fst kv) (snd kv)) other d.

(** [dict(zip(ks, vs))]. *)
Definition of_zip (ks : list K) (vs : list V) : t := update empty (combine ks vs).
End Dict.
Arguments t : clear implicits.
End PyDict.

(* ------------------------------------------------------------------------ *)
(** ** itertools *)

Module Itertools.
Section Iter.
Context {A : Type}.

(** [pairwise(l)]: consecutive overlapping pairs. *)
Fixpoint pairwise (l : list A) : list (A * A) :=
  match l with
  | x :: ((y :: _) as tl) => (x, y) :: pairwise tl
  | _ => []
  end.

(** [product] of a list of pools: the rightmost pool advances fastest; the product of
    no pool at all is the single empty tuple. *)
Fixpoint product (pools : list (list A)) : list (list A) :=
  match pools with
  | [] => [[]]
  | pool :: rest =>
      flat_map (fun x => map (cons x) (product rest)) pool
  end.

(** Every way of drawing one element of the pool, by position, with what is
    left of the pool in its original order. *)
Fixpoint selections (pool : list A) : list (A * list A) :=
  match pool with
  | [] => []
  | x :: xs => (x, xs) :: map (fun s => (fst s, x :: snd s)) (selections xs)
  end.

(** [permutations(pool, r)]: the [r]-length arrangements, in lexicographic
    order of the positions drawn. *)
Fixpoint permutations_r (r : nat) (pool : list A) : list (list A) :=
  match r with
  | O => [[]]
  | S r' =>
      flat_map (fun s => map (cons (fst s)) (permutations_r r' (snd s)))
               (selections pool)
  end.

(** [permutations(pool)]. *)
Definition permutations (pool : list A) : list (list A) :=
  permutations_r (length pool) pool.
End Iter.
End Itertools.

(** [range(n)]. *)
Definition range (n : nat) : list nat := seq 0 n.

(** [enumerate(l)]. *)
Definition enumerate {A : Type} (l : list A) : list (nat * A) :=
  combine (seq 0 (length l)) l.

(** [sum(l)]: left to right from [0]. *)
Definition Qsum (l : list Q) : Q := fold_left Qplus l 0%Q.

(* ------------------------------------------------------------------------ *)
(** ** lmfit: parameters, models and fit results

    Only what the repository relies on: a parameter carries a value, a
    standard error (absent until a fit estimates it) and bounds; a model is a
    prefixed function of its own parameters, or the composition of two models
    by a binary operator; the parameters of a model with prefix [p] are named
    [p ++ name]. *)

Module Lmfit.

(** [lmfit.Parameter] and [lmfit.Parameters] (the names are reserved words
    here, hence [Param] and [Params]). *)
Record Param : Type := mkParam {
  value : Q;
  stderr : option Q;
  pmin : option Q;
  pmax : option Q
}.

Definition Params : Type := PyDict.t string Param.

(** A basic model ([LorentzianModel(prefix=...)] and the like). [guess_fn]
    is the model's own [guess]; the base class raises
    [NotImplementedError]. *)
Record BasicModel : Type := mkBasic {
  prefix : string;
  param_defaults : list (string * Param);
  func : Q -> list Q -> Q;
  guess_fn : list Q -> list Q -> res Params
}.

Inductive Model : Type :=
| Basic (m : BasicModel)
| CompositeModel (left right : Model) (op : Q -> Q -> Q).

(** [model.components]: the basic models, left to right. *)
Fixpoint components (m : Model) : list BasicModel :=
  match m with
  | Basic b => [b]
  | CompositeModel l r _ => components l ++ components r
  end.

Definition param_names (b : BasicModel) : list string :=
  map (fun nd => (prefix b ++ fst nd)%string) (param_defaults b).

(** [model.make_params()]: one parameter per prefixed name of every
    component. *)
Definition make_params_basic (b : BasicModel) : Params :=
  map (fun nd => ((prefix b ++ fst nd)%string, snd nd)) (param_defaults b).

Definition make_params (m : Model) : Params :=
  fold_left (fun acc b => PyDict.update acc (make_params_basic b))
            (components m) PyDict.empty.

(** [model.eval(params, x=x)] at one point [x]. A basic model reads its own
    prefixed parameters; a composite applies its operator to the
    evaluations of its two sides on the same parameter set. *)
Definition eval_basic (b : BasicModel) (params : Params) (x : Q) : res Q :=
  args <- mapM (fun name => p <- PyDict.getitem params name ;; Ok (value p))
               (param_names b) ;;
  Ok (func b x args).

Fixpoint eval (m : Model) (params : Params) (x : Q) : res Q :=
  match m with
  | Basic b => eval_basic b params x
  | CompositeModel l r op =>
      yl <- eval l params x ;;
      yr <- eval r params x ;;
      Ok (op yl yr)
  end.

(** [model.make_params] called with keyword arguments: the parameters of the
    model, with the initial value of every parameter named in [kwargs] set
    from it. *)
Definition make_params_with (m : Model) (kwargs : list (string * Q)) : Params :=
  map (fun kv =>
         match PyDict.get kwargs (fst kv) with
         | Some v => (fst kv, mkParam v (stderr (snd kv)) (pmin (snd kv)) (pmax (snd kv)))
         | None => kv
         end)
      (make_params m).

(** [model.set_param_hint(name, **hint)]: the hinted fields replace those
    of the parameter [name] when [make_params] builds it. *)
Definition set_param_hint (b : BasicModel) (name : string) (hint : PyDict.t string Q)
  : BasicModel :=
  mkBasic (prefix b)
          (map (fun nd =>
                  if String.eqb (fst nd) name
                  then (fst nd,
                        mkParam
                          (PyDict.get_default hint "value"%string (value (snd nd)))
                          (stderr (snd nd))
                          (match PyDict.get hint "min"%string with
                           | Some v => Some v
                           | None => pmin (snd nd)
                           end)
                          (match PyDict.get hint "max"%string with
                           | Some v => Some v
                           | None => pmax (snd nd)
                           end))
                  else nd)
               (param_defaults b))
          (func b)
          (guess_fn b).

(** [lmfit.model.ModelResult], as far as the band analysis reads it. *)
Record ModelResult : Type := mkResult {
  model : Model;
  init_params : Params;
  params : Params;
  residual : list Q
}.

End Lmfit.

(* ------------------------------------------------------------------------ *)
(** ** [arpes.fits.fit_models.x_model_mixin] *)

Module XModelMixin.
Import Lmfit.

(** [operator.add]. *)
Definition operator_add (a b : Q) : Q := (a + b)%Q.

(** [XModelMixin.__add__]: [XAdditiveCompositeModel(self, other,
    operator.add)]. Every model here is one-dimensional, so the assertion
    [self.n_dims == other.n_dims] holds. *)
Definition add (self other : Model) : Model :=
  CompositeModel self other operator_add.

(** [XAdditiveCompositeModel.guess]. *)
Definition guess (self : Model) (data x : list Q) : res Params :=
  let pars := make_params self in
  guessed <- foldM (fun (guessed : Params) c =>
                      g <- guess_fn c data x ;;
                      Ok (PyDict.update guessed g))
                   (components self) PyDict.empty ;;
  Ok (fold_left (fun pars kv => PyDict.set pars (fst kv) (snd kv))
                (PyDict.items guessed) pars).

(** [operator.mul] and [XModelMixin.__mul__]:
    [XMultiplicativeCompositeModel(self, other, operator.mul)]. *)
Definition operator_mul (a b : Q) : Q := (a * b)%Q.

Definition mul (self other : Model) : Model :=
  CompositeModel self other operator_mul.

(** [XConvolutionCompositeModel.guess]: as the guess of the sum, but the
    components whose prefix is ["conv_"] are passed over. *)
Definition guess_convolution (self : Model) (data x : list Q) : res Params :=
  let pars := make_params self in
  guessed <- foldM (fun (guessed : Params) c =>
                      if String.eqb (prefix c) "conv_" then Ok guessed
                      else
                        g <- guess_fn c data x ;;
                        Ok (PyDict.update guessed g))
                   (components self) PyDict.empty ;;
  Ok (fold_left (fun pars kv => PyDict.set pars (fst kv) (snd kv))
                (PyDict.items guessed) pars).

End XModelMixin.

(* ------------------------------------------------------------------------ *)
(** ** numpy *)

Module Numpy.

Fixpoint insert_sorted (x : Q) (l : list Q) : list Q :=
  match l with
  | [] => [x]
  | y :: ys => if Qle_bool x y then x :: l else y :: insert_sorted x ys
  end.

Definition sort (l : list Q) : list Q := fold_right insert_sorted [] l.

(** [np.percentile(a, q)] with the default linear method: the value at the
    virtual index [(n - 1) q / 100] of the sorted samples, interpolated
    between its two neighbours. An empty sample has no percentile. *)
Definition percentile (a : list Q) (q : Q) : res Q :=
  match sort a with
  | [] => Raise IndexError
  | (x0 :: _) as sorted =>
      let h := (inject_Z (Z.of_nat (length sorted - 1)) * q / 100)%Q in
      let i := Z.to_nat (Qfloor h) in
      let lower := nth i sorted x0 in
      let upper := nth (S i) sorted lower in
      Ok (lower + (h - inject_Z (Qfloor h)) * (upper - lower))%Q
  end.

(** [np.min([y0, y1])] and [np.max([y0, y1])]. *)
Definition min2 (y0 y1 : Q) : Q := if Qle_bool y0 y1 then y0 else y1.
Definition max2 (y0 y1 : Q) : Q := if Qle_bool y0 y1 then y1 else y0.

End Numpy.

(* ------------------------------------------------------------------------ *)
(** ** xarray: labelled arrays

    A [DataArray] is kept as its named dimensions, the coordinate vector of
    each, and its cells in row-major order, each cell with the coordinate
    tuple (one label per dimension) at which it lies. *)

Module Xarray.

Record DataArray : Type := mkDataArray {
  dims : list string;
  coords : PyDict.t string (list Q);
  cells : list (list Q * Q)
}.

Fixpoint index_of (d : string) (ds : list string) : option nat :=
  match ds with
  | [] => None
  | d' :: ds' =>
      if String.eqb d' d then Some 0
      else match index_of d ds' with
           | Some i => Some (S i)
           | None => None
           end
  end.

Fixpoint remove_nth {A : Type} (n : nat) (l : list A) : list A :=
  match n, l with
  | _, [] => []
  | O, _ :: xs => xs
  | S n', x :: xs => x :: remove_nth n' xs
  end.

(** [arr.values] of a one-dimensional array, and its length along each
    dimension. *)
Definition values (arr : DataArray) : list Q := map snd (cells arr).

(** [arr.sel({d: v})] for one exact label: the dimension must exist and the
    label must be one of its coordinates; the cells at that label are kept
    and the dimension is dropped. (xarray keeps the label as a scalar
    coordinate, which nothing here reads.) *)
Definition sel_one (arr : DataArray) (dv : string * Q) : res DataArray :=
  let '(d, v) := dv in
  i <- of_option KeyError (index_of d (dims arr)) ;;
  labels <- PyDict.getitem (coords arr) d ;;
  if existsb (Qeq_bool v) labels
  then Ok (mkDataArray
             (remove_nth i (dims arr))
             (filter (fun kv => negb (String.eqb (fst kv) d)) (coords arr))
             (map (fun cell => (remove_nth i (fst cell), snd cell))
                  (filter (fun cell => Qeq_bool (nth i (fst cell) 0%Q) v) (cells arr))))
  else Raise KeyError.

(** [arr.sel(selector)]: one label after the other; the empty selector
    selects the whole array. *)
Definition sel (arr : DataArray) (selector : PyDict.t string Q) : res DataArray :=
  foldM sel_one (PyDict.items selector) arr.

(** [arr.sum(d)], as far as its shape goes: the dimension [d] is gone (the
    summed values are not read by the band analysis, which only takes the
    dimensions and coordinates of the result as a template). *)
Definition sum_template (arr : DataArray) (d : string) : res (list string * PyDict.t string (list Q)) :=
  i <- of_option ValueError (index_of d (dims arr)) ;;
  Ok (remove_nth i (dims arr),
      filter (fun kv => negb (String.eqb (fst kv) d)) (coords arr)).

(** [arr.sel({d: slice(low, high)})] on an increasing coordinate: the cells
    whose label along [d] lies in the closed interval; the dimension stays. *)
Definition sel_slice (arr : DataArray) (d : string) (low high : Q) : res DataArray :=
  i <- of_option KeyError (index_of d (dims arr)) ;;
  labels <- PyDict.getitem (coords arr) d ;;
  let inside := fun x => Qle_bool low x && Qle_bool x high in
  Ok (mkDataArray
        (dims arr)
        (PyDict.set (coords arr) d (filter inside labels))
        (filter (fun cell => inside (nth i (fst cell) 0%Q)) (cells arr))).

End Xarray.

(* ------------------------------------------------------------------------ *)
(** ** Mutable dictionaries of parameter hints

    The [params] dictionaries of a band description are Python objects that
    the analysis mutates in place and passes around by reference. They live
    in a store, addressed by references; a value of such a dictionary is a
    number (the ["stray"] entry) or a dictionary of hints
    ([{"value": ..., "min": ..., "max": ...}]). *)

Module Store.

Inductive pyval : Type :=
| VNum (q : Q)
| VDict (d : PyDict.t string Q).

Definition ParamsDict : Type := PyDict.t string pyval.

Definition ref : Type := nat.
Definition Heap : Type := list ParamsDict.

(** Computations that read and write the store and may raise. *)
Definition M (A : Type) : Type := Heap -> res (A * Heap).

Definition ret {A : Type} (a : A) : M A := fun h => Ok (a, h).

Definition bindM {A B : Type} (m : M A) (k : A -> M B) : M B :=
  fun h =>
    match m h with
    | Ok (a, h') => k a h'
    | Raise e => Raise e
    end.

Definition lift {A : Type} (r : res A) : M A :=
  fun h =>
    match r with
    | Ok a => Ok (a, h)
    | Raise e => Raise e
    end.

(** A new dictionary object. *)
Definition alloc (d : ParamsDict) : M ref := fun h => Ok (length h, h ++ [d]).

Definition read (r : ref) : M ParamsDict :=
  fun h => match nth_error h r with
           | Some d => Ok (d, h)
           | None => Raise KeyError
           end.

Fixpoint replace_nth {A : Type} (n : nat) (x : A) (l : list A) : list A :=
  match n, l with
  | _, [] => []
  | O, _ :: xs => x :: xs
  | S n', y :: xs => y :: replace_nth n' x xs
  end.

Definition write (r : ref) (d : ParamsDict) : M unit :=
  fun h => match nth_error h r with
           | Some _ => Ok (tt, replace_nth r d h)
           | None => Raise KeyError
           end.

(** A comprehension and a loop in the store. *)
Fixpoint mapMM {A B : Type} (f : A -> M B) (l : list A) : M (list B) :=
  match l with
  | [] => ret []
  | x :: xs => bindM (f x) (fun y => bindM (mapMM f xs) (fun ys => ret (y :: ys)))
  end.

Fixpoint foldMM {A S : Type} (f : S -> A -> M S) (l : list A) (s : S) : M S :=
  match l with
  | [] => ret s
  | x :: xs => bindM (f s x) (foldMM f xs)
  end.

(** The hints under a key that must hold a dictionary. *)
Definition as_hints (v : pyval) : res (PyDict.t string Q) :=
  match v with
  | VDict d => Ok d
  | VNum _ => Raise TypeError
  end.

End Store.

Notation "x <~ m ;; k" := (Store.bindM m (fun x => k))
  (at level 61, m at next level, right associativity).

(* ------------------------------------------------------------------------ *)
(** ** [arpes.analysis.band_analysis] *)

Module BandAnalysis.
Import Lmfit.

(** A coordinate as the iterators yield it, [{dim: value}], and the frozen
    tuple of its values used as a dictionary key. *)
Definition Coordinate : Type := PyDict.t string Q.
Definition FrozenCoord : Type := list Q.

(** [tuple(coordinate[d] for d in dims)]. *)
Definition freeze (dims : list string) (coordinate : Coordinate) : res FrozenCoord :=
  mapM (PyDict.getitem coordinate) dims.

(** [np.dot] of two coordinate tuples. Every tuple is frozen over the same
    [dims], so the two always have the same length. *)
Definition np_dot (a b : FrozenCoord) : Q :=
  Qsum (map (fun xy => (fst xy * snd xy)%Q) (combine a b)).

(** [delta = np.array(c) - frozen_coordinate; delta.dot(delta)]. *)
Definition squared_distance (c frozen_coordinate : FrozenCoord) : Q :=
  let delta := map (fun xy => (fst xy - snd xy)%Q) (combine c frozen_coordinate) in
  np_dot delta delta.

(** [dist_mat[i, j]]; the indices the source uses are always inside the
    matrix. *)
Definition mat_get (dist_mat : list (list Q)) (i j : nat) : Q :=
  nth j (nth i dist_mat []) 0%Q.

(** *** [unpack_bands_from_fit] *)

(** The array of fit results: its dimensions, its shape
    ([band_results.values.shape], one length per dimension) and its cells as
    [enumerate_dataarray] yields them, cell after cell, the coordinate and
    the fit stored there. *)
Record BandResults : Type := mkBandResults {
  br_dims : list string;
  br_shape : list nat;
  br_cells : list (Coordinate * ModelResult)
}.

(** [band_results.values[0]], of which the source takes [.model]. On a
    one-dimensional array it is the first cell. An array without dimension
    cannot be indexed, and an empty first axis has no element [0]: both
    raise [IndexError]. On an array of two or more dimensions it is a
    sub-array, which has no attribute [model]: [AttributeError]. *)
Definition values_0 (band_results : BandResults) : res ModelResult :=
  match br_shape band_results with
  | [] => Raise IndexError
  | O :: _ => Raise IndexError
  | [S _] =>
      cell <- of_option IndexError (hd_error (br_cells band_results)) ;;
      Ok (snd cell)
  | S _ :: _ :: _ => Raise AttributeError
  end.

(** [[c.prefix for c in fit_result.model.components]]. *)
Definition component_prefixes (fit_result : ModelResult) : list string :=
  map prefix (components (model fit_result)).

(** An entry of [identified_by_coordinate]. *)
Definition Identified : Type := (list string * ModelResult)%type.

(** The state of the identification loop: [identified_by_coordinate],
    [first_coordinate], and the cells of [identified_band_results] written
    so far. *)
Record IdentState : Type := mkIdentState {
  identified_by_coordinate : PyDict.t FrozenCoord Identified;
  first_coordinate : option Coordinate;
  identified_band_results : PyDict.t FrozenCoord (list string)
}.

Section Unpack.
(** [scipy.spatial.distance.euclidean], whose square root has no exact
    rational value. *)
Variable euclidean : list Q -> list Q -> Q.
Variable weights : Q * Q * Q.

(** The inner function [as_vector]. The three [stderr] are read first,
    then the three values; a [stderr] that is [None] makes [1 + stderr]
    raise. (Standard errors are not negative; at [stderr = -1] numpy
    would divide by zero without raising, which [Q] does not show.) *)
Definition as_vector (model_fit : ModelResult) (prefix : string) : res (list Q) :=
  let '(w_sigma, w_amplitude, w_center) := weights in
  sigma <- PyDict.getitem (params model_fit) (prefix ++ "sigma")%string ;;
  amplitude <- PyDict.getitem (params model_fit) (prefix ++ "amplitude")%string ;;
  center <- PyDict.getitem (params model_fit) (prefix ++ "center")%string ;;
  e_sigma <- of_option TypeError (stderr sigma) ;;
  e_amplitude <- of_option TypeError (stderr amplitude) ;;
  e_center <- of_option TypeError (stderr center) ;;
  Ok [ (value sigma * w_sigma / (1 + e_sigma))%Q;
       (value amplitude * w_amplitude / (1 + e_amplitude))%Q;
       (value center * w_center / (1 + e_center))%Q ].

(** The search for the closest identified coordinate (lines 164-170). *)
Definition closest_step (frozen_coord : FrozenCoord)
           (st : option Identified * xfloat)
           (item : FrozenCoord * Identified) : option Identified * xfloat :=
  let '(coord, identified_band) := item in
  let current_dist := np_dot coord frozen_coord in
  if lt_x current_dist (snd st)
  then (Some identified_band, Fin current_dist)
  else st.

Definition find_closest (identified : PyDict.t FrozenCoord Identified)
           (frozen_coord : FrozenCoord) : option Identified :=
  fst (fold_left (closest_step frozen_coord) (PyDict.items identified)
                 (None, PosInf)).

(** The distance matrix (lines 178-188), filled in [np.ndindex] order. *)
Definition build_dist_mat (prefixes : list string) (fit_result : ModelResult)
           (closest : Identified) : res (list (list Q)) :=
  let '(closest_prefixes, closest_fit) := closest in
  mapM (fun i =>
    mapM (fun j =>
      prefix_i <- of_option IndexError (nth_error prefixes i) ;;
      u <- as_vector fit_result prefix_i ;;
      prefix_j <- of_option IndexError (nth_error closest_prefixes j) ;;
      v <- as_vector closest_fit prefix_j ;;
      Ok (euclidean u v))
      (range (length prefixes)))
    (range (length prefixes)).

(** The search over all arrangements (lines 190-196). *)
Definition trace (dist_mat : list (list Q)) (p : list nat) : Q :=
  Qsum (map (fun ip => mat_get dist_mat (fst ip) (snd ip)) (enumerate p)).

Definition arrangement_step (dist_mat : list (list Q))
           (st : list nat * xfloat) (p : list nat) : list nat * xfloat :=
  let trace := trace dist_mat p in
  if lt_x trace (snd st) then (p, Fin trace) else st.

Definition best_arrangement (dist_mat : list (list Q)) (k : nat) : list nat :=
  fst (fold_left (arrangement_step dist_mat)
                 (Itertools.permutations (range k))
                 (range k, PosInf)).

(** The second half of a turn of the loop (lines 177-199): the slice is
    matched against the reference [closest_identified] and recorded. *)
Definition resolve_against (prefixes : list string) (st : IdentState)
           (frozen_coord : FrozenCoord) (fit_result : ModelResult)
           (closest_identified : Identified) : res IdentState :=
  let '(closest_prefixes, closest_fit) := closest_identified in
  dist_mat <- build_dist_mat prefixes fit_result closest_identified ;;
  let best_arrangement := best_arrangement dist_mat (length prefixes) in
  ordered_prefixes <-
    mapM (fun p_i => of_option IndexError (nth_error closest_prefixes p_i))
         best_arrangement ;;
  Ok (mkIdentState
        (PyDict.set (identified_by_coordinate st) frozen_coord
                    (ordered_prefixes, fit_result))
        (first_coordinate st)
        (PyDict.set (identified_band_results st) frozen_coord ordered_prefixes)).

(** One turn of the loop over the cells (lines 161-199): the reference is
    the closest identified coordinate or, when none is found, the slice
    itself with its components in the order of the fit. *)
Definition identify_cell (dims prefixes : list string) (st : IdentState)
           (cell : Coordinate * ModelResult) : res IdentState :=
  let '(coordinate, fit_result) := cell in
  frozen_coord <- freeze dims coordinate ;;
  match find_closest (identified_by_coordinate st) frozen_coord with
  | Some closest_identified =>
      resolve_against prefixes st frozen_coord fit_result closest_identified
  | None =>
      let closest_identified := (component_prefixes fit_result, fit_result) in
      let st :=
        mkIdentState
          (PyDict.set (identified_by_coordinate st) frozen_coord closest_identified)
          (Some coordinate)
          (identified_band_results st) in
      resolve_against prefixes st frozen_coord fit_result closest_identified
  end.

(** [unpack_bands_from_fit], up to the end of the identification loop
    (lines 128-199). The template is [band_results.values[0]]: the first
    cell of a one-dimensional array; on any other array the function raises
    before the loop. *)
Definition unpack_bands_from_fit (band_results : BandResults) : res IdentState :=
  template <- values_0 band_results ;;
  let prefixes := component_prefixes template in
  foldM (identify_cell (br_dims band_results) prefixes)
        (br_cells band_results)
        (mkIdentState PyDict.empty None PyDict.empty).
End Unpack.

(** *** [_iterate_marginals] *)

(** [_iterate_marginals(arr, iterate_directions)], run to its end: one
    [(arr.sel(coords), coords)] per tuple of [itertools.product] over the
    coordinate vectors of the directions. Without directions given, every
    dimension but ["eV"] is iterated ([list.remove] raises when there is no
    ["eV"]). *)
Definition _iterate_marginals (arr : Xarray.DataArray)
           (iterate_directions : option (list string))
  : res (list (Xarray.DataArray * Coordinate)) :=
  iterate_directions <-
    match iterate_directions with
    | Some ds => Ok ds
    | None =>
        i <- of_option ValueError (Xarray.index_of "eV" (Xarray.dims arr)) ;;
        Ok (Xarray.remove_nth i (Xarray.dims arr))
    end ;;
  pools <- mapM (PyDict.getitem (Xarray.coords arr)) iterate_directions ;;
  mapM (fun ss =>
          let coords := PyDict.of_zip iterate_directions ss in
          marginal <- Xarray.sel arr coords ;;
          Ok (marginal, coords))
       (Itertools.product pools).

(** *** Result grids *)

(** An object array over the template: one cell, holding [None], per
    combination of the coordinates of its dimensions. *)
Definition object_grid (template : list string * PyDict.t string (list Q))
  : res (PyDict.t FrozenCoord (option ModelResult)) :=
  pools <- mapM (PyDict.getitem (snd template)) (fst template) ;;
  Ok (map (fun fc => (fc, None)) (Itertools.product pools)).

(** [grid.loc[coordinate] = v]: the cell must exist. *)
Definition loc_set {A : Type} (grid : PyDict.t FrozenCoord A) (fc : FrozenCoord) (v : A)
  : res (PyDict.t FrozenCoord A) :=
  match PyDict.get grid fc with
  | Some _ => Ok (PyDict.set grid fc v)
  | None => Raise KeyError
  end.

(** *** [fit_bands]: the sweep over the marginals (lines 499-537) *)

Section FitBands.
(** [composite_model.fit(data, params, x=x)], the least-squares fit of
    lmfit. *)
Variable fit : Model -> list Q -> Params -> list Q -> ModelResult.

(** [functools.reduce(lambda x, y: x + y, internal_models)]. *)
Definition reduce_add (internal_models : list Model) : res Model :=
  match internal_models with
  | [] => Raise TypeError
  | m :: ms => Ok (fold_left XModelMixin.add ms m)
  end.

(** The search for the prior (lines 511-518). [dist] is compared with but
    never assigned in the loop. *)
Definition prior_step (direction : string) (frozen_coordinate : FrozenCoord)
           (st : Params * xfloat) (item : FrozenCoord * Params) : Params * xfloat :=
  let '(c, v) := item in
  let current_distance := squared_distance c frozen_coordinate in
  if lt_x current_distance (snd st) && String.eqb direction "mdc"
  then (v, snd st)
  else st.

Definition closest_model_params (direction : string) (initial_fits : Params)
           (all_fit_parameters : PyDict.t FrozenCoord Params)
           (frozen_coordinate : FrozenCoord) : Params :=
  fst (fold_left (prior_step direction frozen_coordinate)
                 (PyDict.items all_fit_parameters)
                 (initial_fits, PosInf)).

(** [x = marginal.coords[next(iter(marginal.indexes))].values]. *)
Definition marginal_x (marginal : Xarray.DataArray) : res (list Q) :=
  d <- of_option StopIteration (hd_error (Xarray.dims marginal)) ;;
  PyDict.getitem (Xarray.coords marginal) d.

(** The state of the sweep: [band_results] and [all_fit_parameters]. *)
Definition SweepState : Type :=
  (PyDict.t FrozenCoord (option ModelResult) * PyDict.t FrozenCoord Params)%type.

(** One turn of the loop (lines 507-537). [internal_models] are the models
    [band.fit_cls(prefix=band.label)] of the requested bands. *)
Definition fit_bands_turn (direction : string) (template_dims : list string)
           (internal_models : list Model) (initial_fits : Params)
           (st : SweepState) (mc : Xarray.DataArray * Coordinate) : res SweepState :=
  let '(band_results, all_fit_parameters) := st in
  let '(marginal, coordinate) := mc in
  frozen_coordinate <- freeze template_dims coordinate ;;
  let closest_model_params :=
    closest_model_params direction initial_fits all_fit_parameters frozen_coordinate in
  composite_model <- reduce_add internal_models ;;
  let new_params :=
    make_params_with composite_model
      (map (fun kv => (fst kv, value (snd kv))) (PyDict.items closest_model_params)) in
  x <- marginal_x marginal ;;
  let fit_result := fit composite_model (Xarray.values marginal) new_params x in
  band_results <- loc_set band_results frozen_coordinate (Some fit_result) ;;
  Ok (band_results,
      PyDict.set all_fit_parameters frozen_coordinate (params fit_result)).

(** The sweep of [fit_bands] from the template on (lines 499-537), given the
    direction the models are fitted along ([broadcast_direction] in the
    source) and the initial fits of the reference marginal. *)
Definition fit_bands_sweep (arr : Xarray.DataArray) (direction broadcast_direction : string)
           (internal_models : list Model) (initial_fits : Params) : res SweepState :=
  i <- of_option ValueError (Xarray.index_of broadcast_direction (Xarray.dims arr)) ;;
  let directions := Xarray.remove_nth i (Xarray.dims arr) in
  template <- Xarray.sum_template arr broadcast_direction ;;
  band_results <- object_grid template ;;
  marginals <- _iterate_marginals arr (Some directions) ;;
  foldM (fit_bands_turn direction (fst template) internal_models initial_fits)
        marginals (band_results, PyDict.empty).
End FitBands.

(** *** Patterned mode: the expected centers *)

(** [_is_between]. *)
Definition _is_between (x y0 y1 : Q) : bool :=
  let y0' := Numpy.min2 y0 y1 in
  let y1' := Numpy.max2 y0 y1 in
  Qle_bool y0' x && Qle_bool x y1'.

(** [point[index]] for a control point, a sequence of two numbers. *)
Definition point_get (point : Q * Q) (index : Z) : res Q :=
  if (index =? 0)%Z || (index =? -2)%Z then Ok (fst point)
  else if (index =? 1)%Z || (index =? -1)%Z then Ok (snd point)
  else Raise IndexError.

(** What one pair of consecutive points contributes. A pair whose two
    patterning coordinates coincide with [coord] divides by zero. *)
Definition interpolate_fragment (coord : Q) (coord_index : nat)
           (pair : (Q * Q) * (Q * Q)) : res (list (Q * Q)) :=
  let '(point_low, point_high) := pair in
  let coord_other_index := (1 - Z.of_nat coord_index)%Z in
  check_coord_low <- point_get point_low (Z.of_nat coord_index) ;;
  check_coord_high <- point_get point_high (Z.of_nat coord_index) ;;
  if _is_between coord check_coord_low check_coord_high
  then
    if Qltb check_coord_low check_coord_high
    then
      other_high <- point_get point_high coord_other_index ;;
      other_low <- point_get point_low coord_other_index ;;
      Ok [(coord,
           ((coord - check_coord_low) / (check_coord_high - check_coord_low)
            * (other_high - other_low) + other_low)%Q)]
    else
      if Qeq_bool check_coord_low check_coord_high then Raise ZeroDivisionError
      else
        other_low <- point_get point_low coord_other_index ;;
        other_high <- point_get point_high coord_other_index ;;
        Ok [(coord,
             ((coord - check_coord_high) / (check_coord_low - check_coord_high)
              * (other_low - other_high) + other_high)%Q)]
  else Ok [].

(** [_interpolate_intersecting_fragments], run to its end. [points[0]] is
    read first, so an empty list of points raises. *)
Definition _interpolate_intersecting_fragments (coord : Q) (coord_index : nat)
           (points : list (Q * Q)) : res (list (Q * Q)) :=
  _ <- of_option IndexError (hd_error points) ;;
  fragments <- mapM (interpolate_fragment coord coord_index) (Itertools.pairwise points) ;;
  Ok (concat fragments).

(** *** Patterned mode: the parameter hints *)

Section Patterned.
Import Store.

(** The window around the expected center and the spread of the intensities
    in it (lines 615-626). *)
Definition amplitude_estimate (marginal : Xarray.DataArray) (center center_stray : Q)
  : res Q :=
  d <- of_option IndexError (hd_error (Xarray.dims marginal)) ;;
  near_center <- Xarray.sel_slice marginal d
                   (center - (12 # 10) * center_stray)%Q
                   (center + (12 # 10) * center_stray)%Q ;;
  low <- Numpy.percentile (Xarray.values near_center) 20 ;;
  high <- Numpy.percentile (Xarray.values near_center) 80 ;;
  Ok (high - low)%Q.

(** What [_build_params] makes of the content of the dictionary. *)
Definition build_params_dict (params : ParamsDict) (center : Q)
           (center_stray : option Q) (marginal : option Xarray.DataArray)
  : res ParamsDict :=
  let params :=
    PyDict.update params [("center"%string, VDict [("value"%string, center)])] in
  match center_stray with
  | None => Ok params
  | Some center_stray =>
      c <- bind (PyDict.getitem params "center"%string) as_hints ;;
      let c := PyDict.set c "min"%string (center - center_stray)%Q in
      let c := PyDict.set c "max"%string (center + center_stray)%Q in
      let params := PyDict.set params "center"%string (VDict c) in
      let params :=
        PyDict.set params "sigma"%string
                   (PyDict.get_default params "sigma"%string (VDict [])) in
      sigma <- bind (PyDict.getitem params "sigma"%string) as_hints ;;
      let params :=
        PyDict.set params "sigma"%string
                   (VDict (PyDict.set sigma "value"%string center_stray)) in
      match marginal with
      | None => Ok params
      | Some marginal =>
          spread <- amplitude_estimate marginal center center_stray ;;
          let params :=
            PyDict.set params "amplitude"%string
                       (PyDict.get_default params "amplitude"%string (VDict [])) in
          amplitude <- bind (PyDict.getitem params "amplitude"%string) as_hints ;;
          Ok (PyDict.set params "amplitude"%string
                         (VDict (PyDict.set amplitude "value"%string spread)))
      end
  end.

(** [_build_params]: the dictionary object [params] is updated where it
    lives, and the reference to it is returned. *)
Definition _build_params (params : ref) (center : Q) (center_stray : option Q)
           (marginal : option Xarray.DataArray) : M ref :=
  d <~ read params ;;
  d' <~ lift (build_params_dict d center center_stray marginal) ;;
  _ <~ write params d' ;;
  ret params.
End Patterned.

(** *** [fit_patterned_bands] *)

(** A band class of [arpes.models.band], as far as the sweep uses it: called
    with a name it gives a band whose [fit_cls], called with a prefix, builds
    the lmfit model of the band. *)
Record Band : Type := mkBand {
  fit_cls : string -> BasicModel
}.

(** A value of [band_set]: the keyword arguments handed to
    [resolve_partial_bands_from_description]. A missing key takes the default
    of the signature; a [band] that is not callable is [None]. *)
Record BandDescription : Type := mkBandDescription {
  bd_name : string;
  bd_band : option Band;
  bd_dims : option (list string);
  bd_params : option Store.ref;
  bd_points : option (list (Q * Q))
}.

(** A partial band, [{"band": ..., "name": ..., "params": ...}]; its
    [params] is a reference to a dictionary object. *)
Record PartialBand : Type := mkPartialBand {
  pb_band : option Band;
  pb_name : string;
  pb_params : Store.ref
}.

(** What the sweep returns: the grid of results and, when a dataset is asked
    for, the residual along the fit direction at every cell of the grid. (The
    dataset also carries the data and the floating-point quotient
    [residual / arr], which are not kept here.) *)
Record PatternedOutput : Type := mkPatternedOutput {
  out_results : PyDict.t FrozenCoord (option ModelResult);
  out_residual : option (PyDict.t FrozenCoord (list Q))
}.

(** Modelled from the spec: [arr.G.iterate_axis] of the xarray extensions,
    the marginal iterator of the specification, which yields one
    (coordinate, slice) pair per combination of the coordinate values of the
    free axes, in row-major order. *)
Definition iterate_axis (arr : Xarray.DataArray) (free_directions : list string)
  : res (list (Coordinate * Xarray.DataArray)) :=
  marginals <- _iterate_marginals arr (Some free_directions) ;;
  Ok (map (fun mc => (snd mc, fst mc)) marginals).

Section PatternedSweep.
Import Store.
Variable fit : Model -> list Q -> Params -> list Q -> ModelResult.
Variable arr : Xarray.DataArray.
Variable stray : option Q.

(** [params.get("stray", stray)], to be subtracted from the center. *)
Definition center_stray_of (params : ParamsDict) : res (option Q) :=
  match PyDict.get params "stray"%string with
  | Some (VNum q) => Ok (Some q)
  | Some (VDict _) => Raise TypeError
  | None => Ok stray
  end.

(** [f"{name}_{i}"]. *)
Definition partial_name (name : string) (i : nat) : string :=
  (name ++ "_" ++ NilZero.string_of_uint (Nat.to_uint i))%string.

(** The list [partial_band_locations] of the inner function
    [resolve_partial_bands_from_description] (lines 313-323): the expected
    centers of the band at the slice. *)
Definition partial_band_locations (coord_dict : Coordinate)
           (description : BandDescription) : res (list (Q * Q)) :=
  let dims := match bd_dims description with
              | Some ds => ds
              | None => []
              end in
  coord_name <- of_option StopIteration
                  (find (fun d => match PyDict.get coord_dict d with
                                  | Some _ => true
                                  | None => false
                                  end) dims) ;;
  coord <- PyDict.getitem coord_dict coord_name ;;
  coord_index <- of_option ValueError (Xarray.index_of coord_name (Xarray.dims arr)) ;;
  _interpolate_intersecting_fragments coord coord_index
    (match bd_points description with
     | Some ps => ps
     | None => []
     end).

(** The inner function [resolve_partial_bands_from_description]. Without
    [params] a new dictionary is made; otherwise the dictionary of the band
    description itself is handed to [_build_params], once per location. *)
Definition resolve_partial_bands_from_description (coord_dict : Coordinate)
           (marginal : Xarray.DataArray) (description : BandDescription)
  : M (list PartialBand) :=
  params <~ match bd_params description with
            | Some r => ret r
            | None => alloc []
            end ;;
  partial_band_locations <~ lift (partial_band_locations coord_dict description) ;;
  mapMM (fun i_location =>
           let band_center := snd (snd i_location) in
           d <~ read params ;;
           center_stray <~ lift (center_stray_of d) ;;
           built <~ _build_params params band_center center_stray (Some marginal) ;;
           ret (mkPartialBand (bd_band description)
                              (partial_name (bd_name description) (fst i_location))
                              built))
        (enumerate partial_band_locations).

(** [_instantiate_band]: the hints are read from the dictionary the partial
    band refers to, as it is when the band is instantiated. *)
Definition _instantiate_band (partial_band : PartialBand) : M Model :=
  band <~ lift (of_option TypeError (pb_band partial_band)) ;;
  let built := fit_cls band (pb_name partial_band) in
  hints <~ read (pb_params partial_band) ;;
  built <~ lift (foldM (fun built kv =>
                          if String.eqb (fst kv) "stray" then Ok built
                          else
                            hint <- as_hints (snd kv) ;;
                            Ok (set_param_hint built (fst kv) hint))
                       (PyDict.items hints) built) ;;
  ret (Basic built).

(** One turn of the sweep (lines 348-383). [background] is the band class
    of the background, or [None] for the [False] that the source leaves in
    place when no background is asked for. *)
Definition patterned_turn (template_dims : list string) (background : option Band)
           (band_set : list BandDescription)
           (band_results : PyDict.t FrozenCoord (option ModelResult))
           (cm : Coordinate * Xarray.DataArray)
  : M (PyDict.t FrozenCoord (option ModelResult)) :=
  let '(coord_dict, marginal) := cm in
  partial_bands <~ mapMM (resolve_partial_bands_from_description coord_dict marginal)
                         band_set ;;
  let partial_bands :=
    filter (fun p => negb (Nat.eqb (length p) 0)) partial_bands in
  partial_bands <~ match partial_bands with
                   | [] => ret partial_bands
                   | _ :: _ =>
                       fresh <~ alloc [] ;;
                       ret (partial_bands
                              ++ [[mkPartialBand background EmptyString fresh]])
                   end ;;
  internal_models <~ mapMM _instantiate_band (concat partial_bands) ;;
  frozen_coord <~ lift (freeze template_dims coord_dict) ;;
  match internal_models with
  | [] =>
      lift (loc_set band_results frozen_coord None)
  | _ :: _ =>
      composite_model <~ lift (reduce_add internal_models) ;;
      let new_params := make_params composite_model in
      x <~ lift (marginal_x marginal) ;;
      let fit_result := fit composite_model (Xarray.values marginal) new_params x in
      lift (loc_set band_results frozen_coord (Some fit_result))
  end.

(** The residual of every fitted cell (lines 389-398): a cell holding
    [None] is skipped, an assignment that raises (a residual that does not
    have the length of the fit axis) is suppressed; both leave zeros. *)
Definition aggregate_residual (fit_length : nat)
           (band_results : PyDict.t FrozenCoord (option ModelResult))
  : PyDict.t FrozenCoord (list Q) :=
  fold_left
    (fun residual cell =>
       match snd cell with
       | None => residual
       | Some fit_item =>
           if Nat.eqb (length (Lmfit.residual fit_item)) fit_length
           then PyDict.set residual (fst cell) (Lmfit.residual fit_item)
           else residual
       end)
    (PyDict.items band_results)
    (map (fun cell => (fst cell, repeat 0%Q fit_length)) band_results).

(** [fit_patterned_bands]. *)
Definition fit_patterned_bands (band_set : list BandDescription) (fit_direction : string)
           (background : option Band) (dataset : bool) : M PatternedOutput :=
  i <~ lift (of_option ValueError (Xarray.index_of fit_direction (Xarray.dims arr))) ;;
  let free_directions := Xarray.remove_nth i (Xarray.dims arr) in
  template <~ lift (Xarray.sum_template arr fit_direction) ;;
  band_results <~ lift (object_grid template) ;;
  slices <~ lift (iterate_axis arr free_directions) ;;
  band_results <~ foldMM (patterned_turn (fst template) background band_set)
                         slices band_results ;;
  if dataset
  then
    fit_axis <~ lift (PyDict.getitem (Xarray.coords arr) fit_direction) ;;
    ret (mkPatternedOutput band_results
           (Some (aggregate_residual (length fit_axis) band_results)))
  else ret (mkPatternedOutput band_results None).
End PatternedSweep.

(** *** [unpack_bands_from_fit]: the extraction of the bands (lines 201-247) *)

(** A band as [unpack_bands_from_fit] returns it: its label and, over the
    cells of the array, the six arrays of its dataset. A cell of an array of
    standard errors receives [param.stderr]: a number, or [None] where the
    array of floats of the source then holds [nan]. *)
Record ExtractedBand : Type := mkExtractedBand {
  eb_label : string;
  eb_center : list (FrozenCoord * option Q);
  eb_center_stderr : list (FrozenCoord * option Q);
  eb_amplitude : list (FrozenCoord * option Q);
  eb_amplitude_stderr : list (FrozenCoord * option Q);
  eb_sigma : list (FrozenCoord * option Q);
  eb_sigma_stderr : list (FrozenCoord * option Q)
}.

(** What the inner function [dataarray_for_value] writes at one cell: the
    parameter [param_name] of the component that the cell assigns to the
    band [i]. The assignments are kept by coordinate, so that of the cell is
    read at its coordinate; the source reads it at the position of the cell,
    which is the same when no two cells share a coordinate. *)
Definition value_at_cell (dims : list string)
           (identified : PyDict.t FrozenCoord (list string))
           (param_name : string) (i : nat) (is_value : bool)
           (cell : Coordinate * ModelResult) : res (FrozenCoord * option Q) :=
  fc <- freeze dims (fst cell) ;;
  prefixes <- PyDict.getitem identified fc ;;
  prefix <- of_option IndexError (nth_error prefixes i) ;;
  param <- PyDict.getitem (params (snd cell)) (prefix ++ param_name)%string ;;
  Ok (fc, if is_value then Some (value param) else stderr param).

(** The inner function [dataarray_for_value], over the cells in the order of
    the array. *)
Definition dataarray_for_value (band_results : BandResults)
           (identified : PyDict.t FrozenCoord (list string))
           (param_name : string) (i : nat) (is_value : bool)
  : res (list (FrozenCoord * option Q)) :=
  mapM (value_at_cell (br_dims band_results) identified param_name i is_value)
       (br_cells band_results).

(** The loop over the band indices (lines 203-245). *)
Definition extract_bands (band_results : BandResults) (prefixes : list string)
           (st : IdentState) : res (list ExtractedBand) :=
  mapM (fun i =>
          first_coordinate <- of_option KeyError (first_coordinate st) ;;
          fc <- freeze (br_dims band_results) first_coordinate ;;
          first_prefixes <- PyDict.getitem (identified_band_results st) fc ;;
          label <- of_option IndexError (nth_error first_prefixes i) ;;
          let array := dataarray_for_value band_results (identified_band_results st) in
          center <- array "center"%string i true ;;
          center_stderr <- array "center"%string i false ;;
          amplitude <- array "amplitude"%string i true ;;
          amplitude_stderr <- array "amplitude"%string i false ;;
          sigma <- array "sigma"%string i true ;;
          sigma_stderr <- array "sigma"%string i false ;;
          Ok (mkExtractedBand label center center_stderr amplitude amplitude_stderr
                              sigma sigma_stderr))
       (range (length prefixes)).

(** [unpack_bands_from_fit] as a whole: the identification, then the
    extraction. *)
Definition unpack_bands (euclidean : list Q -> list Q -> Q) (weights : Q * Q * Q)
           (band_results : BandResults) : res (list ExtractedBand) :=
  st <- unpack_bands_from_fit euclidean weights band_results ;;
  template <- values_0 band_results ;;
  extract_bands band_results (component_prefixes template) st.

End BandAnalysis.

(* ------------------------------------------------------------------------ *)
(** ** [arpes.analysis.band_analysis_utils] *)

Module BandAnalysisUtils.
Import Lmfit.

(** What a getter returns: a number, [nan], or the [None] of a standard
    error that was not estimated. *)
Inductive pynum : Type :=
| Num (q : Q)
| Nan
| PyNone.

(** [param_getter(param_name, safe=safe)(x)]. The safe getter reads
    [x.params.get(param_name, safe_param).value], with a [safe_param] of
    value [nan]; the other one reads [x.params[param_name].value]. *)
Definition param_getter (param_name : string) (safe : bool) (x : ModelResult) : res pynum :=
  if safe
  then Ok (match PyDict.get (params x) param_name with
           | Some p => Num (value p)
           | None => Nan
           end)
  else
    p <- PyDict.getitem (params x) param_name ;;
    Ok (Num (value p)).

(** [param_stderr_getter(param_name, safe=safe)(x)]. *)
Definition param_stderr_getter (param_name : string) (safe : bool) (x : ModelResult)
  : res pynum :=
  let of_stderr := fun p => match stderr p with
                            | Some e => Num e
                            | None => PyNone
                            end in
  if safe
  then Ok (match PyDict.get (params x) param_name with
           | Some p => of_stderr p
           | None => Nan
           end)
  else
    p <- PyDict.getitem (params x) param_name ;;
    Ok (of_stderr p).

End BandAnalysisUtils.

(* ------------------------------------------------------------------------ *)
(** ** [arpes.analysis.kfermi] *)

Module Kfermi.

(** [needle in hay] on strings. *)
Fixpoint contains (needle hay : string) : bool :=
  String.prefix needle hay
  || match hay with
     | EmptyString => false
     | String _ rest => contains needle rest
     end.

(** The choice of [real_param_name] in [kfermi_from_mdcs] (lines 35-47),
    given [param_names], the names of the parameters of the fits, and
    [param]; [None] is the failure of the assertion
    [len(best_names) == 1]. The filter under [if not param] keeps the names
    that contain [param], which is then the empty string. *)
Definition real_param_name (param_names : list string) (param : string) : option string :=
  if existsb (String.eqb param) param_names
  then Some param
  else
    let best_names := filter (contains "center") param_names in
    let best_names :=
      if String.eqb param EmptyString then filter (contains param) best_names
      else best_names in
    match best_names with
    | [name] => Some name
    | _ => None
    end.

End Kfermi.

(* ------------------------------------------------------------------------ *)
(** ** Vocabulary of the properties *)

(** [a] is the element of least cost of [l], and the first such in the order
    of [l]. *)
Definition first_minimizer {A : Type} (cost : A -> Q) (l : list A) (a : A) : Prop :=
  exists l1 l2,
    l = l1 ++ a :: l2
    /\ (forall b, In b l1 -> (cost a < cost b)%Q)
    /\ (forall b, In b l2 -> (cost a <= cost b)%Q).

(** The shape shared by the three minimum searches of the source: keep a
    payload and the least cost seen so far, replace both on a strictly
    smaller cost. *)
Definition min_step {A B : Type} (cost : A -> Q) (pay : A -> B)
           (st : B * xfloat) (a : A) : B * xfloat :=
  if lt_x (cost a) (snd st) then (pay a, Fin (cost a)) else st.

(** The cost the reference search minimises: the dot product of an
    identified coordinate with the coordinate of the current slice. *)
Definition dot_cost (frozen_coord : BandAnalysis.FrozenCoord)
           (item : BandAnalysis.FrozenCoord * BandAnalysis.Identified) : Q :=
  BandAnalysis.np_dot (fst item) frozen_coord.

(** The prefixes a slice is given: those of its reference, rearranged
    ([[closest_prefixes[p_i] for p_i in best_arrangement]] when every index
    is in range). *)
Definition reordered (closest_prefixes : list string) (arrangement : list nat) : list string :=
  map (fun p_i => nth p_i closest_prefixes EmptyString) arrangement.

(** The state in which the identification loop starts. *)
Definition initial_state : BandAnalysis.IdentState :=
  BandAnalysis.mkIdentState PyDict.empty None PyDict.empty.

(** A one-dimensional array of fits along the dimension [d], the kind of
    array [unpack_bands_from_fit] can process: its shape is the number of
    its cells. *)
Definition line_of_fits (d : string)
           (cells : list (BandAnalysis.Coordinate * Lmfit.ModelResult))
  : BandAnalysis.BandResults :=
  BandAnalysis.mkBandResults [d] [length cells] cells.

(** The cell lies at the frozen coordinate [fc]. *)
Definition freezes_to (dims : list string) (fc : BandAnalysis.FrozenCoord)
           (cell : BandAnalysis.Coordinate * Lmfit.ModelResult) : bool :=
  match BandAnalysis.freeze dims (fst cell) with
  | Ok fc' => tuple_eqb fc fc'
  | Raise _ => false
  end.

Definition is_ok {A : Type} (r : res A) : bool :=
  match r with
  | Ok _ => true
  | Raise _ => false
  end.

(** A fit from which [as_vector] can be taken at every tracked prefix, and a
    cell of the result array the identification loop can process. *)
Definition fit_ok (weights : Q * Q * Q) (prefixes : list string)
           (fit_result : Lmfit.ModelResult) : bool :=
  forallb (fun p => is_ok (BandAnalysis.as_vector weights fit_result p)) prefixes.

Definition cell_ok (weights : Q * Q * Q) (dims prefixes : list string)
           (cell : BandAnalysis.Coordinate * Lmfit.ModelResult) : bool :=
  is_ok (BandAnalysis.freeze dims (fst cell)) && fit_ok weights prefixes (snd cell).

(** What the identification loop maintains: every reference and every
    recorded assignment is an arrangement of the tracked prefixes, and every
    reference fit can be turned into vectors. *)
Definition ident_inv (weights : Q * Q * Q) (prefixes : list string)
           (st : BandAnalysis.IdentState) : Prop :=
  (forall fc ps fit,
      In (fc, (ps, fit)) (BandAnalysis.identified_by_coordinate st) ->
      Permutation ps prefixes /\ fit_ok weights prefixes fit = true)
  /\ (forall fc ps,
      In (fc, ps) (BandAnalysis.identified_band_results st) ->
      Permutation ps prefixes).

(* ------------------------------------------------------------------------ *)
(** ** Sample inputs *)

Module Samples.
Import Lmfit BandAnalysis.

Definition fitted (v : Q) : Param := mkParam v (Some 0%Q) None None.

(** A peak of rational shape, [amplitude * sigma / ((x - center)^2 +
    sigma^2)], without a guess of its own. *)
Definition peak_shape (x : Q) (args : list Q) : Q :=
  match args with
  | [amplitude; center; sigma] =>
      (amplitude * sigma / ((x - center) * (x - center) + sigma * sigma))%Q
  | _ => 0%Q
  end.

Definition peak (prefix : string) : BasicModel :=
  mkBasic prefix
          [("amplitude"%string, fitted 1); ("center"%string, fitted 0);
           ("sigma"%string, fitted 1)]
          peak_shape
          (fun _ _ => Raise NotImplementedError).

(** The same peak with a guess of its own: the center at the first abscissa,
    the amplitude at the first sample. *)
Definition guessing_peak (prefix : string) : BasicModel :=
  mkBasic prefix
          [("amplitude"%string, fitted 1); ("center"%string, fitted 0);
           ("sigma"%string, fitted 1)]
          peak_shape
          (fun data x =>
             Ok [((prefix ++ "center")%string, fitted (hd 0%Q x));
                 ((prefix ++ "amplitude")%string, fitted (hd 0%Q data))]).

Definition two_peaks : Model :=
  XModelMixin.add (Basic (peak "a_")) (Basic (peak "b_")).

(** The fit of [two_peaks] at one slice, with the two centers found. *)
Definition fit_at (center_a center_b : Q) : ModelResult :=
  mkResult two_peaks (make_params two_peaks)
           [("a_amplitude"%string, fitted 1); ("a_center"%string, fitted center_a);
            ("a_sigma"%string, fitted 1);
            ("b_amplitude"%string, fitted 1); ("b_center"%string, fitted center_b);
            ("b_sigma"%string, fitted 1)]
           [].

Definition at_kp (kp : Q) : Coordinate := [("kp"%string, kp)].

(** Three slices along [kp]; the fit of the second one swapped the two
    peaks. *)
Definition sweep : list (Coordinate * ModelResult) :=
  [(at_kp 1, fit_at 0 5); (at_kp 2, fit_at 5 0); (at_kp 3, fit_at 0 5)].

Definition default_weights : Q * Q * Q := (2, 0, 10)%Q.

(** A fit with a third peak, [c_], beside the two of [two_peaks]. *)
Definition three_peaks : Model := XModelMixin.add two_peaks (Basic (peak "c_")).

Definition fit_with_third (center_a center_b center_c : Q) : ModelResult :=
  mkResult three_peaks (make_params three_peaks)
           [("a_amplitude"%string, fitted 1); ("a_center"%string, fitted center_a);
            ("a_sigma"%string, fitted 1);
            ("b_amplitude"%string, fitted 1); ("b_center"%string, fitted center_b);
            ("b_sigma"%string, fitted 1);
            ("c_amplitude"%string, fitted 1); ("c_center"%string, fitted center_c);
            ("c_sigma"%string, fitted 1)]
           [].

(** The sum of the coordinate differences: the Euclidean distance of two
    vectors that differ in one coordinate only, as the vectors of the
    sample fits do. *)
Definition axis_distance (u v : list Q) : Q :=
  Qsum (map (fun xy => Qabs (fst xy - snd xy)) (combine u v)).
End Samples.

(** The nearest-neighbour prior as the specification words it: the
    parameters of the first cache entry of least squared distance to the
    current coordinate, the initial fits when the cache is empty. *)
Definition nearest_neighbor_prior (initial_fits : Lmfit.Params)
           (all_fit_parameters : PyDict.t BandAnalysis.FrozenCoord Lmfit.Params)
           (frozen_coordinate : BandAnalysis.FrozenCoord) : Lmfit.Params :=
  fst (fold_left
         (min_step (fun item => BandAnalysis.squared_distance (fst item) frozen_coordinate)
                   snd)
         (PyDict.items all_fit_parameters)
         (initial_fits, PosInf)).

Module SampleSweep.
Import Lmfit BandAnalysis.

(** A spectrum over [eV] x [kp] x [delay], with [kp = 0, 1] and
    [delay = 0, 5, 10], of intensity [100 eV + delay + kp]. *)
Definition spectrum_over (eVs : list Q) : Xarray.DataArray :=
  Xarray.mkDataArray
    ["eV"; "kp"; "delay"]%string
    [("eV"%string, eVs); ("kp"%string, [0; 1]%Q); ("delay"%string, [0; 5; 10]%Q)]
    (map (fun c => (c, match c with
                       | [e; k; d] => (100 * e + d + k)%Q
                       | _ => 0%Q
                       end))
         (Itertools.product [eVs; [0; 1]; [0; 5; 10]]%Q)).

Definition spectrum : Xarray.DataArray := spectrum_over [0; 1]%Q.

(** A stand-in for the least-squares fit: it keeps the initial parameters it
    is handed and reports the total intensity of the marginal as the center
    found. *)
Definition total_intensity_fit (m : Model) (data : list Q) (new_params : Params)
           (x : list Q) : ModelResult :=
  mkResult m new_params
           (PyDict.set new_params "a_center"%string (Samples.fitted (Qred (Qsum data))))
           [].

Definition one_peak : list Model := [Basic (Samples.peak "a_")].

Definition initial_fits : Params :=
  [("a_amplitude"%string, Samples.fitted 1); ("a_center"%string, Samples.fitted 0);
   ("a_sigma"%string, Samples.fitted 1)].

(** The initial value of ["a_center"] handed to the fit stored at a
    coordinate of the result grid. *)
Definition initial_center_at (st : res SweepState) (fc : FrozenCoord) : option Q :=
  match st with
  | Ok (band_results, _) =>
      match PyDict.get band_results fc with
      | Some (Some r) => option_map value (PyDict.get (init_params r) "a_center"%string)
      | _ => None
      end
  | Raise _ => None
  end.

Definition fitted_center_at (st : res SweepState) (fc : FrozenCoord) : option Q :=
  match st with
  | Ok (_, all_fit_parameters) =>
      match PyDict.get all_fit_parameters fc with
      | Some ps => option_map value (PyDict.get ps "a_center"%string)
      | None => None
      end
  | Raise _ => None
  end.
End SampleSweep.

(** Every direction is a dimension of the array and has a coordinate
    vector. *)
Definition axes_ok (arr : Xarray.DataArray) (directions : list string) : bool :=
  forallb (fun d =>
             match Xarray.index_of d (Xarray.dims arr), PyDict.get (Xarray.coords arr) d with
             | Some _, Some _ => true
             | _, _ => false
             end)
          directions.

(** Every label of the selector can be selected in the array. *)
Definition selectable (arr : Xarray.DataArray) (selector : list (string * Q)) : Prop :=
  forall d v, In (d, v) selector ->
    (exists i, Xarray.index_of d (Xarray.dims arr) = Some i)
    /\ (exists labels, PyDict.get (Xarray.coords arr) d = Some labels /\ In v labels).

(** The parameter namespace of a model: the prefixed names of all its
    components. *)
Definition namespace (m : Lmfit.Model) : list string :=
  flat_map Lmfit.param_names (Lmfit.components m).

(** The subset of a parameter set that belongs to a model: the entries whose
    prefix-qualified name is in its namespace. *)
Definition own_params (m : Lmfit.Model) (params : Lmfit.Params) : Lmfit.Params :=
  filter (fun kv => existsb (String.eqb (fst kv)) (namespace m)) params.

(** The guess of the last component, in their order, that guessed [k]. *)
Definition last_guess (guesses : list Lmfit.Params) (k : string) : option Lmfit.Param :=
  fold_left (fun acc g => match PyDict.get g k with
                          | Some v => Some v
                          | None => acc
                          end)
            guesses None.

(** The linear interpolation at [x] between [(x0, y0)] and [(x1, y1)]. *)
Definition linear_interpolation (x x0 y0 x1 y1 : Q) : Q :=
  (y0 + (x - x0) * (y1 - y0) / (x1 - x0))%Q.

(** The patterning coordinate of a control point and its coordinate along
    the fit axis, for a patterning axis at position [coord_index] of the
    array. *)
Definition patterning_coordinate (coord_index : nat) (point : Q * Q) : Q :=
  if Nat.eqb coord_index 0 then fst point else snd point.

Definition fit_coordinate (coord_index : nat) (point : Q * Q) : Q :=
  if Nat.eqb coord_index 0 then snd point else fst point.

(** The pair of consecutive control points brackets [coord]. *)
Definition brackets (coord_index : nat) (coord : Q) (pair : (Q * Q) * (Q * Q)) : bool :=
  BandAnalysis._is_between coord
    (patterning_coordinate coord_index (fst pair))
    (patterning_coordinate coord_index (snd pair)).

(** The pair brackets [coord] with its two patterning coordinates equal. *)
Definition degenerate (coord_index : nat) (coord : Q) (pair : (Q * Q) * (Q * Q)) : bool :=
  brackets coord_index coord pair
  && Qeq_bool (patterning_coordinate coord_index (fst pair))
              (patterning_coordinate coord_index (snd pair)).

(** The expected centers as the specification words them: the linear
    interpolation between every bracketing pair of consecutive control
    points. *)
Definition expected_centers (coord_index : nat) (coord : Q) (points : list (Q * Q))
  : list Q :=
  map (fun pair =>
         linear_interpolation coord
           (patterning_coordinate coord_index (fst pair))
           (fit_coordinate coord_index (fst pair))
           (patterning_coordinate coord_index (snd pair))
           (fit_coordinate coord_index (snd pair)))
      (filter (brackets coord_index coord) (Itertools.pairwise points)).

(** The hint [field] of the entry [key] of a dictionary of parameter
    hints, [params[key][field]]. *)
Definition hint_at (params : Store.ParamsDict) (key field : string) : option Q :=
  match PyDict.get params key with
  | Some (Store.VDict hints) => PyDict.get hints field
  | _ => None
  end.

(** No band of the band set has a location at the slice. *)
Definition no_bands_at (arr : Xarray.DataArray) (coord_dict : BandAnalysis.Coordinate)
           (band_set : list BandAnalysis.BandDescription) : bool :=
  forallb (fun description =>
             match BandAnalysis.partial_band_locations arr coord_dict description with
             | Ok [] => true
             | _ => false
             end)
          band_set.

Module SamplePattern.
Import Lmfit BandAnalysis.

(** A spectrum over [eV] x [kp], four energies by four momenta, of intensity
    [(kp - eV)^2]. *)
Definition spectrum : Xarray.DataArray :=
  Xarray.mkDataArray
    ["eV"; "kp"]%string
    [("eV"%string, [0; 1 # 2; 1; 2]%Q); ("kp"%string, [0; 1; 2; 3]%Q)]
    (map (fun c => (c, match c with
                       | [e; k] => ((k - e) * (k - e))%Q
                       | _ => 0%Q
                       end))
         (Itertools.product [[0; 1 # 2; 1; 2]; [0; 1; 2; 3]]%Q)).

Definition line_shape (x : Q) (args : list Q) : Q :=
  match args with
  | [slope; intercept] => (slope * x + intercept)%Q
  | _ => 0%Q
  end.

(** The lmfit model of an affine background. *)
Definition affine (prefix : string) : BasicModel :=
  mkBasic prefix
          [("slope"%string, Samples.fitted 0); ("intercept"%string, Samples.fitted 0)]
          line_shape
          (fun _ _ => Raise NotImplementedError).

Definition peak_band : Band := mkBand Samples.peak.
Definition background_band : Band := mkBand affine.

(** One band, patterned by the control points [(0, 1), (1, 2)] of
    (eV, kp), whose hints live in the dictionary at reference [0]. *)
Definition band_set : list BandDescription :=
  [mkBandDescription "a" (Some peak_band) (Some ["eV"%string]) (Some 0)
                     (Some [(0, 1); (1, 2)]%Q)].

(** The store of the caller: the one dictionary of the band, empty. *)
Definition caller_store : Store.Heap := [[]].

(** A stand-in for the least-squares fit: the parameters are left as they
    are handed in and the data are the residual. *)
Definition null_fit (m : Model) (data : list Q) (new_params : Params) (x : list Q)
  : ModelResult :=
  mkResult m new_params new_params data.

Definition sweep : res (PatternedOutput * Store.Heap) :=
  fit_patterned_bands null_fit spectrum (Some 1%Q) band_set "kp"
                      (Some background_band) true caller_store.
(** The marginal at [eV = 1/2], and the hints [_build_params] leaves in an
    empty dictionary for the center [3/2] expected there, with a stray of
    [1]. *)
Definition marginal_at_half : Xarray.DataArray :=
  match Xarray.sel spectrum [("eV"%string, (1 # 2)%Q)] with
  | Ok m => m
  | Raise _ => spectrum
  end.

Definition hints_at_half : Store.ParamsDict :=
  match build_params_dict [] (3 # 2) (Some 1%Q) (Some marginal_at_half) with
  | Ok d => d
  | Raise _ => []
  end.

(** The sweep taken apart: the template, the grid it starts from, the
    slices, and the state reached before the last slice, [eV = 2], at which
    the band is not bracketed. *)
Definition template : list string * PyDict.t string (list Q) :=
  (["eV"%string], [("eV"%string, [0; 1 # 2; 1; 2]%Q)]).

Definition empty_grid : PyDict.t FrozenCoord (option ModelResult) :=
  map (fun fc => (fc, None)) [[0]; [1 # 2]; [1]; [2]]%Q.

Definition slices : list (Coordinate * Xarray.DataArray) :=
  match iterate_axis spectrum ["eV"%string] with
  | Ok l => l
  | Raise _ => []
  end.

Definition last_slice : Coordinate * Xarray.DataArray :=
  nth 3 slices ([], spectrum).

Definition before_last_slice
  : PyDict.t FrozenCoord (option ModelResult) * Store.Heap :=
  match Store.foldMM
          (patterned_turn null_fit spectrum (Some 1%Q) ["eV"%string]
                          (Some background_band) band_set)
          (firstn 3 slices) empty_grid caller_store with
  | Ok st => st
  | Raise _ => (empty_grid, caller_store)
  end.

End SamplePattern.

(** The coordinates are pairwise different, as the labels of an array are. *)
Fixpoint distinct_coords (l : list BandAnalysis.FrozenCoord) : bool :=
  match l with
  | [] => true
  | k :: ks => forallb (fun k' => negb (tuple_eqb k k')) ks && distinct_coords ks
  end.

(** What the residual aggregation leaves at a cell of the grid: the residual
    of the fit when there is one of the length of the fit axis, zeros
    otherwise. *)
Definition residual_of (fit_length : nat) (cell : option Lmfit.ModelResult) : list Q :=
  match cell with
  | None => repeat 0%Q fit_length
  | Some fit_item =>
      if Nat.eqb (length (Lmfit.residual fit_item)) fit_length
      then Lmfit.residual fit_item
      else repeat 0%Q fit_length
  end.

(** The exception a pair of control points can raise: a patterning axis at
    position two or more is outside every control point, otherwise only the
    division by zero is left. *)
Definition fragment_error (coord_index : nat) : pyerr :=
  if coord_index <? 2 then ZeroDivisionError else IndexError.

(** Two outcomes of the interpolation agree: the same exception, or the
    same locations up to the value of the rationals. *)
Definition same_location (a b : Q * Q) : Prop :=
  (fst a == fst b)%Q /\ (snd a == snd b)%Q.

Definition same_outcome (r1 r2 : res (list (Q * Q))) : Prop :=
  match r1, r2 with
  | Ok l1, Ok l2 => Forall2 same_location l1 l2
  | Raise e1, Raise e2 => e1 = e2
  | _, _ => False
  end.

(** A band whose control points fold back: the slice at [eV = 1] of the
    sample spectrum meets it twice, at [kp = 2] and at [kp = 5/2]. *)
Module SampleFold.
Import Lmfit BandAnalysis.

Definition description (params : option Store.ref) : BandDescription :=
  mkBandDescription "a" (Some SamplePattern.peak_band) (Some ["eV"%string]) params
                    (Some [(0, 1); (2, 3); (0, 2)]%Q).

Definition coord_dict : Coordinate := [("eV"%string, 1%Q)].

Definition marginal : Xarray.DataArray :=
  match Xarray.sel SamplePattern.spectrum coord_dict with
  | Ok m => m
  | Raise _ => SamplePattern.spectrum
  end.

(** The hints a caller may bring: a stray of its own, a bound on the
    width, and a hint on the center that is not a value or a bound. *)
Definition caller_hints : Store.ParamsDict :=
  [("stray"%string, Store.VNum (1 # 2));
   ("sigma"%string, Store.VDict [("max"%string, 3%Q)]);
   ("center"%string, Store.VDict [("vary"%string, 0%Q)])].

End SampleFold.

(** Two evaluations agree: the same exception, or values that are equal as
    rationals. *)
Definition same_value (r1 r2 : res Q) : Prop :=
  match r1, r2 with
  | Ok y1, Ok y2 => (y1 == y2)%Q
  | Raise e1, Raise e2 => e1 = e2
  | _, _ => False
  end.

(** The components of a convolution that are guessed: all but the kernel,
    of prefix ["conv_"]. *)
Definition guessed_components (m : Lmfit.Model) : list Lmfit.BasicModel :=
  filter (fun c => negb (String.eqb (Lmfit.prefix c) "conv_")) (Lmfit.components m).

(** The one name among [param_names] that contains ["center"], if there is
    exactly one. *)
Definition only_center (param_names : list string) : option string :=
  match filter (Kfermi.contains "center") param_names with
  | [name] => Some name
  | _ => None
  end.

(** The fit of a marginal by [fit_bands]: the composite model, fitted to the
    values of the marginal from the values of the parameters [prior]. *)
Definition fit_from
           (fit : Lmfit.Model -> list Q -> Lmfit.Params -> list Q -> Lmfit.ModelResult)
           (composite_model : Lmfit.Model) (marginal : Xarray.DataArray) (x : list Q)
           (prior : Lmfit.Params) : Lmfit.ModelResult :=
  fit composite_model (Xarray.values marginal)
      (Lmfit.make_params_with composite_model
         (map (fun kv => (fst kv, Lmfit.value (snd kv))) (PyDict.items prior)))
      x.

(** The first two turns of the sample sweep of [fit_bands], taken one by
    one. *)
Module SampleTurns.
Import Lmfit BandAnalysis.

Definition template_dims : list string := ["eV"; "delay"]%string.

Definition marginals : list (Xarray.DataArray * Coordinate) :=
  match _iterate_marginals SampleSweep.spectrum (Some template_dims) with
  | Ok l => l
  | Raise _ => []
  end.

Definition empty_grid : PyDict.t FrozenCoord (option ModelResult) :=
  map (fun fc => (fc, None)) (Itertools.product [[0; 1]; [0; 5; 10]]%Q).

Definition first_marginal : Xarray.DataArray * Coordinate :=
  nth 0 marginals (SampleSweep.spectrum, []).

Definition second_marginal : Xarray.DataArray * Coordinate :=
  nth 1 marginals (SampleSweep.spectrum, []).

Definition turn (st : SweepState) (mc : Xarray.DataArray * Coordinate) : SweepState :=
  match fit_bands_turn SampleSweep.total_intensity_fit "mdc" template_dims
                       SampleSweep.one_peak SampleSweep.initial_fits st mc with
  | Ok st' => st'
  | Raise _ => st
  end.

Definition after_first : SweepState := turn (empty_grid, PyDict.empty) first_marginal.

Definition after_second : SweepState := turn after_first second_marginal.

End SampleTurns.

(* ======================================================================== *)
(** * Properties *)

(** ** The error monad *)

Lemma bind_Ok {A B : Type} (m : res A) (k : A -> res B) (b : B) :
  bind m k = Ok b -> exists a, m = Ok a /\ k a = Ok b.
Proof. destruct m as [a|e]; simpl; [eauto | discriminate]. Qed.

Lemma mapM_Ok_length {A B : Type} (f : A -> res B) (l : list A) (r : list B) :
  mapM f l = Ok r -> length r = length l.
Proof.
  revert r; induction l as [|x xs IH]; simpl; intros r E.
  - now inversion E.
  - apply bind_Ok in E as (y & _ & E). apply bind_Ok in E as (ys & Eys & E).
    inversion E; subst; simpl. f_equal; auto.
Qed.

Lemma mapM_Ok_map {A B : Type} (f : A -> res B) (g : A -> B) (l : list A) :
  (forall x, In x l -> f x = Ok (g x)) -> mapM f l = Ok (map g l).
Proof.
  induction l as [|x xs IH]; simpl; intros E; [reflexivity|].
  rewrite (E x (or_introl eq_refl)); simpl. rewrite IH; auto.
Qed.

(** ** Comparisons *)

Lemma Qltb_lt (x y : Q) : Qltb x y = true <-> (x < y)%Q.
Proof.
  unfold Qltb. rewrite negb_true_iff. split; intros E.
  - apply Qnot_le_lt. intros L. apply Qle_bool_iff in L. congruence.
  - destruct (Qle_bool y x) eqn:L; [|reflexivity].
    apply Qle_bool_iff in L. exfalso. eapply Qlt_not_le; eauto.
Qed.

Lemma Qltb_ge (x y : Q) : Qltb x y = false <-> (y <= x)%Q.
Proof.
  unfold Qltb. rewrite negb_false_iff. apply Qle_bool_iff.
Qed.

(** ** The minimum search *)

Section MinSearch.
Context {A B : Type} (cost : A -> Q) (pay : A -> B).

Lemma min_step_running (l pre : list A) (a0 : A) :
  first_minimizer cost pre a0 ->
  exists a,
    fold_left (min_step cost pay) l (pay a0, Fin (cost a0)) = (pay a, Fin (cost a))
    /\ first_minimizer cost (pre ++ l) a.
Proof.
  revert pre a0. induction l as [|x l IH]; intros pre a0 Hmin.
  - exists a0. rewrite app_nil_r. now split.
  - simpl. unfold min_step at 2. simpl.
    destruct Hmin as (l1 & l2 & Epre & Hlt & Hle).
    replace (pre ++ x :: l) with ((pre ++ [x]) ++ l)
      by now rewrite <- app_assoc.
    destruct (Qltb (cost x) (cost a0)) eqn:E.
    + apply Qltb_lt in E. apply IH.
      exists pre, []. split; [reflexivity|]. split; [|intros b []].
      intros b Hb. subst pre. apply in_app_or in Hb as [Hb | [<- | Hb]].
      * apply Hlt in Hb. lra.
      * exact E.
      * apply Hle in Hb. lra.
    + apply Qltb_ge in E. apply IH.
      exists l1, (l2 ++ [x]). subst pre. split.
      * now rewrite <- app_assoc.
      * split; [exact Hlt|]. intros b Hb.
        apply in_app_or in Hb as [Hb | [<- | []]]; auto.
Qed.

(** From an infinite running minimum, over a list that is not empty, the
    search returns the first element of least cost. *)
Lemma min_step_first (l : list A) (b0 : B) :
  l <> [] ->
  exists a,
    fold_left (min_step cost pay) l (b0, PosInf) = (pay a, Fin (cost a))
    /\ first_minimizer cost l a.
Proof.
  destruct l as [|x l]; [congruence|]. intros _. simpl.
  unfold min_step at 2; simpl.
  apply (min_step_running l [x]).
  exists [], []. split; [reflexivity|]. split; intros b [].
Qed.

Lemma first_minimizer_In (l : list A) (a : A) :
  first_minimizer cost l a -> In a l.
Proof.
  intros (l1 & l2 & -> & _). apply in_or_app. right. now left.
Qed.

Lemma first_minimizer_least (l : list A) (a b : A) :
  first_minimizer cost l a -> In b l -> (cost a <= cost b)%Q.
Proof.
  intros (l1 & l2 & -> & Hlt & Hle) Hb.
  apply in_app_or in Hb as [Hb | [<- | Hb]].
  - apply Hlt in Hb. lra.
  - lra.
  - now apply Hle.
Qed.
End MinSearch.

(** ** itertools *)

Lemma flat_map_constant_length {X B : Type} (f : X -> list B) (l : list X) (c : nat) :
  (forall x, In x l -> length (f x) = c) -> length (flat_map f l) = length l * c.
Proof.
  induction l as [|x xs IH]; simpl; intros H; [reflexivity|].
  rewrite length_app, H, IH; auto.
Qed.

Section IterFacts.
Context {A : Type}.
Import Itertools.

Lemma selections_sound (pool : list A) (s : A * list A) :
  In s (selections pool) -> Permutation pool (fst s :: snd s).
Proof.
  revert s. induction pool as [|x xs IH]; simpl; intros s Hs; [easy|].
  destruct Hs as [<- | Hs]; [reflexivity|].
  apply in_map_iff in Hs as (s' & <- & Hs'). simpl.
  rewrite perm_swap. constructor. now apply IH.
Qed.

Lemma selections_complete (pool : list A) (x : A) :
  In x pool ->
  exists rest, In (x, rest) (selections pool) /\ Permutation pool (x :: rest).
Proof.
  induction pool as [|y ys IH]; simpl; intros Hx; [easy|].
  destruct Hx as [-> | Hx].
  - exists ys. split; [now left | reflexivity].
  - destruct (IH Hx) as (rest & Hin & Hperm). exists (y :: rest). split.
    + right. apply in_map_iff. now exists (x, rest).
    + rewrite perm_swap. now constructor.
Qed.

Lemma selections_length (pool : list A) : length (selections pool) = length pool.
Proof.
  induction pool as [|x xs IH]; simpl; [reflexivity|].
  now rewrite length_map, IH.
Qed.

Lemma selections_rest_length (pool : list A) (s : A * list A) :
  In s (selections pool) -> S (length (snd s)) = length pool.
Proof.
  intros Hs. apply selections_sound, Permutation_length in Hs. now simpl in Hs.
Qed.

(** Every arrangement generated is a permutation of the pool. *)
Lemma permutations_sound (pool p : list A) :
  In p (permutations pool) -> Permutation p pool.
Proof.
  unfold permutations. remember (length pool) as n eqn:En.
  revert pool p En. induction n as [|n IH]; simpl; intros pool p En Hp.
  - destruct pool; [|discriminate]. destruct Hp as [<- | []]. constructor.
  - apply in_flat_map in Hp as (s & Hs & Hp).
    apply in_map_iff in Hp as (p' & <- & Hp').
    pose proof (selections_rest_length _ _ Hs) as Hlen.
    rewrite (selections_sound _ _ Hs). constructor.
    apply IH; [lia | exact Hp'].
Qed.

(** Every permutation of the pool is generated. *)
Lemma permutations_complete (pool p : list A) :
  Permutation p pool -> In p (permutations pool).
Proof.
  unfold permutations. remember (length pool) as n eqn:En.
  revert pool p En. induction n as [|n IH]; simpl; intros pool p En Hp.
  - destruct pool; [|discriminate].
    apply Permutation_sym, Permutation_nil in Hp. now left.
  - destruct p as [|x p'].
    { apply Permutation_length in Hp. simpl in Hp. lia. }
    assert (Hx : In x pool)
      by (eapply Permutation_in; [exact Hp | now left]).
    destruct (selections_complete _ _ Hx) as (rest & Hin & Hperm).
    apply in_flat_map. exists (x, rest). split; [exact Hin|]. simpl.
    apply in_map. apply IH.
    + apply selections_rest_length in Hin. simpl in Hin. lia.
    + eapply Permutation_cons_inv. now rewrite Hp, Hperm.
Qed.

(** The pool itself, in its own order, is the first arrangement. *)
Lemma permutations_head (pool : list A) :
  exists tl, permutations pool = pool :: tl.
Proof.
  unfold permutations. induction pool as [|x xs [tl IH]]; simpl.
  - now exists [].
  - rewrite IH. simpl. eexists. reflexivity.
Qed.

(** A pool of [k] elements has [k!] arrangements. *)
Lemma permutations_length (pool : list A) :
  length (permutations pool) = fact (length pool).
Proof.
  unfold permutations. remember (length pool) as n eqn:En.
  revert pool En. induction n as [|n IH]; intros pool En; [reflexivity|].
  cbn [permutations_r].
  rewrite flat_map_constant_length with (c := fact n).
  - rewrite selections_length, <- En. reflexivity.
  - intros s Hs. rewrite length_map. apply IH.
    apply selections_rest_length in Hs. lia.
Qed.

Lemma product_length (pools : list (list A)) :
  length (product pools) = fold_right Nat.mul 1 (map (@length A) pools).
Proof.
  induction pools as [|pool rest IH]; [reflexivity|].
  cbn [product map fold_right].
  rewrite flat_map_constant_length with (c := length (product rest)).
  - now rewrite IH.
  - intros x _. apply length_map.
Qed.
End IterFacts.

Example permutations_3 :
  Itertools.permutations (range 3)
  = [[0;1;2]; [0;2;1]; [1;0;2]; [1;2;0]; [2;0;1]; [2;1;0]].
Proof. reflexivity. Qed.

Example product_2_3 :
  Itertools.product [[1;2]; [7;8;9]]
  = [[1;7]; [1;8]; [1;9]; [2;7]; [2;8]; [2;9]].
Proof. reflexivity. Qed.

(** ** Identity resolution: the search over arrangements *)

Section Arrangement.
Import BandAnalysis.

Lemma arrangement_step_min_step (dist_mat : list (list Q)) :
  arrangement_step dist_mat = min_step (trace dist_mat) (fun p => p).
Proof. reflexivity. Qed.

Lemma best_arrangement_first (dist_mat : list (list Q)) (k : nat) :
  first_minimizer (trace dist_mat) (Itertools.permutations (range k))
                  (best_arrangement dist_mat k).
Proof.
  unfold best_arrangement. rewrite arrangement_step_min_step.
  destruct (min_step_first (trace dist_mat) (fun p => p)
              (Itertools.permutations (range k)) (range k))
    as (a & -> & Hmin); [|exact Hmin].
  destruct (permutations_head (range k)) as (tl & ->). discriminate.
Qed.

Lemma best_arrangement_perm (dist_mat : list (list Q)) (k : nat) :
  Permutation (best_arrangement dist_mat k) (range k).
Proof.
  apply permutations_sound.
  exact (first_minimizer_In _ _ _ (best_arrangement_first dist_mat k)).
Qed.
End Arrangement.

(** C2. The arrangement chosen for a slice with [k] components is a
    permutation of the component indices, the sum of its matched distances
    [dist_mat[i, p(i)]] is least among all [k!] permutations, and it is the
    first permutation of that least sum in the order in which the
    permutation generator emits them. *)
Theorem best_arrangement_minimal (dist_mat : list (list Q)) (k : nat) :
  Permutation (BandAnalysis.best_arrangement dist_mat k) (range k)
  /\ (forall p, Permutation p (range k) ->
        (BandAnalysis.trace dist_mat (BandAnalysis.best_arrangement dist_mat k)
         <= BandAnalysis.trace dist_mat p)%Q)
  /\ first_minimizer (BandAnalysis.trace dist_mat)
                     (Itertools.permutations (range k))
                     (BandAnalysis.best_arrangement dist_mat k)
  /\ length (Itertools.permutations (range k)) = fact k.
Proof.
  split; [apply best_arrangement_perm|]. split; [|split].
  - intros p Hp. eapply first_minimizer_least.
    + apply best_arrangement_first.
    + now apply permutations_complete.
  - apply best_arrangement_first.
  - rewrite permutations_length. unfold range. now rewrite length_seq.
Qed.

(** A tie between [(0,1)] and [(1,0)] goes to [(0,1)], generated first; a
    strictly shorter swap is taken. *)
Example best_arrangement_tie :
  BandAnalysis.best_arrangement [[1; 1]; [1; 1]]%Q 2 = [0; 1].
Proof. reflexivity. Qed.

Example best_arrangement_swap :
  BandAnalysis.best_arrangement [[5; 1]; [1; 5]]%Q 2 = [1; 0].
Proof. reflexivity. Qed.

Example best_arrangement_three :
  BandAnalysis.best_arrangement [[4; 1; 3]; [2; 0; 5]; [3; 2; 2]]%Q 3 = [1; 0; 2].
Proof. reflexivity. Qed.

(** ** Dictionaries *)

Section DictFacts.
Context {K V : Type} `{KeyEq K}.
Hypothesis keqb_refl : forall k : K, keqb k k = true.

Lemma set_In (d : PyDict.t K V) (k : K) (v : V) (x : K * V) :
  In x (PyDict.set d k v) -> In x d \/ snd x = v.
Proof.
  induction d as [|[k' v'] d IH]; simpl.
  - intros [<- | []]. now right.
  - destruct (keqb k' k).
    + intros [<- | Hx]; [now right | left; now right].
    + intros [<- | Hx]; [left; now left|].
      destruct (IH Hx); [left; now right | now right].
Qed.

Lemma get_set_same (d : PyDict.t K V) (k : K) (v : V) :
  PyDict.get (PyDict.set d k v) k = Some v.
Proof.
  induction d as [|[k' v'] d IH]; simpl.
  - now rewrite keqb_refl.
  - destruct (keqb k' k) eqn:E; simpl; now rewrite E.
Qed.

Lemma set_not_empty (d : PyDict.t K V) (k : K) (v : V) : PyDict.set d k v <> [].
Proof. destruct d as [|[k' v'] d]; simpl; [|destruct (keqb k' k)]; discriminate. Qed.

(** The first key of a dictionary keeps the first place. *)
Lemma set_head (d : PyDict.t K V) (k0 : K) (v0 : V) (k : K) (v : V) :
  exists v0', PyDict.set ((k0, v0) :: d) k v = (k0, v0') :: tl (PyDict.set ((k0, v0) :: d) k v).
Proof. simpl. destruct (keqb k0 k); eexists; reflexivity. Qed.

Lemma set_keys_length (d : PyDict.t K V) (k : K) (v : V) :
  length d <= length (PyDict.set d k v).
Proof.
  induction d as [|[k' v'] d IH]; simpl; [lia|].
  destruct (keqb k' k); simpl; lia.
Qed.
End DictFacts.

Lemma tuple_eqb_refl (c : list Q) : tuple_eqb c c = true.
Proof.
  induction c as [|x xs IH]; simpl; [reflexivity|].
  now rewrite Qeq_bool_refl, IH.
Qed.

Lemma string_keqb_refl (k : string) : keqb k k = true.
Proof. apply String.eqb_refl. Qed.

(** ** Sums and lists *)

Lemma Qsum_from (l : list Q) (a : Q) : (fold_left Qplus l a == a + Qsum l)%Q.
Proof.
  unfold Qsum. revert a. induction l as [|x xs IH]; intros a; simpl.
  - lra.
  - rewrite IH, (IH (0 + x)%Q). lra.
Qed.

Lemma Qsum_cons (x : Q) (l : list Q) : (Qsum (x :: l) == x + Qsum l)%Q.
Proof. unfold Qsum at 1. simpl. rewrite Qsum_from. lra. Qed.

Lemma Qsum_nonneg (l : list Q) : Forall (fun x => (0 <= x)%Q) l -> (0 <= Qsum l)%Q.
Proof.
  induction 1 as [|x xs Hx _ IH]; [unfold Qsum; simpl; lra|].
  rewrite Qsum_cons. lra.
Qed.

Lemma Qsum_zero (l : list Q) : Forall (fun x => (x == 0)%Q) l -> (Qsum l == 0)%Q.
Proof.
  induction 1 as [|x xs Hx _ IH]; [reflexivity|].
  rewrite Qsum_cons, Hx, IH. lra.
Qed.

Lemma map_nth_seq_self {A : Type} (l : list A) (d : A) :
  map (fun i => nth i l d) (seq 0 (length l)) = l.
Proof.
  induction l as [|x xs IH]; simpl; [reflexivity|].
  f_equal. rewrite <- seq_shift, map_map. exact IH.
Qed.

Lemma mapM_is_ok {A B : Type} (f : A -> res B) (l : list A) :
  (forall x, In x l -> exists y, f x = Ok y) -> exists r, mapM f l = Ok r.
Proof.
  induction l as [|x xs IH]; simpl; intros E; [eauto|].
  destruct (E x (or_introl eq_refl)) as (y & ->).
  destruct IH as (ys & ->); [intros; apply E; now right|]. simpl. eauto.
Qed.

Lemma mapM_Ok_Forall2 {A B : Type} (f : A -> res B) (l : list A) (r : list B) :
  mapM f l = Ok r -> Forall2 (fun x y => f x = Ok y) l r.
Proof.
  revert r; induction l as [|x xs IH]; simpl; intros r E.
  - inversion E. constructor.
  - apply bind_Ok in E as (y & Ey & E). apply bind_Ok in E as (ys & Eys & E).
    inversion E; subst. constructor; auto.
Qed.

Lemma is_ok_true {A : Type} (r : res A) : is_ok r = true <-> exists a, r = Ok a.
Proof.
  destruct r; simpl; split; eauto; try discriminate.
  intros (a & E). discriminate.
Qed.

Lemma fold_left_ext {A S : Type} (f g : S -> A -> S) (l : list A) (s : S) :
  (forall s a, f s a = g s a) -> fold_left f l s = fold_left g l s.
Proof.
  intros E. revert s. induction l as [|x xs IH]; intros s; simpl; [reflexivity|].
  now rewrite E, IH.
Qed.

Lemma mapM_Ok_nth {A B : Type} (f : A -> res B) (l : list A) (r : list B) (i : nat) (x : A) :
  mapM f l = Ok r -> nth_error l i = Some x ->
  exists y, nth_error r i = Some y /\ f x = Ok y.
Proof.
  intros E. apply mapM_Ok_Forall2 in E. revert i.
  induction E as [|x' y' l' r' Hxy _ IH]; intros i Hi.
  - destruct i; discriminate.
  - destruct i as [|i]; simpl in *.
    + inversion Hi; subst. eauto.
    + auto.
Qed.

Lemma nth_Forall {A : Type} (P : A -> Prop) (l : list A) (n : nat) (d : A) :
  Forall P l -> P d -> P (nth n l d).
Proof.
  intros Hl Hd. destruct (nth_in_or_default n l d) as [Hin | ->]; [|exact Hd].
  rewrite Forall_forall in Hl. now apply Hl.
Qed.

Lemma range_nth_error (k i : nat) : i < k -> nth_error (range k) i = Some i.
Proof.
  intros Hi. unfold range. rewrite nth_error_seq.
  destruct (Nat.ltb_spec i k); [reflexivity | lia].
Qed.

Lemma range_In (k i : nat) : In i (range k) <-> i < k.
Proof. unfold range. rewrite in_seq. lia. Qed.

(** ** Identity resolution: the closest reference *)

Section Closest.
Import BandAnalysis.

Lemma find_closest_min_step (identified : PyDict.t FrozenCoord Identified)
      (frozen_coord : FrozenCoord) :
  find_closest identified frozen_coord
  = fst (fold_left (min_step (dot_cost frozen_coord) (fun item => Some (snd item)))
                   (PyDict.items identified) (None, PosInf)).
Proof.
  unfold find_closest. f_equal. apply fold_left_ext.
  intros st [coord identified_band]. reflexivity.
Qed.

Lemma find_closest_empty (frozen_coord : FrozenCoord) :
  find_closest PyDict.empty frozen_coord = None.
Proof. reflexivity. Qed.

(** Over a pool that is not empty the search finds the first entry of
    least dot product. *)
Lemma find_closest_first (identified : PyDict.t FrozenCoord Identified)
      (frozen_coord : FrozenCoord) :
  identified <> [] ->
  exists item,
    find_closest identified frozen_coord = Some (snd item)
    /\ first_minimizer (dot_cost frozen_coord) (PyDict.items identified) item.
Proof.
  intros Hne. rewrite find_closest_min_step.
  destruct (min_step_first (dot_cost frozen_coord) (fun item => Some (snd item))
              (PyDict.items identified) None Hne) as (a & -> & Hmin).
  now exists a.
Qed.
End Closest.

(** ** Identity resolution: one slice against its reference *)

Section Resolve.
Import BandAnalysis Lmfit.
Variable euclidean : list Q -> list Q -> Q.
Variable weights : Q * Q * Q.
Variable prefixes : list string.

Lemma fit_ok_vector (fit_result : ModelResult) (p : string) :
  fit_ok weights prefixes fit_result = true -> In p prefixes ->
  exists v, as_vector weights fit_result p = Ok v.
Proof.
  unfold fit_ok. rewrite forallb_forall. intros Hok Hp.
  now apply is_ok_true, Hok.
Qed.

(** The entries of the matrix are the distances between the vectors of the
    slice and those of the reference. *)
Lemma build_dist_mat_entry (fit_result : ModelResult) (closest : Identified)
      (dist_mat : list (list Q)) (i j : nat) :
  build_dist_mat euclidean weights prefixes fit_result closest = Ok dist_mat ->
  i < length prefixes -> j < length prefixes ->
  exists prefix_i prefix_j u v,
    nth_error prefixes i = Some prefix_i
    /\ nth_error (fst closest) j = Some prefix_j
    /\ as_vector weights fit_result prefix_i = Ok u
    /\ as_vector weights (snd closest) prefix_j = Ok v
    /\ mat_get dist_mat i j = euclidean u v.
Proof.
  destruct closest as [closest_prefixes closest_fit]. unfold build_dist_mat.
  intros E Hi Hj.
  destruct (mapM_Ok_nth _ _ _ i _ E (range_nth_error _ _ Hi)) as (row & Hrow & Erow).
  destruct (mapM_Ok_nth _ _ _ j _ Erow (range_nth_error _ _ Hj)) as (y & Hy & Ey).
  apply bind_Ok in Ey as (prefix_i & Epi & Ey).
  apply bind_Ok in Ey as (u & Eu & Ey).
  apply bind_Ok in Ey as (prefix_j & Epj & Ey).
  apply bind_Ok in Ey as (v & Ev & Ey).
  exists prefix_i, prefix_j, u, v. simpl.
  destruct (nth_error prefixes i); [|discriminate].
  destruct (nth_error closest_prefixes j); [|discriminate].
  inversion Epi; inversion Epj; inversion Ey; subst.
  repeat split; auto. unfold mat_get.
  rewrite (nth_error_nth _ _ _ Hrow). now rewrite (nth_error_nth _ _ _ Hy).
Qed.

Lemma build_dist_mat_shape (fit_result : ModelResult) (closest : Identified)
      (dist_mat : list (list Q)) :
  build_dist_mat euclidean weights prefixes fit_result closest = Ok dist_mat ->
  Forall (fun row => forall y, In y row -> exists u v, y = euclidean u v) dist_mat.
Proof.
  destruct closest as [closest_prefixes closest_fit]. unfold build_dist_mat.
  intros E. apply mapM_Ok_Forall2 in E.
  induction E as [|i row l r Hrow _ IH]; constructor; [|exact IH].
  apply mapM_Ok_Forall2 in Hrow. clear IH.
  induction Hrow as [|j y l' r' Hy _ IH']; intros z Hz; [destruct Hz|].
  destruct Hz as [<- | Hz]; [|now apply IH'].
  apply bind_Ok in Hy as (prefix_i & _ & Hy).
  apply bind_Ok in Hy as (u & _ & Hy).
  apply bind_Ok in Hy as (prefix_j & _ & Hy).
  apply bind_Ok in Hy as (v & _ & Hy).
  inversion Hy. eauto.
Qed.

(** The matrix can be built as soon as both fits yield vectors and the
    reference holds an arrangement of the tracked prefixes. *)
Lemma build_dist_mat_ok (fit_result : ModelResult) (closest : Identified) :
  fit_ok weights prefixes fit_result = true ->
  fit_ok weights prefixes (snd closest) = true ->
  Permutation (fst closest) prefixes ->
  exists dist_mat,
    build_dist_mat euclidean weights prefixes fit_result closest = Ok dist_mat.
Proof.
  destruct closest as [closest_prefixes closest_fit]. simpl.
  intros Hfit Hclosest Hperm. unfold build_dist_mat.
  apply mapM_is_ok. intros i Hi. apply mapM_is_ok. intros j Hj.
  apply range_In in Hi, Hj.
  destruct (nth_error prefixes i) as [prefix_i|] eqn:Ei;
    [|apply nth_error_None in Ei; lia].
  rewrite <- (Permutation_length Hperm) in Hj.
  destruct (nth_error closest_prefixes j) as [prefix_j|] eqn:Ej;
    [|apply nth_error_None in Ej; lia].
  simpl.
  destruct (fit_ok_vector fit_result prefix_i Hfit (nth_error_In _ _ Ei)) as (u & ->).
  assert (Hpj : In prefix_j prefixes)
    by (eapply Permutation_in; [exact Hperm | eapply nth_error_In; eauto]).
  destruct (fit_ok_vector closest_fit prefix_j Hclosest Hpj) as (v & ->).
  simpl. eauto.
Qed.
End Resolve.

Section ResolveStep.
Import BandAnalysis Lmfit.
Variable euclidean : list Q -> list Q -> Q.
Variable weights : Q * Q * Q.
Variable prefixes : list string.

Lemma reordered_perm (closest_prefixes : list string) (arrangement : list nat) :
  Permutation arrangement (range (length closest_prefixes)) ->
  Permutation (reordered closest_prefixes arrangement) closest_prefixes.
Proof.
  intros Hp. unfold reordered.
  rewrite (Permutation_map _ Hp). unfold range.
  now rewrite map_nth_seq_self.
Qed.

Lemma reordered_mapM (closest_prefixes : list string) (arrangement : list nat) :
  Permutation arrangement (range (length closest_prefixes)) ->
  mapM (fun p_i => of_option IndexError (nth_error closest_prefixes p_i)) arrangement
  = Ok (reordered closest_prefixes arrangement).
Proof.
  intros Hp. apply mapM_Ok_map. intros p_i Hin.
  assert (Hlt : p_i < length closest_prefixes)
    by (apply range_In; eapply Permutation_in; eauto).
  now rewrite (nth_error_nth' _ EmptyString Hlt).
Qed.

(** A slice whose fit yields vectors is resolved against any reference
    that holds an arrangement of the tracked prefixes: the matrix is built,
    and the slice is recorded with the prefixes of the reference in the
    order of the best arrangement. *)
Lemma resolve_against_ok (st : IdentState) (frozen_coord : FrozenCoord)
      (fit_result : ModelResult) (closest : Identified) :
  fit_ok weights prefixes fit_result = true ->
  fit_ok weights prefixes (snd closest) = true ->
  Permutation (fst closest) prefixes ->
  exists dist_mat,
    build_dist_mat euclidean weights prefixes fit_result closest = Ok dist_mat
    /\ Permutation
         (reordered (fst closest) (best_arrangement dist_mat (length prefixes)))
         prefixes
    /\ resolve_against euclidean weights prefixes st frozen_coord fit_result closest
       = Ok (mkIdentState
               (PyDict.set (identified_by_coordinate st) frozen_coord
                  (reordered (fst closest)
                     (best_arrangement dist_mat (length prefixes)), fit_result))
               (first_coordinate st)
               (PyDict.set (identified_band_results st) frozen_coord
                  (reordered (fst closest)
                     (best_arrangement dist_mat (length prefixes))))).
Proof.
  intros Hfit Hclosest Hperm.
  destruct (build_dist_mat_ok euclidean weights prefixes fit_result closest
              Hfit Hclosest Hperm)
    as (dist_mat & E).
  exists dist_mat. split; [exact E|].
  assert (Hbest : Permutation (best_arrangement dist_mat (length prefixes))
                              (range (length (fst closest)))).
  { rewrite (Permutation_length Hperm). apply best_arrangement_perm. }
  split.
  - now rewrite (reordered_perm _ _ Hbest).
  - unfold resolve_against. destruct closest as [closest_prefixes closest_fit].
    rewrite E. simpl bind. simpl fst in *.
    now rewrite (reordered_mapM _ _ Hbest).
Qed.

Lemma ident_inv_set (st : IdentState) (frozen_coord : FrozenCoord)
      (fit_result : ModelResult) (ordered : list string) (fc0 : option Coordinate) :
  ident_inv weights prefixes st ->
  fit_ok weights prefixes fit_result = true ->
  Permutation ordered prefixes ->
  ident_inv weights prefixes
    (mkIdentState
       (PyDict.set (identified_by_coordinate st) frozen_coord (ordered, fit_result))
       fc0
       (PyDict.set (identified_band_results st) frozen_coord ordered)).
Proof.
  intros [Hpool Hrec] Hfit Hperm. split; simpl.
  - intros fc ps fit Hin. apply set_In in Hin as [Hin | Heq].
    + eapply Hpool; eauto.
    + simpl in Heq. inversion Heq; subst. now split.
  - intros fc ps Hin. apply set_In in Hin as [Hin | Heq].
    + eapply Hrec; eauto.
    + simpl in Heq. now subst.
Qed.
End ResolveStep.

(** ** Identity resolution: the loop over the slices *)

Section IdentifyLoop.
Import BandAnalysis Lmfit.
Variable euclidean : list Q -> list Q -> Q.
Variable weights : Q * Q * Q.
Variable dims prefixes : list string.

Lemma cell_ok_inv (cell : Coordinate * ModelResult) :
  cell_ok weights dims prefixes cell = true ->
  (exists fc, freeze dims (fst cell) = Ok fc)
  /\ fit_ok weights prefixes (snd cell) = true.
Proof.
  unfold cell_ok. rewrite andb_true_iff, is_ok_true. tauto.
Qed.

(** A slice met when the pool of references is not empty. *)
Lemma identify_cell_later (st : IdentState) (cell : Coordinate * ModelResult) :
  ident_inv weights prefixes st ->
  identified_by_coordinate st <> [] ->
  cell_ok weights dims prefixes cell = true ->
  exists fc item dist_mat,
    freeze dims (fst cell) = Ok fc
    /\ first_minimizer (dot_cost fc) (PyDict.items (identified_by_coordinate st)) item
    /\ find_closest (identified_by_coordinate st) fc = Some (snd item)
    /\ build_dist_mat euclidean weights prefixes (snd cell) (snd item) = Ok dist_mat
    /\ Permutation
         (reordered (fst (snd item)) (best_arrangement dist_mat (length prefixes)))
         prefixes
    /\ identify_cell euclidean weights dims prefixes st cell
       = Ok (mkIdentState
               (PyDict.set (identified_by_coordinate st) fc
                  (reordered (fst (snd item))
                     (best_arrangement dist_mat (length prefixes)), snd cell))
               (first_coordinate st)
               (PyDict.set (identified_band_results st) fc
                  (reordered (fst (snd item))
                     (best_arrangement dist_mat (length prefixes))))).
Proof.
  intros Hinv Hne Hcell.
  destruct (cell_ok_inv cell Hcell) as ((fc & Efc) & Hfit).
  destruct (find_closest_first _ fc Hne) as (item & Efind & Hmin).
  destruct item as [coord [closest_prefixes closest_fit]].
  destruct (proj1 Hinv coord closest_prefixes closest_fit
              (first_minimizer_In _ _ _ Hmin)) as (Hperm & Hclosest).
  destruct (resolve_against_ok euclidean weights prefixes st fc (snd cell)
              (closest_prefixes, closest_fit) Hfit Hclosest Hperm)
    as (dist_mat & Emat & Hord & Eres).
  exists fc, (coord, (closest_prefixes, closest_fit)), dist_mat.
  repeat split; try assumption.
  unfold identify_cell. destruct cell as [coordinate fit_result].
  cbn [fst snd] in *. rewrite Efc. cbn [bind]. rewrite Efind. exact Eres.
Qed.

(** A slice met when the pool of references is empty: it is its own
    reference. *)
Lemma identify_cell_first (st : IdentState) (cell : Coordinate * ModelResult) :
  identified_by_coordinate st = [] ->
  cell_ok weights dims prefixes cell = true ->
  component_prefixes (snd cell) = prefixes ->
  exists fc dist_mat,
    freeze dims (fst cell) = Ok fc
    /\ build_dist_mat euclidean weights prefixes (snd cell) (prefixes, snd cell)
       = Ok dist_mat
    /\ Permutation
         (reordered prefixes (best_arrangement dist_mat (length prefixes))) prefixes
    /\ identify_cell euclidean weights dims prefixes st cell
       = Ok (mkIdentState
               [(fc, (reordered prefixes
                        (best_arrangement dist_mat (length prefixes)), snd cell))]
               (Some (fst cell))
               (PyDict.set (identified_band_results st) fc
                  (reordered prefixes
                     (best_arrangement dist_mat (length prefixes))))).
Proof.
  intros Hempty Hcell Hprefixes.
  destruct (cell_ok_inv cell Hcell) as ((fc & Efc) & Hfit).
  destruct cell as [coordinate fit_result]. cbn [fst snd] in *.
  set (st0 := mkIdentState
                (PyDict.set (identified_by_coordinate st) fc (prefixes, fit_result))
                (Some coordinate) (identified_band_results st)).
  destruct (resolve_against_ok euclidean weights prefixes st0 fc fit_result
              (prefixes, fit_result) Hfit Hfit (Permutation_refl _))
    as (dist_mat & Emat & Hord & Eres).
  exists fc, dist_mat. repeat split; try assumption.
  unfold identify_cell. rewrite Efc. cbn [bind].
  subst st0. cbn [fst identified_by_coordinate first_coordinate
    identified_band_results] in *.
  rewrite Hempty in *. rewrite find_closest_empty, Hprefixes, Eres.
  cbn [PyDict.set]. unfold keqb, tuple_KeyEq. now rewrite tuple_eqb_refl.
Qed.
End IdentifyLoop.

Section DictLookup.
Context {K V : Type} `{KeyEq K}.

Lemma get_In (d : PyDict.t K V) (k : K) (v : V) :
  PyDict.get d k = Some v -> exists k0, In (k0, v) d.
Proof.
  induction d as [|[k' v'] d IH]; simpl; [discriminate|].
  destruct (keqb k' k).
  - intros E. inversion E; subst. exists k'. now left.
  - intros E. destruct (IH E) as (k0 & Hin). exists k0. now right.
Qed.

(** An assignment never removes a key. *)
Lemma get_set_kept (d : PyDict.t K V) (k k' : K) (v v' : V) :
  PyDict.get d k' = Some v' -> exists v'', PyDict.get (PyDict.set d k v) k' = Some v''.
Proof.
  induction d as [|[k0 v0] d IH]; simpl; [discriminate|].
  destruct (keqb k0 k) eqn:E; simpl; destruct (keqb k0 k'); eauto.
Qed.

(** An assignment to another key leaves the first entry alone. *)
Lemma set_head_other (d : PyDict.t K V) (k0 k : K) (v0 v : V) :
  keqb k0 k = false ->
  PyDict.set ((k0, v0) :: d) k v = (k0, v0) :: PyDict.set d k v.
Proof. intros E. simpl. now rewrite E. Qed.
End DictLookup.

Section IdentifyRun.
Import BandAnalysis Lmfit.
Variable euclidean : list Q -> list Q -> Q.
Variable weights : Q * Q * Q.
Variable dims prefixes : list string.

(** Once the pool holds a reference, every further slice that can be
    processed is processed: the loop does not raise, the pool stays
    populated, and every slice gets a recorded assignment. *)
Lemma identify_run (cells : list (Coordinate * ModelResult)) (st : IdentState) :
  ident_inv weights prefixes st ->
  identified_by_coordinate st <> [] ->
  forallb (cell_ok weights dims prefixes) cells = true ->
  exists st',
    foldM (identify_cell euclidean weights dims prefixes) cells st = Ok st'
    /\ ident_inv weights prefixes st'
    /\ identified_by_coordinate st' <> []
    /\ first_coordinate st' = first_coordinate st
    /\ (forall fc ps, PyDict.get (identified_band_results st) fc = Some ps ->
          exists ps', PyDict.get (identified_band_results st') fc = Some ps')
    /\ (forall cell, In cell cells ->
          exists fc ps, freeze dims (fst cell) = Ok fc
                        /\ PyDict.get (identified_band_results st') fc = Some ps).
Proof.
  revert st. induction cells as [|cell cells IH]; intros st Hinv Hne Hok.
  - exists st. split; [reflexivity|]. split; [exact Hinv|].
    split; [exact Hne|]. split; [reflexivity|]. split; [eauto|].
    intros cell [].
  - simpl in Hok. apply andb_true_iff in Hok as (Hcell & Hok).
    destruct (identify_cell_later euclidean weights dims prefixes st cell
                Hinv Hne Hcell)
      as (fc & item & dist_mat & Efc & Hmin & _ & _ & Hord & Estep).
    remember (reordered (fst (snd item))
                (best_arrangement dist_mat (length prefixes))) as ordered.
    cbn [foldM]. rewrite Estep. cbn [bind].
    match goal with |- context [foldM _ cells ?s] => set (st1 := s) end.
    assert (Hinv1 : ident_inv weights prefixes st1).
    { apply ident_inv_set; auto.
      apply (cell_ok_inv weights dims prefixes cell Hcell). }
    assert (Hne1 : identified_by_coordinate st1 <> [])
      by apply set_not_empty.
    destruct (IH st1 Hinv1 Hne1 Hok)
      as (st' & Erun & Hinv' & Hne' & Hfirst & Hkept & Hall).
    exists st'. split; [exact Erun|]. split; [exact Hinv'|].
    split; [exact Hne'|]. split; [exact Hfirst|]. split.
    + intros fc' ps Hget.
      destruct (get_set_kept (identified_band_results st) fc fc' ordered ps Hget)
        as (ps1 & Hget1).
      exact (Hkept fc' ps1 Hget1).
    + intros c [<- | Hc]; [|now apply Hall].
      destruct (Hkept fc ordered) as (ps' & Hps').
      { unfold st1. cbn [identified_band_results].
        apply get_set_same. exact tuple_eqb_refl. }
      eauto.
Qed.
End IdentifyRun.

Lemma foldM_app {A S : Type} (f : S -> A -> res S) (l1 l2 : list A) (s : S) :
  foldM f (l1 ++ l2) s = bind (foldM f l1 s) (foldM f l2).
Proof.
  revert s. induction l1 as [|x xs IH]; intros s; simpl; [reflexivity|].
  destruct (f s x); simpl; auto.
Qed.

(** On a one-dimensional array that is not empty, [unpack_bands_from_fit]
    is the loop over its cells, tracking the components of the first fit. *)
Lemma unpack_loop (euclidean : list Q -> list Q -> Q) (weights : Q * Q * Q) (d : string)
      (first : BandAnalysis.Coordinate * Lmfit.ModelResult)
      (rest : list (BandAnalysis.Coordinate * Lmfit.ModelResult)) :
  BandAnalysis.unpack_bands_from_fit euclidean weights (line_of_fits d (first :: rest))
  = foldM (BandAnalysis.identify_cell euclidean weights [d]
             (BandAnalysis.component_prefixes (snd first)))
          (first :: rest) initial_state.
Proof. reflexivity. Qed.

Section UnpackRun.
Import BandAnalysis Lmfit.
Variable euclidean : list Q -> list Q -> Q.
Variable weights : Q * Q * Q.
Variable dims : list string.

(** The fits held by the pool are fits of slices already met. *)
Lemma identify_cell_pool (prefixes : list string) (st st' : IdentState)
      (cell : Coordinate * ModelResult) (item : FrozenCoord * Identified) :
  identify_cell euclidean weights dims prefixes st cell = Ok st' ->
  In item (identified_by_coordinate st') ->
  In item (identified_by_coordinate st) \/ snd (snd item) = snd cell.
Proof.
  destruct cell as [coordinate fit_result]. unfold identify_cell.
  intros E Hin. apply bind_Ok in E as (fc & _ & E).
  destruct (find_closest (identified_by_coordinate st) fc) as [[cps cfit]|];
    unfold resolve_against in E;
    apply bind_Ok in E as (dist_mat & _ & E);
    apply bind_Ok in E as (ordered & _ & E);
    inversion E; subst; clear E; cbn [identified_by_coordinate] in Hin;
    apply set_In in Hin as [Hin | Heq].
  - now left.
  - right. now rewrite Heq.
  - apply set_In in Hin as [Hin | Heq]; [now left | right; now rewrite Heq].
  - right. now rewrite Heq.
Qed.

Lemma identify_run_pool (prefixes : list string)
      (cells : list (Coordinate * ModelResult)) (st st' : IdentState)
      (item : FrozenCoord * Identified) :
  foldM (identify_cell euclidean weights dims prefixes) cells st = Ok st' ->
  In item (identified_by_coordinate st') ->
  In item (identified_by_coordinate st) \/ In (snd (snd item)) (map snd cells).
Proof.
  revert st. induction cells as [|cell cells IH]; intros st E Hin; simpl in E.
  - inversion E; subst. now left.
  - apply bind_Ok in E as (st1 & E1 & E).
    destruct (IH st1 E Hin) as [Hin1 | Hin1].
    + destruct (identify_cell_pool _ _ _ _ _ E1 Hin1) as [H0 | H0].
      * now left.
      * right. left. now rewrite H0.
    + right. now right.
Qed.

(** The whole loop on an array whose cells can all be processed. *)
Lemma unpack_run (d : string) (first : Coordinate * ModelResult)
      (rest : list (Coordinate * ModelResult)) :
  forallb (cell_ok weights [d] (component_prefixes (snd first))) (first :: rest) = true ->
  exists st,
    unpack_bands_from_fit euclidean weights (line_of_fits d (first :: rest)) = Ok st
    /\ ident_inv weights (component_prefixes (snd first)) st
    /\ identified_by_coordinate st <> []
    /\ first_coordinate st = Some (fst first)
    /\ (forall cell, In cell (first :: rest) ->
          exists fc ps, freeze [d] (fst cell) = Ok fc
                        /\ PyDict.get (identified_band_results st) fc = Some ps).
Proof.
  intros Hok. cbn [forallb] in Hok. apply andb_true_iff in Hok as (Hfirst & Hrest).
  destruct (identify_cell_first euclidean weights [d] _ initial_state first
              eq_refl Hfirst eq_refl)
    as (fc & dist_mat & Efc & _ & Hord & Estep).
  match type of Estep with _ = Ok ?s => set (st1 := s) in * end.
  assert (Hinv1 : ident_inv weights (component_prefixes (snd first)) st1).
  { split; unfold st1; cbn [identified_by_coordinate identified_band_results].
    - intros c ps fit [Heq | []]. inversion Heq; subst. split; [exact Hord|].
      apply (cell_ok_inv _ _ _ _ Hfirst).
    - intros c ps [Heq | []]. inversion Heq; subst. exact Hord. }
  assert (Hne1 : identified_by_coordinate st1 <> []) by discriminate.
  destruct (identify_run euclidean weights [d] _ rest st1 Hinv1 Hne1 Hrest)
    as (st & Erun & Hinv & Hne & Hfc & Hkept & Hall).
  exists st. split.
  { rewrite unpack_loop. cbn [foldM]. rewrite Estep. exact Erun. }
  split; [exact Hinv|]. split; [exact Hne|]. split; [exact Hfc|].
  intros cell [<- | Hc]; [|now apply Hall].
  destruct (Hkept fc (reordered (component_prefixes (snd first))
                        (best_arrangement dist_mat
                           (length (component_prefixes (snd first))))))
    as (ps & Hps); [|eauto].
  unfold st1. cbn [identified_band_results].
  apply get_set_same. exact tuple_eqb_refl.
Qed.
End UnpackRun.

Example sample_unpack :
  BandAnalysis.unpack_bands_from_fit Samples.axis_distance Samples.default_weights
    (line_of_fits "kp" Samples.sweep)
  = Ok (BandAnalysis.mkIdentState
          [([1%Q], (["a_"; "b_"]%string, Samples.fit_at 0 5));
           ([2%Q], (["b_"; "a_"]%string, Samples.fit_at 5 0));
           ([3%Q], (["a_"; "b_"]%string, Samples.fit_at 0 5))]
          (Some (Samples.at_kp 1))
          [([1%Q], ["a_"; "b_"]%string);
           ([2%Q], ["b_"; "a_"]%string);
           ([3%Q], ["a_"; "b_"]%string)]).
Proof. vm_compute. reflexivity. Qed.

(** C3. On a one-dimensional array of fits, for every slice after the
    first, the reference against which the distance matrix is built is the
    already-resolved slice whose frozen coordinate has the least raw dot
    product with the frozen coordinate of the current slice, the first such
    in the iteration order of the pool; once resolved, the current slice is
    in the pool of references. *)
Theorem closest_reference_dot_product
        (euclidean : list Q -> list Q -> Q) (weights : Q * Q * Q)
        (d : string)
        (first : BandAnalysis.Coordinate * Lmfit.ModelResult)
        (earlier : list (BandAnalysis.Coordinate * Lmfit.ModelResult))
        (cell : BandAnalysis.Coordinate * Lmfit.ModelResult) :
  forallb (cell_ok weights [d] (BandAnalysis.component_prefixes (snd first)))
          (first :: earlier ++ [cell]) = true ->
  exists st fc item dist_mat st',
    BandAnalysis.unpack_bands_from_fit euclidean weights
      (line_of_fits d (first :: earlier)) = Ok st
    /\ BandAnalysis.freeze [d] (fst cell) = Ok fc
    /\ first_minimizer (dot_cost fc)
         (PyDict.items (BandAnalysis.identified_by_coordinate st)) item
    /\ In (snd (snd item)) (map snd (first :: earlier))
    /\ BandAnalysis.find_closest (BandAnalysis.identified_by_coordinate st) fc
       = Some (snd item)
    /\ BandAnalysis.build_dist_mat euclidean weights
         (BandAnalysis.component_prefixes (snd first)) (snd cell) (snd item)
       = Ok dist_mat
    /\ BandAnalysis.unpack_bands_from_fit euclidean weights
         (line_of_fits d (first :: earlier ++ [cell])) = Ok st'
    /\ PyDict.get (BandAnalysis.identified_by_coordinate st') fc
       = Some (reordered (fst (snd item))
                 (BandAnalysis.best_arrangement dist_mat
                    (length (BandAnalysis.component_prefixes (snd first)))),
               snd cell).
Proof.
  intros Hok.
  assert (Hsplit : forallb (cell_ok weights [d]
                              (BandAnalysis.component_prefixes (snd first)))
                           (first :: earlier) = true
                   /\ cell_ok weights [d]
                        (BandAnalysis.component_prefixes (snd first)) cell = true).
  { rewrite app_comm_cons, forallb_app in Hok.
    apply andb_true_iff in Hok as (H1 & H2). split; [exact H1|].
    simpl in H2. now rewrite andb_true_r in H2. }
  destruct Hsplit as (Hearlier & Hcell).
  destruct (unpack_run euclidean weights d first earlier Hearlier)
    as (st & Est & Hinv & Hne & _ & _).
  destruct (identify_cell_later euclidean weights [d] _ st cell Hinv Hne Hcell)
    as (fc & item & dist_mat & Efc & Hmin & Efind & Emat & _ & Estep).
  eexists st, fc, item, dist_mat, _.
  split; [exact Est|]. split; [exact Efc|]. split; [exact Hmin|]. split.
  { rewrite unpack_loop in Est.
    destruct (identify_run_pool euclidean weights [d] _ _ _ _ item Est)
      as [[] | Hin]; [|exact Hin].
    exact (first_minimizer_In _ _ _ Hmin). }
  split; [exact Efind|]. split; [exact Emat|]. split.
  - rewrite unpack_loop in Est. rewrite unpack_loop.
    rewrite app_comm_cons, foldM_app, Est. cbn [bind foldM].
    rewrite Estep. reflexivity.
  - cbn [BandAnalysis.identified_by_coordinate].
    apply get_set_same. exact tuple_eqb_refl.
Qed.

(** On the sample sweep, the slice at [kp = 3] is matched against the slice at
    [kp = 1], whose dot product [3] is below the [6] of the nearer slice at
    [kp = 2]. *)
Lemma closest_reference_dot_product_witness :
  exists st fc item dist_mat st',
    BandAnalysis.unpack_bands_from_fit Samples.axis_distance Samples.default_weights
      (line_of_fits "kp"
         [(Samples.at_kp 1, Samples.fit_at 0 5); (Samples.at_kp 2, Samples.fit_at 5 0)])
    = Ok st
    /\ BandAnalysis.freeze ["kp"%string] (Samples.at_kp 3) = Ok fc
    /\ first_minimizer (dot_cost fc)
         (PyDict.items (BandAnalysis.identified_by_coordinate st)) item
    /\ In (snd (snd item))
          (map snd [(Samples.at_kp 1, Samples.fit_at 0 5);
                    (Samples.at_kp 2, Samples.fit_at 5 0)])
    /\ BandAnalysis.find_closest (BandAnalysis.identified_by_coordinate st) fc
       = Some (snd item)
    /\ BandAnalysis.build_dist_mat Samples.axis_distance Samples.default_weights
         (BandAnalysis.component_prefixes (Samples.fit_at 0 5))
         (Samples.fit_at 0 5) (snd item)
       = Ok dist_mat
    /\ BandAnalysis.unpack_bands_from_fit Samples.axis_distance Samples.default_weights
         (line_of_fits "kp" Samples.sweep) = Ok st'
    /\ PyDict.get (BandAnalysis.identified_by_coordinate st') fc
       = Some (reordered (fst (snd item))
                 (BandAnalysis.best_arrangement dist_mat
                    (length (BandAnalysis.component_prefixes (Samples.fit_at 0 5)))),
               Samples.fit_at 0 5).
Proof.
  apply (closest_reference_dot_product Samples.axis_distance Samples.default_weights
           "kp" (Samples.at_kp 1, Samples.fit_at 0 5)
           [(Samples.at_kp 2, Samples.fit_at 5 0)]
           (Samples.at_kp 3, Samples.fit_at 0 5)).
  vm_compute. reflexivity.
Defined.

Example sample_reference_is_farther_slice :
  BandAnalysis.find_closest
    [([1%Q], (["a_"; "b_"]%string, Samples.fit_at 0 5));
     ([2%Q], (["b_"; "a_"]%string, Samples.fit_at 5 0))]
    [3%Q]
  = Some (["a_"; "b_"]%string, Samples.fit_at 0 5).
Proof. vm_compute. reflexivity. Qed.

(** C4, as amended. On a one-dimensional array of fits whose cells can all
    be processed, every slice is given a recorded assignment, and that
    assignment is a permutation of the prefixes being tracked, those of the
    components of the first fit of the array: it has their number, invents
    none and drops none, and holds each at most once when they are distinct.
    It is a permutation of the slice's own fitted prefixes exactly when the
    slice was fitted with the tracked components, in some order. *)
Theorem assignment_is_permutation
        (euclidean : list Q -> list Q -> Q) (weights : Q * Q * Q)
        (d : string)
        (first : BandAnalysis.Coordinate * Lmfit.ModelResult)
        (rest : list (BandAnalysis.Coordinate * Lmfit.ModelResult)) :
  forallb (cell_ok weights [d] (BandAnalysis.component_prefixes (snd first)))
          (first :: rest) = true ->
  exists st,
    BandAnalysis.unpack_bands_from_fit euclidean weights
      (line_of_fits d (first :: rest)) = Ok st
    /\ forall cell, In cell (first :: rest) ->
         exists fc ps,
           BandAnalysis.freeze [d] (fst cell) = Ok fc
           /\ PyDict.get (BandAnalysis.identified_band_results st) fc = Some ps
           /\ Permutation ps (BandAnalysis.component_prefixes (snd first))
           /\ length ps = length (BandAnalysis.component_prefixes (snd first))
           /\ (NoDup (BandAnalysis.component_prefixes (snd first)) -> NoDup ps)
           /\ (Permutation ps (BandAnalysis.component_prefixes (snd cell))
               <-> Permutation (BandAnalysis.component_prefixes (snd cell))
                               (BandAnalysis.component_prefixes (snd first))).
Proof.
  intros Hok.
  destruct (unpack_run euclidean weights d first rest Hok)
    as (st & Est & Hinv & _ & _ & Hall).
  exists st. split; [exact Est|]. intros cell Hcell.
  destruct (Hall cell Hcell) as (fc & ps & Efc & Hget).
  exists fc, ps. split; [exact Efc|]. split; [exact Hget|].
  destruct (get_In _ _ _ Hget) as (fc0 & Hin).
  pose proof (proj2 Hinv fc0 ps Hin) as Hperm.
  split; [exact Hperm|]. split; [now apply Permutation_length|]. split.
  - intros Hnodup. eapply Permutation_NoDup; [|exact Hnodup].
    now apply Permutation_sym.
  - split; intros H.
    + eapply Permutation_trans; [apply Permutation_sym; exact H | exact Hperm].
    + eapply Permutation_trans; [exact Hperm | apply Permutation_sym; exact H].
Qed.

Lemma assignment_is_permutation_witness :
  exists st,
    BandAnalysis.unpack_bands_from_fit Samples.axis_distance Samples.default_weights
      (line_of_fits "kp" Samples.sweep) = Ok st
    /\ forall cell, In cell Samples.sweep ->
         exists fc ps,
           BandAnalysis.freeze ["kp"%string] (fst cell) = Ok fc
           /\ PyDict.get (BandAnalysis.identified_band_results st) fc = Some ps
           /\ Permutation ps (BandAnalysis.component_prefixes (Samples.fit_at 0 5))
           /\ length ps = length (BandAnalysis.component_prefixes (Samples.fit_at 0 5))
           /\ (NoDup (BandAnalysis.component_prefixes (Samples.fit_at 0 5)) -> NoDup ps)
           /\ (Permutation ps (BandAnalysis.component_prefixes (snd cell))
               <-> Permutation (BandAnalysis.component_prefixes (snd cell))
                               (BandAnalysis.component_prefixes (Samples.fit_at 0 5))).
Proof.
  apply (assignment_is_permutation Samples.axis_distance Samples.default_weights
           "kp" (Samples.at_kp 1, Samples.fit_at 0 5)
           [(Samples.at_kp 2, Samples.fit_at 5 0); (Samples.at_kp 3, Samples.fit_at 0 5)]).
  vm_compute. reflexivity.
Defined.

(** C4, as the claim states it, fails. After a first slice fitted with the
    two peaks [a_] and [b_], a slice fitted with the three peaks [a_], [b_]
    and [c_] is processed as any other, and its recorded assignment is
    [a_, b_]: the prefix [c_] of the slice is dropped, and the assignment is
    no permutation of the prefixes the slice was fitted with. *)
Lemma assignment_is_permutation_counterexample :
  match BandAnalysis.unpack_bands_from_fit Samples.axis_distance Samples.default_weights
          (line_of_fits "kp"
             [(Samples.at_kp 1, Samples.fit_at 0 5);
              (Samples.at_kp 2, Samples.fit_with_third 0 5 9)]) with
  | Ok st => PyDict.get (BandAnalysis.identified_band_results st) [2%Q]
  | Raise _ => None
  end = Some ["a_"; "b_"]%string
  /\ BandAnalysis.component_prefixes (Samples.fit_with_third 0 5 9)
     = ["a_"; "b_"; "c_"]%string
  /\ ~ Permutation ["a_"; "b_"]%string
                   (BandAnalysis.component_prefixes (Samples.fit_with_third 0 5 9)).
Proof.
  split; [vm_compute; reflexivity|]. split; [reflexivity|].
  intros H. apply Permutation_length in H. discriminate.
Qed.

(** ** Identity resolution: the first slice *)

Section FirstSlice.
Import BandAnalysis Lmfit.
Variable euclidean : list Q -> list Q -> Q.
Hypothesis euclidean_self : forall u, (euclidean u u == 0)%Q.
Hypothesis euclidean_nonneg : forall u v, (0 <= euclidean u v)%Q.
Variable weights : Q * Q * Q.
Variable prefixes : list string.

Lemma combine_seq_diag (a n i j : nat) :
  In (i, j) (combine (seq a n) (seq a n)) -> i = j /\ a <= i < a + n.
Proof.
  revert a. induction n as [|n IH]; intros a; simpl; [easy|].
  intros [E | Hin].
  - inversion E; subst. lia.
  - apply IH in Hin. lia.
Qed.

Lemma trace_nonneg (fit_result : ModelResult) (closest : Identified)
      (dist_mat : list (list Q)) (p : list nat) :
  build_dist_mat euclidean weights prefixes fit_result closest = Ok dist_mat ->
  (0 <= trace dist_mat p)%Q.
Proof.
  intros E. apply build_dist_mat_shape in E.
  unfold trace. apply Qsum_nonneg. apply Forall_forall.
  intros y Hy. apply in_map_iff in Hy as ([i j] & <- & _). cbn [fst snd].
  unfold mat_get. apply nth_Forall; [|lra].
  apply Forall_forall. intros z Hz.
  assert (Hrow : forall y, In y (nth i dist_mat []) -> exists u v, y = euclidean u v).
  { apply (nth_Forall (fun row => forall y, In y row -> exists u v, y = euclidean u v));
      [exact E | intros ? []]. }
  destruct (Hrow z Hz) as (u & v & ->). apply euclidean_nonneg.
Qed.

(** Matched against itself, a slice is at distance zero from itself on the
    diagonal. *)
Lemma trace_identity_zero (fit_result : ModelResult) (dist_mat : list (list Q)) :
  build_dist_mat euclidean weights prefixes fit_result (prefixes, fit_result)
  = Ok dist_mat ->
  (trace dist_mat (range (length prefixes)) == 0)%Q.
Proof.
  intros E. unfold trace. apply Qsum_zero. apply Forall_forall.
  intros y Hy. apply in_map_iff in Hy as ([i j] & <- & Hin). cbn [fst snd].
  unfold enumerate, range in Hin. rewrite length_seq in Hin.
  apply combine_seq_diag in Hin as (<- & Hi).
  destruct (build_dist_mat_entry euclidean weights prefixes fit_result
              (prefixes, fit_result) dist_mat i i E)
    as (prefix_i & prefix_j & u & v & Ei & Ej & Eu & Ev & ->); [lia | lia |].
  cbn [fst snd] in *. rewrite Ei in Ej. inversion Ej; subst.
  rewrite Eu in Ev. inversion Ev; subst. apply euclidean_self.
Qed.

(** No arrangement does strictly better than the identity, which comes
    first: the identity is kept. *)
Lemma best_arrangement_identity (dist_mat : list (list Q)) (k : nat) :
  (trace dist_mat (range k) == 0)%Q ->
  (forall p, (0 <= trace dist_mat p)%Q) ->
  best_arrangement dist_mat k = range k.
Proof.
  intros Hzero Hnonneg.
  destruct (best_arrangement_first dist_mat k) as (l1 & l2 & E & Hlt & _).
  destruct (permutations_head (range k)) as (tl & Ehead).
  rewrite Ehead in E. destruct l1 as [|q l1]; simpl in E; inversion E; subst.
  - congruence.
  - specialize (Hlt (range k) (or_introl eq_refl)).
    specialize (Hnonneg (best_arrangement dist_mat k)). lra.
Qed.

Lemma reordered_identity (closest_prefixes : list string) :
  reordered closest_prefixes (range (length closest_prefixes)) = closest_prefixes.
Proof. apply map_nth_seq_self. Qed.
End FirstSlice.

Lemma tuple_eqb_sym (a b : list Q) : tuple_eqb a b = tuple_eqb b a.
Proof.
  revert b. induction a as [|x xs IH]; destruct b as [|y ys]; simpl; auto.
  now rewrite Qeq_bool_comm, IH.
Qed.

Lemma tuple_eqb_trans (a b c : list Q) :
  tuple_eqb a b = true -> tuple_eqb b c = true -> tuple_eqb a c = true.
Proof.
  revert b c. induction a as [|x xs IH]; destruct b as [|y ys]; destruct c as [|z zs];
    simpl; auto; try discriminate.
  rewrite !andb_true_iff. intros (H1 & H2) (H3 & H4). split.
  - eapply Qeq_bool_trans; eauto.
  - eapply IH; eauto.
Qed.

(** An assignment at another coordinate leaves the entry of [q] alone. *)
Lemma get_set_other_coord {V : Type} (d : PyDict.t (list Q) V) (k q : list Q) (v : V) :
  tuple_eqb q k = false ->
  PyDict.get (PyDict.set d k v) q = PyDict.get d q.
Proof.
  intros Hqk. induction d as [|[k1 v1] d IH]; simpl; unfold keqb, tuple_KeyEq.
  - now rewrite tuple_eqb_sym, Hqk.
  - destruct (tuple_eqb k1 k) eqn:E1; simpl; unfold keqb, tuple_KeyEq.
    + destruct (tuple_eqb k1 q) eqn:E2; [|reflexivity].
      rewrite tuple_eqb_sym in E2.
      rewrite (tuple_eqb_trans q k1 k E2 E1) in Hqk. discriminate.
    + destruct (tuple_eqb k1 q); [reflexivity | exact IH].
Qed.

Section FirstSliceRun.
Import BandAnalysis Lmfit.
Variable euclidean : list Q -> list Q -> Q.
Variable weights : Q * Q * Q.
Variable dims prefixes : list string.

(** What a turn of the loop writes when the pool already holds a
    reference. *)
Lemma identify_cell_writes (st st' : IdentState) (cell : Coordinate * ModelResult) :
  identified_by_coordinate st <> [] ->
  identify_cell euclidean weights dims prefixes st cell = Ok st' ->
  exists fc ordered,
    freeze dims (fst cell) = Ok fc
    /\ identified_by_coordinate st'
       = PyDict.set (identified_by_coordinate st) fc (ordered, snd cell)
    /\ identified_band_results st'
       = PyDict.set (identified_band_results st) fc ordered
    /\ first_coordinate st' = first_coordinate st.
Proof.
  intros Hne E. destruct cell as [coordinate fit_result]. unfold identify_cell in E.
  apply bind_Ok in E as (fc & Efc & E).
  destruct (find_closest_first _ fc Hne) as (item & Efind & _).
  rewrite Efind in E. unfold resolve_against in E.
  destruct (snd item) as [cps cfit].
  apply bind_Ok in E as (dist_mat & _ & E).
  apply bind_Ok in E as (ordered & _ & E).
  inversion E; subst. exists fc, ordered. cbn. auto.
Qed.

(** The first slice stays at the head of the pool, and keeps its recorded
    assignment as long as no later slice lies at its coordinate. *)
Lemma identify_run_first_kept (cells : list (Coordinate * ModelResult))
      (st st' : IdentState) (fc0 : FrozenCoord) (v0 : Identified)
      (tl0 : PyDict.t FrozenCoord Identified) (ps0 : list string) :
  identified_by_coordinate st = (fc0, v0) :: tl0 ->
  PyDict.get (identified_band_results st) fc0 = Some ps0 ->
  foldM (identify_cell euclidean weights dims prefixes) cells st = Ok st' ->
  (exists v tl, identified_by_coordinate st' = (fc0, v) :: tl)
  /\ (forallb (fun cell => negb (freezes_to dims fc0 cell)) cells = true ->
      PyDict.get (identified_band_results st') fc0 = Some ps0).
Proof.
  revert st v0 tl0 ps0. induction cells as [|cell cells IH];
    intros st v0 tl0 ps0 Hpool Hget E; simpl in E.
  - inversion E; subst. split; eauto.
  - apply bind_Ok in E as (st1 & E1 & E).
    assert (Hne : identified_by_coordinate st <> []) by (rewrite Hpool; discriminate).
    destruct (identify_cell_writes st st1 cell Hne E1)
      as (fc & ordered & Efc & Epool & Erec & _).
    destruct (set_head tl0 fc0 v0 fc (ordered, snd cell)) as (v1 & Ehead).
    rewrite <- Hpool, <- Epool in Ehead.
    destruct (tuple_eqb fc0 fc) eqn:Ecoord.
    + destruct (get_set_kept (identified_band_results st) fc fc0 ordered ps0 Hget)
        as (ps1 & Hget1).
      rewrite <- Erec in Hget1.
      destruct (IH st1 _ _ _ Ehead Hget1 E) as (Hhead & _).
      split; [exact Hhead|]. cbn [forallb]. unfold freezes_to at 1.
      rewrite Efc, Ecoord. discriminate.
    + assert (Hget1 : PyDict.get (identified_band_results st1) fc0 = Some ps0).
      { rewrite Erec, get_set_other_coord; auto. }
      destruct (IH st1 _ _ _ Ehead Hget1 E) as (Hhead & Hkept).
      split; [exact Hhead|]. cbn [forallb]. intros Hall.
      apply andb_true_iff in Hall as (_ & Hall). now apply Hkept.
Qed.
End FirstSliceRun.

Lemma axis_distance_self (u : list Q) : (Samples.axis_distance u u == 0)%Q.
Proof.
  unfold Samples.axis_distance. apply Qsum_zero.
  induction u as [|x xs IH]; cbn [map combine]; constructor; [|exact IH].
  cbn [fst snd]. setoid_replace (x - x)%Q with 0%Q by ring. reflexivity.
Qed.

Lemma axis_distance_nonneg (u v : list Q) : (0 <= Samples.axis_distance u v)%Q.
Proof.
  unfold Samples.axis_distance. apply Qsum_nonneg. apply Forall_forall.
  intros y Hy. apply in_map_iff in Hy as (xy & <- & _). apply Qabs_nonneg.
Qed.

(** C5. On a one-dimensional array of fits, the first slice met is given
    the identity arrangement: run on it alone, the loop records the prefixes of its components in the order of
    the fit and makes it the one reference of the pool. In a longer sweep it
    stays the head of the pool and the value of [first_coordinate], and its
    recorded assignment stands as long as no later slice lies at its
    coordinate. *)
Theorem first_slice_identity
        (euclidean : list Q -> list Q -> Q) (weights : Q * Q * Q)
        (d : string)
        (first : BandAnalysis.Coordinate * Lmfit.ModelResult)
        (rest : list (BandAnalysis.Coordinate * Lmfit.ModelResult)) :
  (forall u, (euclidean u u == 0)%Q) ->
  (forall u v, (0 <= euclidean u v)%Q) ->
  forallb (cell_ok weights [d] (BandAnalysis.component_prefixes (snd first)))
          (first :: rest) = true ->
  exists fc st,
    BandAnalysis.freeze [d] (fst first) = Ok fc
    /\ BandAnalysis.unpack_bands_from_fit euclidean weights
         (line_of_fits d [first])
       = Ok (BandAnalysis.mkIdentState
               [(fc, (BandAnalysis.component_prefixes (snd first), snd first))]
               (Some (fst first))
               [(fc, BandAnalysis.component_prefixes (snd first))])
    /\ BandAnalysis.unpack_bands_from_fit euclidean weights
         (line_of_fits d (first :: rest)) = Ok st
    /\ BandAnalysis.first_coordinate st = Some (fst first)
    /\ (exists v tl, BandAnalysis.identified_by_coordinate st = (fc, v) :: tl)
    /\ (forallb (fun cell => negb (freezes_to [d] fc cell)) rest = true ->
        PyDict.get (BandAnalysis.identified_band_results st) fc
        = Some (BandAnalysis.component_prefixes (snd first))).
Proof.
  intros Hself Hnonneg Hok.
  destruct (unpack_run euclidean weights d first rest Hok)
    as (st & Est & _ & _ & Hfirst & _).
  cbn [forallb] in Hok. apply andb_true_iff in Hok as (Hcell & _).
  destruct (identify_cell_first euclidean weights [d] _ initial_state first
              eq_refl Hcell eq_refl)
    as (fc & dist_mat & Efc & Emat & _ & Estep).
  rewrite (best_arrangement_identity dist_mat _
             (trace_identity_zero euclidean Hself weights _ _ dist_mat Emat)
             (fun p => trace_nonneg euclidean Hnonneg weights _ _ _ dist_mat p Emat)),
    reordered_identity in Estep.
  cbn in Estep.
  exists fc, st. split; [exact Efc|]. split.
  { rewrite unpack_loop. cbn [foldM]. rewrite Estep. reflexivity. }
  split; [exact Est|]. split; [exact Hfirst|].
  rewrite unpack_loop in Est. cbn [foldM] in Est.
  rewrite Estep in Est. cbn [bind] in Est.
  match type of Est with
  | foldM _ _ ?s = _ =>
      apply (identify_run_first_kept euclidean weights [d]
               (BandAnalysis.component_prefixes (snd first)) rest s st fc
               (BandAnalysis.component_prefixes (snd first), snd first) []
               (BandAnalysis.component_prefixes (snd first)) eq_refl);
        [|exact Est]
  end.
  cbn. unfold keqb, tuple_KeyEq. now rewrite tuple_eqb_refl.
Qed.

Lemma first_slice_identity_witness :
  exists fc st,
    BandAnalysis.freeze ["kp"%string] (Samples.at_kp 1) = Ok fc
    /\ BandAnalysis.unpack_bands_from_fit Samples.axis_distance Samples.default_weights
         (line_of_fits "kp" [(Samples.at_kp 1, Samples.fit_at 0 5)])
       = Ok (BandAnalysis.mkIdentState
               [(fc, (BandAnalysis.component_prefixes (Samples.fit_at 0 5),
                      Samples.fit_at 0 5))]
               (Some (Samples.at_kp 1))
               [(fc, BandAnalysis.component_prefixes (Samples.fit_at 0 5))])
    /\ BandAnalysis.unpack_bands_from_fit Samples.axis_distance Samples.default_weights
         (line_of_fits "kp" Samples.sweep) = Ok st
    /\ BandAnalysis.first_coordinate st = Some (Samples.at_kp 1)
    /\ (exists v tl, BandAnalysis.identified_by_coordinate st = (fc, v) :: tl)
    /\ (forallb (fun cell => negb (freezes_to ["kp"%string] fc cell))
                [(Samples.at_kp 2, Samples.fit_at 5 0);
                 (Samples.at_kp 3, Samples.fit_at 0 5)] = true ->
        PyDict.get (BandAnalysis.identified_band_results st) fc
        = Some (BandAnalysis.component_prefixes (Samples.fit_at 0 5))).
Proof.
  apply (first_slice_identity Samples.axis_distance Samples.default_weights
           "kp" (Samples.at_kp 1, Samples.fit_at 0 5)
           [(Samples.at_kp 2, Samples.fit_at 5 0); (Samples.at_kp 3, Samples.fit_at 0 5)]
           axis_distance_self axis_distance_nonneg).
  vm_compute. reflexivity.
Defined.

(** ** [fit_bands]: the prior handed to each fit *)

Section Prior.
Import BandAnalysis Lmfit.

Lemma squared_distance_finite (c fc : FrozenCoord) (d : xfloat) :
  d = PosInf -> lt_x (squared_distance c fc) d = true.
Proof. now intros ->. Qed.

(** The running minimum [dist] stays infinite through the whole search. *)
Lemma prior_step_dist (direction : string) (fc : FrozenCoord)
      (items : list (FrozenCoord * Params)) (p : Params) :
  snd (fold_left (prior_step direction fc) items (p, PosInf)) = PosInf.
Proof.
  revert p. induction items as [|[c v] items IH]; intros p; simpl; [reflexivity|].
  destruct (String.eqb direction "mdc"); apply IH.
Qed.

(** With [direction = "mdc"], the prior is the entry of the cache inserted
    last, whatever its distance. *)
Lemma closest_model_params_mdc (initial_fits : Params)
      (cache : list (FrozenCoord * Params)) (c : FrozenCoord) (v : Params)
      (fc : FrozenCoord) :
  closest_model_params "mdc" initial_fits (cache ++ [(c, v)]) fc = v.
Proof.
  unfold closest_model_params, PyDict.items. rewrite fold_left_app. simpl.
  rewrite prior_step_dist. reflexivity.
Qed.

(** With any other direction, the prior is the initial fits. *)
Lemma closest_model_params_not_mdc (direction : string) (initial_fits : Params)
      (cache : PyDict.t FrozenCoord Params) (fc : FrozenCoord) :
  String.eqb direction "mdc" = false ->
  closest_model_params direction initial_fits cache fc = initial_fits.
Proof.
  intros E. unfold closest_model_params, PyDict.items.
  induction cache as [|[c v] cache IH]; [reflexivity|].
  cbn [fold_left]. unfold prior_step at 2.
  rewrite E, andb_false_r. exact IH.
Qed.

(** The prior of the specification is the first entry of least squared
    distance. *)
Lemma nearest_neighbor_prior_first (initial_fits : Params)
      (cache : PyDict.t FrozenCoord Params) (fc : FrozenCoord) :
  cache <> [] ->
  exists item,
    nearest_neighbor_prior initial_fits cache fc = snd item
    /\ first_minimizer (fun item => squared_distance (fst item) fc)
                       (PyDict.items cache) item.
Proof.
  intros Hne. unfold nearest_neighbor_prior.
  destruct (min_step_first (fun item => squared_distance (fst item) fc) snd
              (PyDict.items cache) initial_fits Hne) as (a & -> & Hmin).
  now exists a.
Qed.
End Prior.

Example sample_sweep_fitted_centers :
  map (SampleSweep.fitted_center_at
         (BandAnalysis.fit_bands_sweep SampleSweep.total_intensity_fit SampleSweep.spectrum
            "mdc" "kp" SampleSweep.one_peak SampleSweep.initial_fits))
      [[0; 0]; [0; 5]; [0; 10]; [1; 0]]%Q
  = [Some 1; Some 11; Some 21; Some 201]%Q.
Proof. vm_compute. reflexivity. Qed.

(** C1, on the code. On a spectrum with two free axes, [eV = 0, 1] and
    [delay = 0, 5, 10], fitted along [kp] with [direction = "mdc"], the fit at
    [(eV, delay) = (1, 0)] is handed the parameters fitted at [(0, 10)], the
    entry inserted last in the cache (center [21], at squared distance [101]),
    where nearest-neighbour selection over that cache (the state of the sweep
    after the row [eV = 0]) hands over those fitted at [(0, 0)] (center [1],
    at squared distance [1]). *)
Theorem fit_bands_prior_is_last_fit :
  SampleSweep.initial_center_at
    (BandAnalysis.fit_bands_sweep SampleSweep.total_intensity_fit SampleSweep.spectrum
       "mdc" "kp" SampleSweep.one_peak SampleSweep.initial_fits)
    [1; 0]%Q
  = Some 21%Q
  /\ (exists st,
        BandAnalysis.fit_bands_sweep SampleSweep.total_intensity_fit
          (SampleSweep.spectrum_over [0%Q])
          "mdc" "kp" SampleSweep.one_peak SampleSweep.initial_fits
        = Ok st
        /\ PyDict.keys (snd st) = [[0; 0]; [0; 5]; [0; 10]]%Q
        /\ option_map Lmfit.value
             (PyDict.get (BandAnalysis.closest_model_params "mdc"
                            SampleSweep.initial_fits (snd st) [1; 0]%Q)
                         "a_center"%string)
           = Some 21%Q
        /\ option_map Lmfit.value
             (PyDict.get (nearest_neighbor_prior
                            SampleSweep.initial_fits (snd st) [1; 0]%Q)
                         "a_center"%string)
           = Some 1%Q).
Proof.
  split; [vm_compute; reflexivity|].
  eexists. split; [vm_compute; reflexivity|].
  split; [reflexivity|]. split; vm_compute; reflexivity.
Qed.

(** ** Dictionaries keyed by strings *)

Section StringDict.
Context {V : Type}.

Lemma set_In_string (d : PyDict.t string V) (k : string) (v : V) (x : string * V) :
  In x (PyDict.set d k v) -> In x d \/ x = (k, v).
Proof.
  induction d as [|[k' v'] d IH]; simpl.
  - intros [<- | []]. now right.
  - unfold keqb, string_KeyEq. destruct (String.eqb_spec k' k) as [-> | Hne].
    + intros [<- | Hx]; [now right | left; now right].
    + intros [<- | Hx]; [left; now left|].
      destruct (IH Hx); [left; now right | now right].
Qed.

Lemma set_keys_string (d : PyDict.t string V) (k : string) (v : V) :
  PyDict.keys (PyDict.set d k v)
  = if existsb (String.eqb k) (PyDict.keys d) then PyDict.keys d
    else PyDict.keys d ++ [k].
Proof.
  unfold PyDict.keys. induction d as [|[k' v'] d IH]; [reflexivity|].
  cbn [PyDict.set map fst existsb]. unfold keqb at 1. unfold string_KeyEq at 1.
  rewrite (String.eqb_sym k k').
  destruct (String.eqb k' k); cbn [map fst orb]; [reflexivity|].
  rewrite IH. now destruct (existsb (String.eqb k) (map fst d)).
Qed.

Lemma set_keys_NoDup (d : PyDict.t string V) (k : string) (v : V) :
  NoDup (PyDict.keys d) -> NoDup (PyDict.keys (PyDict.set d k v)).
Proof.
  intros Hd. rewrite set_keys_string.
  destruct (existsb (String.eqb k) (PyDict.keys d)) eqn:E; [exact Hd|].
  apply NoDup_app; [exact Hd | repeat constructor; intros [] |].
  intros x Hx [Heq | []]. subst x.
  assert (existsb (String.eqb k) (PyDict.keys d) = true); [|congruence].
  apply existsb_exists. exists k. split; [exact Hx | apply String.eqb_refl].
Qed.

Lemma update_facts (d other : PyDict.t string V) :
  NoDup (PyDict.keys d) ->
  NoDup (PyDict.keys (PyDict.update d other))
  /\ (forall x, In x (PyDict.update d other) -> In x d \/ In x other).
Proof.
  unfold PyDict.update. revert d. induction other as [|[k v] other IH]; intros d Hd.
  - simpl. auto.
  - cbn [fold_left fst snd].
    destruct (IH (PyDict.set d k v) (set_keys_NoDup d k v Hd)) as (Hnodup & Hin).
    split; [exact Hnodup|]. intros x Hx.
    destruct (Hin x Hx) as [H0 | H0].
    + apply set_In_string in H0 as [H0 | ->]; [now left | right; now left].
    + right. now right.
Qed.

(** [dict(zip(ks, vs))] has distinct keys and only pairs of the zip. *)
Lemma of_zip_facts (ks : list string) (vs : list V) :
  NoDup (PyDict.keys (PyDict.of_zip ks vs))
  /\ (forall x, In x (PyDict.of_zip ks vs) -> In x (combine ks vs)).
Proof.
  destruct (update_facts PyDict.empty (combine ks vs)) as (Hnodup & Hin);
    [constructor|].
  split; [exact Hnodup|]. intros x Hx. destruct (Hin x Hx) as [[] | H0]. exact H0.
Qed.
End StringDict.

(** ** xarray: selection by labels *)

Section Selection.
Import Xarray.

Lemma index_of_remove_nth (ds : list string) (d0 d : string) (i j : nat) :
  index_of d0 ds = Some i -> d <> d0 -> index_of d ds = Some j ->
  exists j', index_of d (remove_nth i ds) = Some j'.
Proof.
  revert i j. induction ds as [|d' ds IH]; intros i j; simpl; [discriminate|].
  destruct (String.eqb_spec d' d0) as [-> | Hne0].
  - intros E Hne. inversion E; subst. simpl.
    destruct (String.eqb_spec d0 d) as [-> | _]; [congruence|].
    destruct (index_of d ds) as [j'|]; [eauto | discriminate].
  - destruct (index_of d0 ds) as [i'|] eqn:E0; [|discriminate].
    intros E Hne. inversion E; subst. simpl.
    destruct (String.eqb_spec d' d) as [-> | _]; [eauto|].
    destruct (index_of d ds) as [j0|] eqn:Ej; [|discriminate]. intros _.
    destruct (IH i' j0 eq_refl Hne eq_refl) as (j' & ->). eauto.
Qed.

Lemma get_filter_other {V : Type} (c : PyDict.t string V) (d0 d : string) :
  d <> d0 ->
  PyDict.get (filter (fun kv => negb (String.eqb (fst kv) d0)) c) d = PyDict.get c d.
Proof.
  intros Hne. induction c as [|[k v] c IH]; [reflexivity|].
  cbn [filter fst PyDict.get].
  destruct (String.eqb_spec k d0) as [-> | Hk]; cbn [negb PyDict.get].
  - rewrite IH. unfold keqb, string_KeyEq.
    destruct (String.eqb_spec d0 d) as [-> | _]; [congruence | reflexivity].
  - now rewrite IH.
Qed.

Lemma sel_one_ok (arr : DataArray) (d : string) (v : Q) (rest : list (string * Q)) :
  selectable arr ((d, v) :: rest) ->
  ~ In d (map fst rest) ->
  exists arr', sel_one arr (d, v) = Ok arr' /\ selectable arr' rest.
Proof.
  intros Hsel Hfresh.
  destruct (Hsel d v (or_introl eq_refl)) as ((i & Ei) & labels & Elabels & Hv).
  unfold sel_one, PyDict.getitem. rewrite Ei, Elabels. cbn [of_option bind].
  assert (Hex : existsb (Qeq_bool v) labels = true).
  { apply existsb_exists. exists v. split; [exact Hv | apply Qeq_bool_refl]. }
  rewrite Hex. eexists. split; [reflexivity|].
  intros d' v' Hin. cbn [dims coords].
  assert (Hne : d' <> d).
  { intros ->. apply Hfresh. apply in_map_iff. now exists (d, v'). }
  destruct (Hsel d' v' (or_intror Hin)) as ((j & Ej) & labels' & E' & Hv').
  split.
  - exact (index_of_remove_nth _ _ _ _ _ Ei Hne Ej).
  - exists labels'. now rewrite get_filter_other.
Qed.

(** A selector with distinct keys, all selectable, is selected without
    error. *)
Lemma sel_ok (arr : DataArray) (selector : PyDict.t string Q) :
  NoDup (PyDict.keys selector) -> selectable arr selector ->
  exists arr', sel arr selector = Ok arr'.
Proof.
  unfold sel, PyDict.items, PyDict.keys. revert arr.
  induction selector as [|[d v] rest IH]; intros arr Hnodup Hsel; cbn [foldM].
  - eauto.
  - cbn [map fst] in Hnodup. inversion Hnodup as [|? ? Hfresh Hnodup']; subst.
    destruct (sel_one_ok arr d v rest Hsel Hfresh) as (arr' & -> & Hsel').
    cbn [bind]. now apply IH.
Qed.
End Selection.

(** ** [_iterate_marginals] *)

Section Marginals.
Import Xarray BandAnalysis.

Lemma product_members {A : Type} (pools : list (list A)) (ss : list A) :
  In ss (Itertools.product pools) -> Forall2 (fun s pool => In s pool) ss pools.
Proof.
  revert ss. induction pools as [|pool rest IH]; intros ss; simpl.
  - intros [<- | []]. constructor.
  - intros Hin. apply in_flat_map in Hin as (x & Hx & Hin).
    apply in_map_iff in Hin as (ss' & <- & Hss'). constructor; auto.
Qed.

Lemma selector_selectable (arr : DataArray) (directions : list string)
      (pools : list (list Q)) (ss : list Q) :
  axes_ok arr directions = true ->
  mapM (PyDict.getitem (coords arr)) directions = Ok pools ->
  Forall2 (fun s pool => In s pool) ss pools ->
  selectable arr (combine directions ss).
Proof.
  intros Haxes Epools Hss. apply mapM_Ok_Forall2 in Epools.
  revert ss Hss Haxes. induction Epools as [|d pool ds ps Hd _ IH]; intros ss Hss Haxes.
  - intros d v [].
  - inversion Hss as [|s ? ss' ? Hs Hss']; subst. cbn [axes_ok forallb] in Haxes.
    apply andb_true_iff in Haxes as (Hax & Haxes).
    intros d' v' [E | Hin].
    + inversion E; subst.
      destruct (index_of d' (dims arr)) as [i|]; [|discriminate].
      split; [eauto|]. exists pool. split; [|exact Hs].
      unfold PyDict.getitem in Hd. destruct (PyDict.get (coords arr) d'); now inversion Hd.
    + exact (IH ss' Hss' Haxes d' v' Hin).
Qed.

Lemma mapM_pair_snd {A B C : Type} (f : A -> res B) (g : A -> C) (l : list A)
      (r : list (B * C)) :
  mapM (fun x => bind (f x) (fun y => Ok (y, g x))) l = Ok r -> map snd r = map g l.
Proof.
  revert r. induction l as [|x xs IH]; simpl; intros r E.
  - now inversion E.
  - apply bind_Ok in E as (yz & Eyz & E). apply bind_Ok in E as (ys & Eys & E).
    apply bind_Ok in Eyz as (y & _ & Eyz). inversion Eyz; inversion E; subst.
    simpl. f_equal. now apply IH.
Qed.

Lemma axes_ok_pools (arr : DataArray) (directions : list string) :
  axes_ok arr directions = true ->
  exists pools, mapM (PyDict.getitem (coords arr)) directions = Ok pools.
Proof.
  intros Haxes. apply mapM_is_ok. intros d Hd.
  unfold axes_ok in Haxes. rewrite forallb_forall in Haxes. specialize (Haxes d Hd).
  unfold PyDict.getitem. destruct (index_of d (dims arr)); [|discriminate].
  destruct (PyDict.get (coords arr) d); [simpl; eauto | discriminate].
Qed.
End Marginals.

(** C8. Over directions that are axes of the spectrum, [_iterate_marginals]
    runs to its end and yields exactly as many (slice, coordinate) pairs as
    the product of the lengths of the coordinate vectors of the directions;
    the coordinates yielded are those of [itertools.product] over these
    vectors, in that order, a function of the spectrum and the directions
    alone, so that a second iteration yields them again; without any
    direction it yields one element, the whole spectrum at the empty
    coordinate. *)
Theorem iterate_marginals_count (arr : Xarray.DataArray) (directions : list string) :
  axes_ok arr directions = true ->
  exists pools marginals,
    mapM (PyDict.getitem (Xarray.coords arr)) directions = Ok pools
    /\ BandAnalysis._iterate_marginals arr (Some directions) = Ok marginals
    /\ length marginals = fold_right Nat.mul 1 (map (@length Q) pools)
    /\ map snd marginals = map (PyDict.of_zip directions) (Itertools.product pools)
    /\ BandAnalysis._iterate_marginals arr (Some []) = Ok [(arr, PyDict.empty)].
Proof.
  intros Haxes. destruct (axes_ok_pools arr directions Haxes) as (pools & Epools).
  assert (Hrun : exists marginals,
             BandAnalysis._iterate_marginals arr (Some directions) = Ok marginals).
  { unfold BandAnalysis._iterate_marginals. cbn [bind]. rewrite Epools. cbn [bind].
    apply mapM_is_ok. intros ss Hss.
    destruct (of_zip_facts directions ss) as (Hnodup & Hin).
    destruct (sel_ok arr (PyDict.of_zip directions ss) Hnodup) as (m & ->);
      [|simpl; eauto].
    intros d v Hdv. apply Hin in Hdv.
    exact (selector_selectable arr directions pools ss Haxes Epools
             (product_members pools ss Hss) d v Hdv). }
  destruct Hrun as (marginals & Erun). exists pools, marginals.
  split; [exact Epools|]. split; [exact Erun|].
  unfold BandAnalysis._iterate_marginals in Erun. cbn [bind] in Erun.
  rewrite Epools in Erun. cbn [bind] in Erun. split; [|split].
  - rewrite (mapM_Ok_length _ _ _ Erun). apply product_length.
  - exact (mapM_pair_snd _ _ _ _ Erun).
  - reflexivity.
Qed.

Lemma iterate_marginals_count_witness :
  exists pools marginals,
    mapM (PyDict.getitem (Xarray.coords SampleSweep.spectrum)) ["eV"; "delay"]%string
    = Ok pools
    /\ BandAnalysis._iterate_marginals SampleSweep.spectrum (Some ["eV"; "delay"]%string)
       = Ok marginals
    /\ length marginals = fold_right Nat.mul 1 (map (@length Q) pools)
    /\ map snd marginals
       = map (PyDict.of_zip ["eV"; "delay"]%string) (Itertools.product pools)
    /\ BandAnalysis._iterate_marginals SampleSweep.spectrum (Some [])
       = Ok [(SampleSweep.spectrum, PyDict.empty)].
Proof.
  apply (iterate_marginals_count SampleSweep.spectrum ["eV"; "delay"]%string).
  reflexivity.
Defined.

Example sample_marginals :
  option_map (map (fun mc => (Xarray.values (fst mc), snd mc)))
    (match BandAnalysis._iterate_marginals SampleSweep.spectrum
             (Some ["eV"; "delay"]%string) with
     | Ok l => Some l
     | Raise _ => None
     end)
  = Some [([0; 1], [("eV", 0); ("delay", 0)]);
          ([5; 6], [("eV", 0); ("delay", 5)]);
          ([10; 11], [("eV", 0); ("delay", 10)]);
          ([100; 101], [("eV", 1); ("delay", 0)]);
          ([105; 106], [("eV", 1); ("delay", 5)]);
          ([110; 111], [("eV", 1); ("delay", 10)])]%string%Q.
Proof. vm_compute. reflexivity. Qed.

(** ** Lookups in dictionaries keyed by strings *)

Section StringLookup.
Context {V : Type}.

Lemma get_set_string (d : PyDict.t string V) (k k' : string) (v : V) :
  PyDict.get (PyDict.set d k v) k'
  = if String.eqb k k' then Some v else PyDict.get d k'.
Proof.
  induction d as [|[k0 v0] d IH]; cbn [PyDict.set PyDict.get];
    unfold keqb, string_KeyEq.
  - reflexivity.
  - destruct (String.eqb_spec k0 k) as [-> | Hne]; cbn [PyDict.get];
      unfold keqb, string_KeyEq.
    + now destruct (String.eqb k k').
    + destruct (String.eqb_spec k0 k') as [-> | Hne'].
      * destruct (String.eqb_spec k k'); [congruence | reflexivity].
      * exact IH.
Qed.

Lemma get_None_keys (d : PyDict.t string V) (k : string) :
  ~ In k (PyDict.keys d) -> PyDict.get d k = None.
Proof.
  unfold PyDict.keys. induction d as [|[k0 v0] d IH]; simpl; [reflexivity|].
  intros Hk. unfold keqb, string_KeyEq.
  destruct (String.eqb_spec k0 k) as [-> | _]; [tauto | apply IH; tauto].
Qed.

Lemma get_Some_keys (d : PyDict.t string V) (k : string) :
  In k (PyDict.keys d) -> PyDict.get d k <> None.
Proof.
  unfold PyDict.keys. induction d as [|[k0 v0] d IH]; simpl; [tauto|].
  unfold keqb, string_KeyEq.
  destruct (String.eqb_spec k0 k) as [-> | Hne]; [discriminate|].
  intros [E | Hin]; [congruence | now apply IH].
Qed.

(** [d.update(other)]: the entries of [other] override those of [d]. *)
Lemma get_update (d other : PyDict.t string V) (k : string) :
  NoDup (PyDict.keys other) ->
  PyDict.get (PyDict.update d other) k
  = match PyDict.get other k with
    | Some v => Some v
    | None => PyDict.get d k
    end.
Proof.
  unfold PyDict.update. revert d.
  induction other as [|[k1 v1] other IH]; intros d Hnodup; [reflexivity|].
  cbn [fold_left fst snd PyDict.get]. unfold PyDict.keys in Hnodup.
  cbn [map fst] in Hnodup. inversion Hnodup as [|? ? Hfresh Hnodup']; subst.
  rewrite (IH _ Hnodup'), get_set_string.
  destruct (String.eqb_spec k1 k) as [-> | Hne].
  - rewrite (get_None_keys other k Hfresh).
    unfold keqb, string_KeyEq. now rewrite String.eqb_refl.
  - unfold keqb, string_KeyEq. now destruct (String.eqb_spec k1 k).
Qed.

Lemma get_update_present (d other : PyDict.t string V) (k : string) :
  PyDict.get d k <> None \/ In k (PyDict.keys other) ->
  PyDict.get (PyDict.update d other) k <> None.
Proof.
  unfold PyDict.update, PyDict.keys. revert d.
  induction other as [|[k1 v1] other IH]; intros d; cbn [fold_left map fst snd].
  - intros [H | []]. exact H.
  - intros H. apply IH. rewrite get_set_string.
    destruct (String.eqb_spec k1 k) as [-> | Hne]; [left; discriminate|].
    destruct H as [H | [E | H]]; [now left | congruence | now right].
Qed.

Lemma get_filter_key (d : PyDict.t string V) (f : string -> bool) (k : string) :
  f k = true ->
  PyDict.get (filter (fun kv => f (fst kv)) d) k = PyDict.get d k.
Proof.
  intros Hk. induction d as [|[k0 v0] d IH]; [reflexivity|].
  cbn [filter fst PyDict.get].
  destruct (String.eqb_spec k0 k) as [-> | Hne].
  - rewrite Hk. cbn [PyDict.get]. unfold keqb, string_KeyEq.
    now rewrite String.eqb_refl.
  - destruct (f k0); cbn [PyDict.get]; rewrite IH; unfold keqb, string_KeyEq;
      destruct (String.eqb_spec k0 k); congruence.
Qed.
End StringLookup.

(** ** Composite models *)

Section Composite.
Import Lmfit XModelMixin.

Lemma mapM_ext_in {A B : Type} (f g : A -> res B) (l : list A) :
  (forall x, In x l -> f x = g x) -> mapM f l = mapM g l.
Proof.
  induction l as [|x xs IH]; simpl; intros E; [reflexivity|].
  rewrite (E x (or_introl eq_refl)), IH; auto.
Qed.

Lemma namespace_composite (l r : Model) (op : Q -> Q -> Q) :
  namespace (CompositeModel l r op) = namespace l ++ namespace r.
Proof. unfold namespace. cbn [components]. apply flat_map_app. Qed.

(** The evaluation of a model reads the parameters of its own namespace
    only. *)
Lemma eval_ext (m : Model) (p1 p2 : Params) (x : Q) :
  (forall k, In k (namespace m) -> PyDict.get p1 k = PyDict.get p2 k) ->
  eval m p1 x = eval m p2 x.
Proof.
  induction m as [b | l IHl r IHr op]; intros E.
  - cbn [eval]. unfold eval_basic. f_equal. apply mapM_ext_in. intros name Hname.
    unfold PyDict.getitem. rewrite E; [reflexivity|].
    unfold namespace. cbn [components flat_map]. now rewrite app_nil_r.
  - rewrite namespace_composite in E. cbn [eval].
    rewrite IHl, IHr; [reflexivity | |]; intros k Hk; apply E, in_or_app; auto.
Qed.

Lemma own_params_get (m : Model) (params : Params) (k : string) :
  In k (namespace m) -> PyDict.get (own_params m params) k = PyDict.get params k.
Proof.
  intros Hk. unfold own_params.
  apply (get_filter_key params (fun key => existsb (String.eqb key) (namespace m))).
  apply existsb_exists. exists k. split; [exact Hk | apply String.eqb_refl].
Qed.

Lemma eval_own_params (m : Model) (params : Params) (x : Q) :
  eval m (own_params m params) x = eval m params x.
Proof. apply eval_ext. intros k Hk. now apply own_params_get. Qed.

(** The guesses of the components, merged one after the other. *)
Lemma guessed_merge (comps : list BasicModel) (data xs : list Q)
      (guesses : list Params) (acc : Params) :
  mapM (fun c => guess_fn c data xs) comps = Ok guesses ->
  foldM (fun (guessed : Params) c =>
           bind (guess_fn c data xs) (fun g => Ok (PyDict.update guessed g)))
        comps acc
  = Ok (fold_left PyDict.update guesses acc).
Proof.
  revert guesses acc. induction comps as [|c comps IH]; intros guesses acc E; simpl in E.
  - inversion E. reflexivity.
  - apply bind_Ok in E as (g & Eg & E). apply bind_Ok in E as (gs & Egs & E).
    inversion E; subst. cbn [foldM fold_left]. rewrite Eg. cbn [bind]. now apply IH.
Qed.

Lemma merge_keys_NoDup (guesses : list Params) (acc : Params) :
  NoDup (PyDict.keys acc) -> NoDup (PyDict.keys (fold_left PyDict.update guesses acc)).
Proof.
  revert acc. induction guesses as [|g gs IH]; intros acc Hacc; [exact Hacc|].
  cbn [fold_left]. apply IH. now apply update_facts.
Qed.

Lemma merge_get (guesses : list Params) (acc : Params) (k : string) :
  Forall (fun g => NoDup (PyDict.keys g)) guesses ->
  PyDict.get (fold_left PyDict.update guesses acc) k
  = fold_left (fun a g => match PyDict.get g k with
                          | Some v => Some v
                          | None => a
                          end)
              guesses (PyDict.get acc k).
Proof.
  intros Hg. revert acc. induction Hg as [|g gs Hnodup _ IH]; intros acc; [reflexivity|].
  cbn [fold_left]. now rewrite IH, get_update.
Qed.

Lemma make_params_present (comps : list BasicModel) (acc : Params) (k : string) :
  PyDict.get acc k <> None \/ In k (flat_map param_names comps) ->
  PyDict.get (fold_left (fun acc b => PyDict.update acc (make_params_basic b)) comps acc) k
  <> None.
Proof.
  revert acc. induction comps as [|b comps IH]; intros acc; cbn [fold_left flat_map].
  - intros [H | []]. exact H.
  - intros H. apply IH.
    destruct H as [H | H]; [left; apply get_update_present; now left|].
    apply in_app_or in H as [H | H]; [left | now right].
    apply get_update_present. right.
    unfold PyDict.keys, make_params_basic. rewrite map_map. exact H.
Qed.
End Composite.

(** C9. For two models [A] and [B] composed with [+], any [x] and any
    parameter set, the composite evaluates to the sum of the evaluations of
    [A] and of [B], each on its own prefix-qualified subset of the
    parameters; and when every component has a guess, the guess of the
    composite is the parameter set of the union namespace in which each
    parameter guessed by a component has been replaced by that guess. *)
Theorem composite_sum_and_guess
        (A B : Lmfit.Model) (params : Lmfit.Params) (x : Q) (data xs : list Q)
        (guesses : list Lmfit.Params) :
  mapM (fun c => Lmfit.guess_fn c data xs) (Lmfit.components (XModelMixin.add A B))
  = Ok guesses ->
  Forall (fun g => NoDup (PyDict.keys g)) guesses ->
  Lmfit.eval (XModelMixin.add A B) params x
  = bind (Lmfit.eval A (own_params A params) x)
         (fun ya => bind (Lmfit.eval B (own_params B params) x)
                         (fun yb => Ok (ya + yb)%Q))
  /\ namespace (XModelMixin.add A B) = namespace A ++ namespace B
  /\ exists pars,
       XModelMixin.guess (XModelMixin.add A B) data xs = Ok pars
       /\ (forall k,
             PyDict.get pars k
             = match last_guess guesses k with
               | Some v => Some v
               | None => PyDict.get (Lmfit.make_params (XModelMixin.add A B)) k
               end)
       /\ (forall k, In k (namespace (XModelMixin.add A B)) ->
                     PyDict.get pars k <> None).
Proof.
  intros Eguess Hnodup. split; [|split].
  - unfold XModelMixin.add. cbn [Lmfit.eval].
    now rewrite !eval_own_params.
  - apply namespace_composite.
  - unfold XModelMixin.guess.
    rewrite (guessed_merge _ data xs guesses PyDict.empty Eguess). cbn [bind].
    exists (PyDict.update (Lmfit.make_params (XModelMixin.add A B))
              (fold_left PyDict.update guesses PyDict.empty)).
    split; [reflexivity|].
    assert (Hmerged : NoDup (PyDict.keys (fold_left PyDict.update guesses
                                            (PyDict.empty (V := Lmfit.Param)))))
      by (apply merge_keys_NoDup; constructor).
    split.
    + intros k. rewrite (get_update _ _ k Hmerged), (merge_get _ _ k Hnodup).
      reflexivity.
    + intros k Hk. apply get_update_present. left.
      unfold Lmfit.make_params. apply make_params_present. now right.
Qed.

Ltac distinct_keys :=
  repeat (constructor; [simpl; intuition discriminate|]); constructor.

Lemma composite_sum_and_guess_witness :
  Lmfit.eval (XModelMixin.add (Lmfit.Basic (Samples.guessing_peak "a_"))
                              (Lmfit.Basic (Samples.guessing_peak "b_")))
             (Lmfit.params (Samples.fit_at 0 5)) 1%Q
  = bind (Lmfit.eval (Lmfit.Basic (Samples.guessing_peak "a_"))
            (own_params (Lmfit.Basic (Samples.guessing_peak "a_"))
                        (Lmfit.params (Samples.fit_at 0 5))) 1%Q)
         (fun ya =>
            bind (Lmfit.eval (Lmfit.Basic (Samples.guessing_peak "b_"))
                    (own_params (Lmfit.Basic (Samples.guessing_peak "b_"))
                                (Lmfit.params (Samples.fit_at 0 5))) 1%Q)
                 (fun yb => Ok (ya + yb)%Q))
  /\ namespace (XModelMixin.add (Lmfit.Basic (Samples.guessing_peak "a_"))
                                (Lmfit.Basic (Samples.guessing_peak "b_")))
     = namespace (Lmfit.Basic (Samples.guessing_peak "a_"))
       ++ namespace (Lmfit.Basic (Samples.guessing_peak "b_"))
  /\ exists pars,
       XModelMixin.guess (XModelMixin.add (Lmfit.Basic (Samples.guessing_peak "a_"))
                                          (Lmfit.Basic (Samples.guessing_peak "b_")))
                         [3; 4]%Q [7; 8]%Q = Ok pars
       /\ (forall k,
             PyDict.get pars k
             = match last_guess
                       [[("a_center"%string, Samples.fitted 7);
                         ("a_amplitude"%string, Samples.fitted 3)];
                        [("b_center"%string, Samples.fitted 7);
                         ("b_amplitude"%string, Samples.fitted 3)]] k with
               | Some v => Some v
               | None =>
                   PyDict.get
                     (Lmfit.make_params
                        (XModelMixin.add (Lmfit.Basic (Samples.guessing_peak "a_"))
                                         (Lmfit.Basic (Samples.guessing_peak "b_")))) k
               end)
       /\ (forall k,
             In k (namespace
                     (XModelMixin.add (Lmfit.Basic (Samples.guessing_peak "a_"))
                                      (Lmfit.Basic (Samples.guessing_peak "b_")))) ->
             PyDict.get pars k <> None).
Proof.
  apply (composite_sum_and_guess
           (Lmfit.Basic (Samples.guessing_peak "a_"))
           (Lmfit.Basic (Samples.guessing_peak "b_"))
           (Lmfit.params (Samples.fit_at 0 5)) 1%Q [3; 4]%Q [7; 8]%Q).
  - reflexivity.
  - constructor; [distinct_keys|]. constructor; [distinct_keys|]. constructor.
Defined.

Example sample_composite_value :
  Lmfit.eval Samples.two_peaks (Lmfit.params (Samples.fit_at 0 5)) 1%Q
  = Ok (1 * 1 / ((1 - 0) * (1 - 0) + 1 * 1) + 1 * 1 / ((1 - 5) * (1 - 5) + 1 * 1))%Q.
Proof. reflexivity. Qed.

Example sample_composite_guess :
  XModelMixin.guess (XModelMixin.add (Lmfit.Basic (Samples.guessing_peak "a_"))
                                     (Lmfit.Basic (Samples.guessing_peak "b_")))
                    [3; 4]%Q [7; 8]%Q
  = Ok [("a_amplitude"%string, Samples.fitted 3); ("a_center"%string, Samples.fitted 7);
        ("a_sigma"%string, Samples.fitted 1);
        ("b_amplitude"%string, Samples.fitted 3); ("b_center"%string, Samples.fitted 7);
        ("b_sigma"%string, Samples.fitted 1)].
Proof. reflexivity. Qed.

(** ** Patterned mode: the expected centers *)

Section Fragments.
Import BandAnalysis.

Lemma interpolation_forward (coord low high other_low other_high : Q) :
  (low < high)%Q ->
  ((coord - low) / (high - low) * (other_high - other_low) + other_low
   == linear_interpolation coord low other_low high other_high)%Q.
Proof. intros H. unfold linear_interpolation. field. lra. Qed.

Lemma interpolation_backward (coord low high other_low other_high : Q) :
  (high < low)%Q ->
  ((coord - high) / (low - high) * (other_low - other_high) + other_high
   == linear_interpolation coord low other_low high other_high)%Q.
Proof. intros H. unfold linear_interpolation. field. split; lra. Qed.

Lemma point_get_patterning (coord_index : nat) (point : Q * Q) :
  coord_index < 2 ->
  point_get point (Z.of_nat coord_index) = Ok (patterning_coordinate coord_index point)
  /\ point_get point (1 - Z.of_nat coord_index)%Z = Ok (fit_coordinate coord_index point).
Proof.
  intros H. destruct coord_index as [|[|n]]; [split; reflexivity.. | lia].
Qed.

(** What one pair of consecutive control points yields. *)
Lemma interpolate_fragment_spec (coord : Q) (coord_index : nat) (pair : (Q * Q) * (Q * Q)) :
  coord_index < 2 ->
  degenerate coord_index coord pair = false ->
  exists fragment,
    interpolate_fragment coord coord_index pair = Ok fragment
    /\ Forall2 (fun yielded center => fst yielded = coord /\ (snd yielded == center)%Q)
               fragment
               (map (fun pair =>
                       linear_interpolation coord
                         (patterning_coordinate coord_index (fst pair))
                         (fit_coordinate coord_index (fst pair))
                         (patterning_coordinate coord_index (snd pair))
                         (fit_coordinate coord_index (snd pair)))
                    (filter (brackets coord_index coord) [pair])).
Proof.
  intros Hindex Hdeg. destruct pair as [point_low point_high].
  unfold interpolate_fragment, degenerate, brackets in *. cbn [fst snd filter] in *.
  destruct (point_get_patterning coord_index point_low Hindex) as (-> & ->).
  destruct (point_get_patterning coord_index point_high Hindex) as (-> & ->).
  cbn [bind].
  set (low := patterning_coordinate coord_index point_low) in *.
  set (high := patterning_coordinate coord_index point_high) in *.
  destruct (_is_between coord low high); cbn [map].
  - cbn [andb] in Hdeg. rewrite Hdeg.
    destruct (Qltb low high) eqn:Elt.
    + apply Qltb_lt in Elt. eexists. split; [reflexivity|].
      constructor; [|constructor]. split; [reflexivity|]. cbn [snd].
      now apply interpolation_forward.
    + apply Qltb_ge in Elt. apply Qeq_bool_neq in Hdeg.
      eexists. split; [reflexivity|].
      constructor; [|constructor]. split; [reflexivity|]. cbn [snd].
      apply interpolation_backward.
      apply Qle_lteq in Elt as [Elt | Eeq]; [exact Elt|]. exfalso. apply Hdeg.
      now symmetry.
  - eexists. split; [reflexivity | constructor].
Qed.

Lemma fragments_spec (coord : Q) (coord_index : nat)
      (pairs : list ((Q * Q) * (Q * Q))) :
  coord_index < 2 ->
  forallb (fun pair => negb (degenerate coord_index coord pair)) pairs = true ->
  exists fragments,
    mapM (interpolate_fragment coord coord_index) pairs = Ok fragments
    /\ Forall2 (fun yielded center => fst yielded = coord /\ (snd yielded == center)%Q)
               (concat fragments)
               (map (fun pair =>
                       linear_interpolation coord
                         (patterning_coordinate coord_index (fst pair))
                         (fit_coordinate coord_index (fst pair))
                         (patterning_coordinate coord_index (snd pair))
                         (fit_coordinate coord_index (snd pair)))
                    (filter (brackets coord_index coord) pairs)).
Proof.
  intros Hindex. induction pairs as [|pair pairs IH]; intros Hdeg.
  - exists []. split; [reflexivity | constructor].
  - cbn [forallb] in Hdeg. apply andb_true_iff in Hdeg as (Hpair & Hdeg).
    apply negb_true_iff in Hpair.
    destruct (interpolate_fragment_spec coord coord_index pair Hindex Hpair)
      as (fragment & Efragment & Hfragment).
    destruct (IH Hdeg) as (fragments & Efragments & Hfragments).
    exists (fragment :: fragments). split.
    + cbn [mapM]. rewrite Efragment. cbn [bind]. rewrite Efragments. reflexivity.
    + cbn [concat]. cbn [filter] in *.
      destruct (brackets coord_index coord pair); cbn [map] in *.
      * inversion Hfragment as [|? ? ? ? Hhead Htail]; subst.
        inversion Htail; subst. cbn [app]. now constructor.
      * inversion Hfragment; subst. exact Hfragments.
Qed.
End Fragments.

(** A band without a location at a slice yields no partial band there. *)
Lemma resolve_without_location (arr : Xarray.DataArray) (stray : option Q)
      (coord_dict : BandAnalysis.Coordinate) (marginal : Xarray.DataArray)
      (description : BandAnalysis.BandDescription) (heap : Store.Heap) :
  BandAnalysis.partial_band_locations arr coord_dict description = Ok [] ->
  BandAnalysis.resolve_partial_bands_from_description arr stray coord_dict marginal
    description heap
  = Ok ([], match BandAnalysis.bd_params description with
            | Some _ => heap
            | None => heap ++ [[]]
            end).
Proof.
  intros E. unfold BandAnalysis.resolve_partial_bands_from_description, Store.bindM.
  destruct (BandAnalysis.bd_params description); cbn [Store.ret Store.alloc];
    unfold Store.lift; rewrite E; reflexivity.
Qed.

(** C6. For a band and a slice of patterning coordinate [coord], the expected
    centers are the linear interpolations between the pairs of consecutive
    control points that bracket [coord], one per bracketing pair (control
    points [(0, 1), (1, 2)] at [1/2] give the one center [3/2]); when no pair
    brackets [coord] there is no center (the same control points at [2] give
    none), the band resolves to no partial band and is dropped from the
    slice. *)
Theorem patterned_centers_interpolate
        (coord : Q) (coord_index : nat) (points : list (Q * Q)) :
  coord_index < 2 ->
  points <> [] ->
  forallb (fun pair => negb (degenerate coord_index coord pair))
          (Itertools.pairwise points) = true ->
  exists locations,
    BandAnalysis._interpolate_intersecting_fragments coord coord_index points
    = Ok locations
    /\ Forall2 (fun yielded center => fst yielded = coord /\ (snd yielded == center)%Q)
               locations (expected_centers coord_index coord points)
    /\ (filter (brackets coord_index coord) (Itertools.pairwise points) = [] ->
        locations = []
        /\ forall arr stray coord_dict marginal description heap,
             BandAnalysis.partial_band_locations arr coord_dict description
             = Ok locations ->
             exists heap',
               BandAnalysis.resolve_partial_bands_from_description
                 arr stray coord_dict marginal description heap = Ok ([], heap')
               /\ forall others : list (list BandAnalysis.PartialBand),
                    filter (fun p => negb (Nat.eqb (length p) 0))
                           (@nil BandAnalysis.PartialBand :: others)
                    = filter (fun p => negb (Nat.eqb (length p) 0)) others)
    /\ (exists center,
          BandAnalysis._interpolate_intersecting_fragments (1 # 2) 0 [(0, 1); (1, 2)]%Q
          = Ok [((1 # 2)%Q, center)]
          /\ (center == 3 # 2)%Q)
    /\ BandAnalysis._interpolate_intersecting_fragments 2 0 [(0, 1); (1, 2)]%Q = Ok [].
Proof.
  intros Hindex Hpoints Hdeg.
  destruct (fragments_spec coord coord_index (Itertools.pairwise points) Hindex Hdeg)
    as (fragments & Efragments & Hfragments).
  exists (concat fragments). split; [|split; [exact Hfragments|split; [|split]]].
  - unfold BandAnalysis._interpolate_intersecting_fragments.
    destruct points as [|p ps]; [congruence|]. cbn [hd_error of_option bind].
    now rewrite Efragments.
  - intros Hnone. unfold expected_centers in Hfragments.
    rewrite Hnone in Hfragments. inversion Hfragments as [E|]; subst.
    split; [reflexivity|].
    intros arr stray coord_dict marginal description heap Elocations.
    rewrite (resolve_without_location arr stray coord_dict marginal description heap
               Elocations).
    eexists. split; reflexivity.
  - eexists. split; [reflexivity | reflexivity].
  - reflexivity.
Qed.

Lemma patterned_centers_interpolate_witness :
  exists locations,
    BandAnalysis._interpolate_intersecting_fragments (1 # 2) 0 [(0, 1); (1, 2); (3, 0)]%Q
    = Ok locations
    /\ Forall2 (fun yielded center =>
                  fst yielded = (1 # 2)%Q /\ (snd yielded == center)%Q)
               locations (expected_centers 0 (1 # 2) [(0, 1); (1, 2); (3, 0)]%Q)
    /\ (filter (brackets 0 (1 # 2)) (Itertools.pairwise [(0, 1); (1, 2); (3, 0)]%Q) = [] ->
        locations = []
        /\ forall arr stray coord_dict marginal description heap,
             BandAnalysis.partial_band_locations arr coord_dict description
             = Ok locations ->
             exists heap',
               BandAnalysis.resolve_partial_bands_from_description
                 arr stray coord_dict marginal description heap = Ok ([], heap')
               /\ forall others : list (list BandAnalysis.PartialBand),
                    filter (fun p => negb (Nat.eqb (length p) 0))
                           (@nil BandAnalysis.PartialBand :: others)
                    = filter (fun p => negb (Nat.eqb (length p) 0)) others)
    /\ (exists center,
          BandAnalysis._interpolate_intersecting_fragments (1 # 2) 0 [(0, 1); (1, 2)]%Q
          = Ok [((1 # 2)%Q, center)]
          /\ (center == 3 # 2)%Q)
    /\ BandAnalysis._interpolate_intersecting_fragments 2 0 [(0, 1); (1, 2)]%Q = Ok [].
Proof.
  apply (patterned_centers_interpolate (1 # 2) 0 [(0, 1); (1, 2); (3, 0)]%Q).
  - lia.
  - discriminate.
  - reflexivity.
Defined.

Example sample_fragments_descending :
  BandAnalysis._interpolate_intersecting_fragments 2 0 [(3, 0); (1, 2)]%Q
  = Ok [(2, (2 - 1) / (3 - 1) * (0 - 2) + 2)]%Q.
Proof. reflexivity. Qed.

Example sample_fragments_shared_point :
  option_map (@length (Q * Q))
    (match BandAnalysis._interpolate_intersecting_fragments 1 0 [(0, 1); (1, 2); (3, 0)]%Q with
     | Ok l => Some l
     | Raise _ => None
     end)
  = Some 2.
Proof. reflexivity. Qed.

Example sample_fragments_degenerate :
  BandAnalysis._interpolate_intersecting_fragments 1 0 [(1, 1); (1, 2)]%Q
  = Raise ZeroDivisionError.
Proof. reflexivity. Qed.

(** ** Patterned mode: the sample sweep *)

Example sample_pattern_cells :
  match SamplePattern.sweep with
  | Ok (out, _) =>
      Some (map (fun cell => (fst cell, match snd cell with
                                        | Some _ => true
                                        | None => false
                                        end))
                (BandAnalysis.out_results out),
            BandAnalysis.out_residual out)
  | Raise _ => None
  end
  = Some ([([0], true); ([1 # 2], true); ([1], true); ([2], false)],
          Some [([0], [0; 1; 4; 9]);
                ([1 # 2], [1 # 4; 1 # 4; 9 # 4; 25 # 4]);
                ([1], [1; 0; 1; 4]);
                ([2], [0; 0; 0; 0])])%Q.
Proof. vm_compute. reflexivity. Qed.

(** After the sweep the dictionary of the caller holds the hints of the last
    slice at which the band was found, [eV = 1], of center [2]. *)
Example sample_pattern_store :
  match SamplePattern.sweep with
  | Ok (_, heap) =>
      option_map (fun d => (hint_at d "center" "value", hint_at d "center" "min",
                            hint_at d "center" "max", hint_at d "sigma" "value"))
                 (nth_error heap 0)
  | Raise _ => None
  end
  = Some (Some 2, Some (2 - 1), Some (2 + 1), Some 1)%Q.
Proof. vm_compute. reflexivity. Qed.

(** ** The store *)

Section StoreFacts.
Import Store.

Lemma replace_nth_length {A : Type} (n : nat) (x : A) (l : list A) :
  length (replace_nth n x l) = length l.
Proof.
  revert n. induction l as [|y ys IH]; intros [|n]; simpl; auto.
Qed.

Lemma replace_nth_same {A : Type} (n : nat) (x : A) (l : list A) :
  n < length l -> nth_error (replace_nth n x l) n = Some x.
Proof.
  revert n. induction l as [|y ys IH]; intros [|n]; simpl; intros H; try lia; auto.
  apply IH. lia.
Qed.

Lemma replace_nth_other {A : Type} (n m : nat) (x : A) (l : list A) :
  m <> n -> nth_error (replace_nth n x l) m = nth_error l m.
Proof.
  revert n m. induction l as [|y ys IH]; intros [|n] [|m]; simpl; intros H;
    try congruence; auto.
Qed.

Lemma bindM_Ok {A B : Type} (m : M A) (k : A -> M B) (h h' : Heap) (b : B) :
  bindM m k h = Ok (b, h') -> exists a h1, m h = Ok (a, h1) /\ k a h1 = Ok (b, h').
Proof.
  unfold bindM. destruct (m h) as [[a h1]|e]; [eauto | discriminate].
Qed.

Lemma lift_Ok {A : Type} (r : res A) (h h' : Heap) (a : A) :
  lift r h = Ok (a, h') -> r = Ok a /\ h' = h.
Proof.
  unfold lift. destruct r; intros E; inversion E; auto.
Qed.

Lemma read_Ok (r : ref) (h h' : Heap) (d : ParamsDict) :
  read r h = Ok (d, h') -> nth_error h r = Some d /\ h' = h.
Proof.
  unfold read. destruct (nth_error h r); intros E; inversion E; auto.
Qed.
End StoreFacts.

(** ** [_build_params] *)

Section BuildParams.
Import Store BandAnalysis.

(** [_build_params] returns the reference it was given and leaves every
    other dictionary, and the number of dictionaries, as they were. *)
Lemma build_params_frame (params : ref) (center : Q) (center_stray : option Q)
      (marginal : option Xarray.DataArray) (heap heap' : Heap) (returned : ref) :
  _build_params params center center_stray marginal heap = Ok (returned, heap') ->
  returned = params
  /\ exists d d',
       nth_error heap params = Some d
       /\ build_params_dict d center center_stray marginal = Ok d'
       /\ heap' = replace_nth params d' heap.
Proof.
  unfold _build_params. intros E.
  apply bindM_Ok in E as (d & h1 & Eread & E). apply read_Ok in Eread as (Ed & ->).
  apply bindM_Ok in E as (d' & h2 & Elift & E). apply lift_Ok in Elift as (Ed' & ->).
  apply bindM_Ok in E as ([] & h3 & Ewrite & E).
  unfold write in Ewrite. rewrite Ed in Ewrite. inversion Ewrite; subst.
  inversion E; subst. split; [reflexivity|]. exists d, d'. auto.
Qed.

Lemma build_params_run (params : ref) (center : Q) (center_stray : option Q)
      (marginal : option Xarray.DataArray) (heap : Heap) (d d' : ParamsDict) :
  nth_error heap params = Some d ->
  build_params_dict d center center_stray marginal = Ok d' ->
  _build_params params center center_stray marginal heap
  = Ok (params, replace_nth params d' heap).
Proof.
  intros Ed Ed'. unfold _build_params, bindM, read, lift, write, ret.
  now rewrite Ed, Ed', Ed.
Qed.

(** Reading a hint back through the assignments of [_build_params]. *)
Lemma hint_at_set (params : ParamsDict) (key key' field : string)
      (hints : PyDict.t string Q) :
  hint_at (PyDict.set params key (VDict hints)) key' field
  = if String.eqb key key' then PyDict.get hints field else hint_at params key' field.
Proof.
  unfold hint_at. rewrite get_set_string. now destruct (String.eqb key key').
Qed.

Lemma hint_at_set_same (params : ParamsDict) (key : string) (v : pyval) (key' field : string) :
  String.eqb key key' = false ->
  hint_at (PyDict.set params key v) key' field = hint_at params key' field.
Proof.
  intros E. unfold hint_at. now rewrite get_set_string, E.
Qed.
End BuildParams.

Section BuildParamsContent.
Import Store BandAnalysis.

Lemma getitem_set_same (params : ParamsDict) (key : string) (v : pyval) :
  PyDict.getitem (PyDict.set params key v) key = Ok v.
Proof.
  unfold PyDict.getitem. now rewrite get_set_string, String.eqb_refl.
Qed.

(** The content of the dictionary after [_build_params] with a stray. *)
Lemma build_params_dict_stray (d d' : ParamsDict) (center s : Q)
      (marginal : option Xarray.DataArray) :
  build_params_dict d center (Some s) marginal = Ok d' ->
  hint_at d' "center" "value" = Some center
  /\ hint_at d' "center" "min" = Some (center - s)%Q
  /\ hint_at d' "center" "max" = Some (center + s)%Q
  /\ hint_at d' "sigma" "value" = Some s
  /\ match marginal with
     | None => True
     | Some m =>
         exists spread,
           amplitude_estimate m center s = Ok spread
           /\ hint_at d' "amplitude" "value" = Some spread
     end.
Proof.
  unfold build_params_dict.
  change (PyDict.update d [("center"%string, VDict [("value"%string, center)])])
    with (PyDict.set d "center"%string (VDict [("value"%string, center)])).
  rewrite getitem_set_same. cbn [bind as_hints].
  rewrite getitem_set_same. intros E.
  apply bind_Ok in E as (sigma & Esigma & E).
  destruct marginal as [m|].
  - apply bind_Ok in E as (spread & Espread & E). rewrite getitem_set_same in E.
    apply bind_Ok in E as (amplitude & Eamplitude & E). inversion E; subst; clear E.
    unfold hint_at. rewrite !get_set_string.
    cbn [String.eqb Ascii.eqb Bool.eqb]. rewrite !get_set_string.
    cbn [String.eqb Ascii.eqb Bool.eqb PyDict.get]. unfold keqb, string_KeyEq.
    cbn [String.eqb Ascii.eqb Bool.eqb].
    repeat split; try reflexivity. exists spread. split; [exact Espread | reflexivity].
  - inversion E; subst; clear E.
    unfold hint_at. rewrite !get_set_string.
    cbn [String.eqb Ascii.eqb Bool.eqb]. rewrite !get_set_string.
    cbn [String.eqb Ascii.eqb Bool.eqb PyDict.get]. unfold keqb, string_KeyEq.
    cbn [String.eqb Ascii.eqb Bool.eqb].
    repeat split; reflexivity.
Qed.
End BuildParamsContent.

Section SharedParams.
Import Store BandAnalysis.

Lemma amplitude_estimate_inv (m : Xarray.DataArray) (center s spread : Q) :
  amplitude_estimate m center s = Ok spread ->
  exists d0 near low high,
    hd_error (Xarray.dims m) = Some d0
    /\ Xarray.sel_slice m d0 (center - (12 # 10) * s)%Q (center + (12 # 10) * s)%Q
       = Ok near
    /\ Numpy.percentile (Xarray.values near) 20 = Ok low
    /\ Numpy.percentile (Xarray.values near) 80 = Ok high
    /\ spread = (high - low)%Q.
Proof.
  unfold amplitude_estimate. intros E.
  apply bind_Ok in E as (d0 & Ed0 & E). apply bind_Ok in E as (near & Enear & E).
  apply bind_Ok in E as (low & Elow & E). apply bind_Ok in E as (high & Ehigh & E).
  inversion E; subst. exists d0, near, low, high.
  destruct (hd_error (Xarray.dims m)); inversion Ed0; subst. auto.
Qed.

(** Every partial band made for a description that brings its own [params]
    refers to that very dictionary, and no dictionary is made. *)
Lemma resolve_shares_params (arr : Xarray.DataArray) (stray : option Q)
      (coord_dict : Coordinate) (marginal : Xarray.DataArray)
      (description : BandDescription) (r : ref) (heap heap' : Heap)
      (partial_bands : list PartialBand) :
  bd_params description = Some r ->
  resolve_partial_bands_from_description arr stray coord_dict marginal description heap
  = Ok (partial_bands, heap') ->
  Forall (fun pb => pb_params pb = r) partial_bands /\ length heap' = length heap.
Proof.
  unfold resolve_partial_bands_from_description. intros -> E.
  apply bindM_Ok in E as (r' & h1 & Eret & E). inversion Eret; subst r' h1.
  clear Eret.
  apply bindM_Ok in E as (locations & h1 & Elift & E).
  apply lift_Ok in Elift as (_ & ->).
  revert heap heap' partial_bands E.
  induction (enumerate locations) as [|i_location rest IH];
    intros heap heap' partial_bands E; cbn [mapMM] in E.
  - inversion E; subst. split; [constructor | reflexivity].
  - apply bindM_Ok in E as (pb & h1 & Epb & E).
    apply bindM_Ok in E as (pbs & h2 & Epbs & E). inversion E; subst; clear E.
    apply bindM_Ok in Epb as (d & h3 & Eread & Epb). apply read_Ok in Eread as (_ & ->).
    apply bindM_Ok in Epb as (cs & h3 & Ecs & Epb). apply lift_Ok in Ecs as (_ & ->).
    apply bindM_Ok in Epb as (built & h3 & Ebuilt & Epb). inversion Epb; subst; clear Epb.
    apply build_params_frame in Ebuilt as (-> & d0 & d1 & _ & _ & ->).
    destruct (IH _ _ _ Epbs) as (Hall & Hlen). split.
    + constructor; [reflexivity | exact Hall].
    + now rewrite Hlen, replace_nth_length.
Qed.
End SharedParams.

(** C10. [_build_params] updates the dictionary object it is given, where it
    lives, and returns the reference to that same object, not a copy: no
    dictionary is made and no other one changes. The object then holds the
    center, with the bounds [center - stray] and [center + stray] and a sigma
    equal to the stray when a stray is given, and, when a marginal is given
    too, an amplitude equal to the 80th minus the 20th percentile of the
    intensities within [1.2 stray] of the center. Hence every partial band
    resolved for a band description that brings its own [params] refers to
    the dictionary of the band set itself, at every slice of the sweep. *)
Theorem build_params_mutates_in_place
        (heap : Store.Heap) (params : Store.ref) (d d' : Store.ParamsDict)
        (center : Q) (center_stray : option Q) (marginal : option Xarray.DataArray) :
  nth_error heap params = Some d ->
  BandAnalysis.build_params_dict d center center_stray marginal = Ok d' ->
  BandAnalysis._build_params params center center_stray marginal heap
  = Ok (params, Store.replace_nth params d' heap)
  /\ nth_error (Store.replace_nth params d' heap) params = Some d'
  /\ length (Store.replace_nth params d' heap) = length heap
  /\ (forall r, r <> params ->
        nth_error (Store.replace_nth params d' heap) r = nth_error heap r)
  /\ hint_at d' "center" "value" = Some center
  /\ (forall s, center_stray = Some s ->
        hint_at d' "center" "min" = Some (center - s)%Q
        /\ hint_at d' "center" "max" = Some (center + s)%Q
        /\ hint_at d' "sigma" "value" = Some s
        /\ forall m, marginal = Some m ->
             exists d0 near low high,
               hd_error (Xarray.dims m) = Some d0
               /\ Xarray.sel_slice m d0 (center - (12 # 10) * s)%Q
                                        (center + (12 # 10) * s)%Q = Ok near
               /\ Numpy.percentile (Xarray.values near) 20 = Ok low
               /\ Numpy.percentile (Xarray.values near) 80 = Ok high
               /\ hint_at d' "amplitude" "value" = Some (high - low)%Q)
  /\ (forall arr stray coord_dict slice description partial_bands heap1,
        BandAnalysis.bd_params description = Some params ->
        BandAnalysis.resolve_partial_bands_from_description
          arr stray coord_dict slice description heap = Ok (partial_bands, heap1) ->
        Forall (fun pb => BandAnalysis.pb_params pb = params) partial_bands
        /\ length heap1 = length heap).
Proof.
  intros Ed Ed'.
  assert (Hlt : params < length heap)
    by (apply nth_error_Some; congruence).
  split; [now apply (build_params_run params center center_stray marginal heap d d')|].
  split; [now apply replace_nth_same|].
  split; [apply replace_nth_length|].
  split; [intros r Hr; now apply replace_nth_other|].
  split; [|split].
  - destruct center_stray as [s|].
    + now apply (build_params_dict_stray d d' center s marginal).
    + unfold BandAnalysis.build_params_dict in Ed'. inversion Ed'; subst.
      change (PyDict.update d [("center"%string,
                                Store.VDict [("value"%string, center)])])
        with (PyDict.set d "center"%string (Store.VDict [("value"%string, center)])).
      rewrite hint_at_set, String.eqb_refl. reflexivity.
  - intros s ->.
    destruct (build_params_dict_stray d d' center s marginal Ed')
      as (_ & Hmin & Hmax & Hsigma & Hamplitude).
    repeat (split; [assumption|]). intros m ->.
    destruct Hamplitude as (spread & Espread & Hspread).
    destruct (amplitude_estimate_inv m center s spread Espread)
      as (d0 & near & low & high & E0 & Enear & Elow & Ehigh & ->).
    exists d0, near, low, high. auto.
  - intros arr stray coord_dict slice description partial_bands heap1 Hparams E.
    exact (resolve_shares_params arr stray coord_dict slice description params
             heap heap1 partial_bands Hparams E).
Qed.

Lemma build_params_mutates_in_place_witness :
  BandAnalysis._build_params 0 (3 # 2) (Some 1%Q) (Some SamplePattern.marginal_at_half)
    SamplePattern.caller_store
  = Ok (0, Store.replace_nth 0 SamplePattern.hints_at_half SamplePattern.caller_store)
  /\ nth_error (Store.replace_nth 0 SamplePattern.hints_at_half SamplePattern.caller_store) 0
     = Some SamplePattern.hints_at_half
  /\ length (Store.replace_nth 0 SamplePattern.hints_at_half SamplePattern.caller_store)
     = length SamplePattern.caller_store
  /\ (forall r, r <> 0 ->
        nth_error (Store.replace_nth 0 SamplePattern.hints_at_half
                     SamplePattern.caller_store) r
        = nth_error SamplePattern.caller_store r)
  /\ hint_at SamplePattern.hints_at_half "center" "value" = Some (3 # 2)%Q
  /\ (forall s, Some 1%Q = Some s ->
        hint_at SamplePattern.hints_at_half "center" "min" = Some ((3 # 2) - s)%Q
        /\ hint_at SamplePattern.hints_at_half "center" "max" = Some ((3 # 2) + s)%Q
        /\ hint_at SamplePattern.hints_at_half "sigma" "value" = Some s
        /\ forall m, Some SamplePattern.marginal_at_half = Some m ->
             exists d0 near low high,
               hd_error (Xarray.dims m) = Some d0
               /\ Xarray.sel_slice m d0 ((3 # 2) - (12 # 10) * s)%Q
                                        ((3 # 2) + (12 # 10) * s)%Q = Ok near
               /\ Numpy.percentile (Xarray.values near) 20 = Ok low
               /\ Numpy.percentile (Xarray.values near) 80 = Ok high
               /\ hint_at SamplePattern.hints_at_half "amplitude" "value"
                  = Some (high - low)%Q)
  /\ (forall arr stray coord_dict slice description partial_bands heap1,
        BandAnalysis.bd_params description = Some 0 ->
        BandAnalysis.resolve_partial_bands_from_description
          arr stray coord_dict slice description SamplePattern.caller_store
        = Ok (partial_bands, heap1) ->
        Forall (fun pb => BandAnalysis.pb_params pb = 0) partial_bands
        /\ length heap1 = length SamplePattern.caller_store).
Proof.
  apply (build_params_mutates_in_place SamplePattern.caller_store 0 []
           SamplePattern.hints_at_half (3 # 2) (Some 1%Q)
           (Some SamplePattern.marginal_at_half)).
  - reflexivity.
  - vm_compute. reflexivity.
Defined.

Example sample_hints_at_half :
  (hint_at SamplePattern.hints_at_half "center" "value",
   hint_at SamplePattern.hints_at_half "sigma" "value",
   option_map Qred (hint_at SamplePattern.hints_at_half "amplitude" "value"))
  = (Some (3 # 2), Some 1, Some (6 # 5))%Q.
Proof. vm_compute. reflexivity. Qed.

Example sample_percentile :
  (Numpy.percentile [4; 0; 3; 1; 2]%Q 20, Numpy.percentile [4; 0; 3; 1; 2]%Q 80)
  = (Ok (0 + ((4 # 1) * 20 / 100 - 0) * (1 - 0)), Ok (3 + ((4 # 1) * 80 / 100 - 3) * (4 - 3)))%Q.
Proof. reflexivity. Qed.

(** ** Grids *)

Section GridFacts.
Context {K V : Type} `{KeyEq K}.

Lemma set_keys_present (d : PyDict.t K V) (k : K) (v x : V) :
  PyDict.get d k = Some x -> PyDict.keys (PyDict.set d k v) = PyDict.keys d.
Proof.
  unfold PyDict.keys. induction d as [|[k0 v0] d IH]; simpl; [discriminate|].
  destruct (keqb k0 k); simpl; [reflexivity|]. intros E. now rewrite IH.
Qed.

Lemma get_key_present (d : PyDict.t K V) (k : K) :
  (forall k', keqb k' k' = true) -> In k (PyDict.keys d) -> PyDict.get d k <> None.
Proof.
  intros Hrefl. unfold PyDict.keys. induction d as [|[k0 v0] d IH]; simpl; [tauto|].
  intros [-> | Hin].
  - rewrite Hrefl. discriminate.
  - destruct (keqb k0 k); [discriminate | auto].
Qed.

Lemma get_map_values {W : Type} (g : V -> W) (d : PyDict.t K V) (k : K) :
  PyDict.get (map (fun cell => (fst cell, g (snd cell))) d) k
  = option_map g (PyDict.get d k).
Proof.
  induction d as [|[k0 v0] d IH]; simpl; [reflexivity|].
  destruct (keqb k0 k); [reflexivity | exact IH].
Qed.

Lemma set_app_skip (l1 l2 : PyDict.t K V) (k0 k : K) (v0 v : V) :
  (forall kv, In kv l1 -> keqb (fst kv) k = false) ->
  keqb k0 k = true ->
  PyDict.set (l1 ++ (k0, v0) :: l2) k v = l1 ++ (k0, v) :: l2.
Proof.
  intros Hskip Hk. induction l1 as [|[k1 v1] l1 IH]; simpl.
  - now rewrite Hk.
  - pose proof (Hskip (k1, v1) (or_introl eq_refl)) as E1. cbn [fst] in E1.
    rewrite E1. f_equal. apply IH. intros kv Hkv. apply Hskip. now right.
Qed.
End GridFacts.

Section LocSet.
Import BandAnalysis.

Lemma loc_set_Ok {A : Type} (grid grid' : PyDict.t FrozenCoord A) (fc : FrozenCoord) (v : A) :
  loc_set grid fc v = Ok grid' ->
  grid' = PyDict.set grid fc v /\ PyDict.keys grid' = PyDict.keys grid.
Proof.
  unfold loc_set. destruct (PyDict.get grid fc) as [x|] eqn:E; intros E'; inversion E'.
  split; [reflexivity|]. now apply (set_keys_present grid fc v x).
Qed.

Lemma distinct_coords_app (l1 l2 : list FrozenCoord) (k : FrozenCoord) :
  distinct_coords (l1 ++ k :: l2) = true ->
  forall k', In k' l1 -> tuple_eqb k' k = false.
Proof.
  induction l1 as [|k1 l1 IH]; simpl; [tauto|].
  intros Hd k' [<- | Hin].
  - apply andb_true_iff in Hd as (Hall & _). rewrite forallb_forall in Hall.
    apply negb_true_iff. apply Hall. apply in_or_app. right. now left.
  - apply andb_true_iff in Hd as (_ & Hd). now apply IH.
Qed.

(** With distinct coordinates, the residual aggregation goes cell by cell. *)
Lemma aggregate_residual_cells (fit_length : nat)
      (band_results : PyDict.t FrozenCoord (option Lmfit.ModelResult)) :
  distinct_coords (PyDict.keys band_results) = true ->
  aggregate_residual fit_length band_results
  = map (fun cell => (fst cell, residual_of fit_length (snd cell))) band_results.
Proof.
  intros Hdistinct. unfold aggregate_residual, PyDict.items.
  set (F := fun cell : FrozenCoord * option Lmfit.ModelResult =>
              (fst cell, residual_of fit_length (snd cell))).
  set (Z := fun cell : FrozenCoord * option Lmfit.ModelResult =>
              (fst cell, repeat 0%Q fit_length)).
  assert (Hgen : forall todo done,
             distinct_coords (PyDict.keys (done ++ todo)) = true ->
             fold_left
               (fun residual cell =>
                  match snd cell with
                  | None => residual
                  | Some fit_item =>
                      if Nat.eqb (length (Lmfit.residual fit_item)) fit_length
                      then PyDict.set residual (fst cell) (Lmfit.residual fit_item)
                      else residual
                  end)
               todo (map F done ++ map Z todo)
             = map F (done ++ todo)).
  { induction todo as [|[k cell] todo IH]; intros done Hd.
    - cbn [fold_left map]. now rewrite !app_nil_r.
    - cbn [fold_left snd fst].
      replace (done ++ (k, cell) :: todo) with ((done ++ [(k, cell)]) ++ todo) in *
        by now rewrite <- app_assoc.
      rewrite <- (IH (done ++ [(k, cell)]) Hd). f_equal.
      rewrite map_app. cbn [map]. rewrite <- app_assoc. cbn [app].
      destruct cell as [fit_item|]; [|reflexivity].
      change (Z (k, Some fit_item)) with (k, repeat 0%Q fit_length).
      assert (EF : F (k, Some fit_item)
                   = (k, if Nat.eqb (length (Lmfit.residual fit_item)) fit_length
                         then Lmfit.residual fit_item
                         else repeat 0%Q fit_length)) by reflexivity.
      rewrite EF. clear EF.
      destruct (Nat.eqb (length (Lmfit.residual fit_item)) fit_length); [|reflexivity].
      apply set_app_skip; [|apply tuple_eqb_refl].
      intros kv Hkv. apply in_map_iff in Hkv as (c & <- & Hc). cbn [F fst].
      unfold PyDict.keys in Hd. rewrite <- app_assoc, map_app in Hd. cbn [map app fst] in Hd.
      apply (distinct_coords_app _ _ _ Hd). apply in_map_iff. now exists c. }
  exact (Hgen band_results [] Hdistinct).
Qed.
End LocSet.

(** ** Patterned mode: a slice without bands *)

Section NoBands.
Import Store BandAnalysis.
Variable fit : Lmfit.Model -> list Q -> Lmfit.Params -> list Q -> Lmfit.ModelResult.
Variable arr : Xarray.DataArray.
Variable stray : option Q.

(** When no band has a location at the slice, every description resolves to
    the empty list; the store only gains the empty dictionaries made for the
    descriptions that bring none. *)
Lemma resolve_all_without_location (coord_dict : Coordinate) (marginal : Xarray.DataArray)
      (band_set : list BandDescription) (heap : Heap) :
  no_bands_at arr coord_dict band_set = true ->
  exists fresh,
    mapMM (resolve_partial_bands_from_description arr stray coord_dict marginal)
          band_set heap
    = Ok (map (fun _ => []) band_set, heap ++ fresh).
Proof.
  revert heap. induction band_set as [|description band_set IH]; intros heap Hnone.
  - exists []. cbn [mapMM map]. unfold ret. now rewrite app_nil_r.
  - cbn [no_bands_at forallb] in Hnone. apply andb_true_iff in Hnone as (Hd & Hnone).
    assert (Elocations : partial_band_locations arr coord_dict description = Ok []).
    { destruct (partial_band_locations arr coord_dict description) as [[|? ?]|];
        [reflexivity | discriminate | discriminate]. }
    cbn [mapMM]. unfold bindM at 1.
    rewrite (resolve_without_location arr stray coord_dict marginal description heap
               Elocations).
    destruct (IH (match bd_params description with
                  | Some _ => heap
                  | None => heap ++ [[]]
                  end) Hnone) as (fresh & Erest).
    unfold bindM at 1. rewrite Erest. cbn [ret map].
    destruct (bd_params description).
    + now exists fresh.
    + exists ([[]] ++ fresh). now rewrite app_assoc.
Qed.

Lemma filter_all_empty {A B : Type} (l : list A) :
  filter (fun p : list B => negb (Nat.eqb (length p) 0)) (map (fun _ => []) l) = [].
Proof. induction l as [|x xs IH]; simpl; auto. Qed.

(** The turn of the sweep at a slice without bands: its cell of the grid is
    set to [None], nothing is fitted, nothing is raised as long as the cell
    exists. *)
Lemma patterned_turn_no_bands (template_dims : list string) (background : option Band)
      (band_set : list BandDescription)
      (band_results : PyDict.t FrozenCoord (option Lmfit.ModelResult))
      (coord_dict : Coordinate) (marginal : Xarray.DataArray) (heap : Heap)
      (fc : FrozenCoord) (cell : option Lmfit.ModelResult) :
  no_bands_at arr coord_dict band_set = true ->
  freeze template_dims coord_dict = Ok fc ->
  PyDict.get band_results fc = Some cell ->
  exists fresh,
    patterned_turn fit arr stray template_dims background band_set band_results
                   (coord_dict, marginal) heap
    = Ok (PyDict.set band_results fc None, heap ++ fresh).
Proof.
  intros Hnone Efc Ecell.
  destruct (resolve_all_without_location coord_dict marginal band_set heap Hnone)
    as (fresh & Eresolve).
  exists fresh. unfold patterned_turn. unfold bindM at 1. rewrite Eresolve.
  rewrite filter_all_empty. unfold bindM at 1. cbn [ret concat mapMM].
  unfold bindM at 1. cbn [ret]. unfold bindM, lift. rewrite Efc.
  unfold loc_set. now rewrite Ecell.
Qed.

(** Whatever a turn does, it assigns to one cell of the grid: the grid keeps
    its coordinates. *)
Lemma patterned_turn_keys (template_dims : list string) (background : option Band)
      (band_set : list BandDescription)
      (band_results band_results' : PyDict.t FrozenCoord (option Lmfit.ModelResult))
      (cm : Coordinate * Xarray.DataArray) (heap heap' : Heap) :
  patterned_turn fit arr stray template_dims background band_set band_results cm heap
  = Ok (band_results', heap') ->
  PyDict.keys band_results' = PyDict.keys band_results.
Proof.
  destruct cm as [coord_dict marginal]. unfold patterned_turn. intros E.
  apply bindM_Ok in E as (pbs & h1 & _ & E).
  apply bindM_Ok in E as (pbs' & h2 & _ & E).
  apply bindM_Ok in E as (models & h3 & _ & E).
  apply bindM_Ok in E as (fc & h4 & _ & E).
  destruct models as [|m ms].
  - apply lift_Ok in E as (E & _). now apply loc_set_Ok in E.
  - apply bindM_Ok in E as (composite & h5 & _ & E).
    apply bindM_Ok in E as (x & h6 & _ & E).
    apply lift_Ok in E as (E & _). now apply loc_set_Ok in E.
Qed.

Lemma patterned_sweep_keys (template_dims : list string) (background : option Band)
      (band_set : list BandDescription)
      (slices : list (Coordinate * Xarray.DataArray))
      (band_results band_results' : PyDict.t FrozenCoord (option Lmfit.ModelResult))
      (heap heap' : Heap) :
  foldMM (patterned_turn fit arr stray template_dims background band_set)
         slices band_results heap
  = Ok (band_results', heap') ->
  PyDict.keys band_results' = PyDict.keys band_results.
Proof.
  revert band_results heap. induction slices as [|cm slices IH];
    intros band_results heap E; cbn [foldMM] in E.
  - now inversion E.
  - apply bindM_Ok in E as (g1 & h1 & Eturn & E).
    rewrite (IH _ _ E). exact (patterned_turn_keys _ _ _ _ _ _ _ _ Eturn).
Qed.
End NoBands.

Lemma foldMM_app {A S : Type} (f : S -> A -> Store.M S) (l1 l2 : list A) (s : S)
      (h : Store.Heap) :
  Store.foldMM f (l1 ++ l2) s h
  = Store.bindM (Store.foldMM f l1 s) (Store.foldMM f l2) h.
Proof.
  revert s h. induction l1 as [|x xs IH]; intros s h; cbn [app Store.foldMM].
  - reflexivity.
  - unfold Store.bindM. destruct (f s x h) as [[s1 h1]|e]; [|reflexivity].
    rewrite IH. reflexivity.
Qed.

(** ** The coordinates the sweep iterates over *)

Section SweepCoordinates.
Import Xarray BandAnalysis.

Lemma set_fresh_string {V : Type} (d : PyDict.t string V) (k : string) (v : V) :
  ~ In k (PyDict.keys d) -> PyDict.set d k v = d ++ [(k, v)].
Proof.
  unfold PyDict.keys. induction d as [|[k0 v0] d IH]; intros Hk; [reflexivity|].
  cbn [PyDict.set map fst] in *. unfold keqb, string_KeyEq.
  destruct (String.eqb_spec k0 k) as [-> | Hne]; [exfalso; apply Hk; now left|].
  cbn [app]. f_equal. apply IH. intros Hin. apply Hk. now right.
Qed.

Lemma of_zip_append {V : Type} (ks : list string) (vs : list V) (acc : PyDict.t string V) :
  NoDup (PyDict.keys acc ++ ks) ->
  PyDict.update acc (combine ks vs) = acc ++ combine ks vs.
Proof.
  unfold PyDict.update. revert vs acc.
  induction ks as [|k ks IH]; intros vs acc Hnodup.
  - cbn [combine fold_left]. now rewrite app_nil_r.
  - destruct vs as [|v vs]; cbn [combine fold_left fst snd]; [now rewrite app_nil_r|].
    rewrite set_fresh_string.
    + rewrite IH.
      * now rewrite <- app_assoc.
      * unfold PyDict.keys in *. rewrite map_app. cbn [map fst].
        now rewrite <- app_assoc.
    + apply NoDup_remove_2 in Hnodup. intros Hin. apply Hnodup.
      apply in_or_app. now left.
Qed.

(** With distinct keys, [dict(zip(ks, vs))] is the zip itself. *)
Lemma of_zip_distinct {V : Type} (ks : list string) (vs : list V) :
  NoDup ks -> PyDict.of_zip ks vs = combine ks vs.
Proof.
  intros Hnodup. unfold PyDict.of_zip. now rewrite of_zip_append.
Qed.

Lemma get_app_skip_string {V : Type} (pre d : PyDict.t string V) (k : string) :
  ~ In k (PyDict.keys pre) -> PyDict.get (pre ++ d) k = PyDict.get d k.
Proof.
  unfold PyDict.keys. induction pre as [|[k0 v0] pre IH]; intros Hk; [reflexivity|].
  cbn [app PyDict.get map fst] in *. unfold keqb, string_KeyEq.
  destruct (String.eqb_spec k0 k) as [-> | Hne]; [exfalso; apply Hk; now left|].
  apply IH. intros Hin. apply Hk. now right.
Qed.

Lemma freeze_combine (ks : list string) (vs : list Q) (pre : PyDict.t string Q) :
  length ks = length vs ->
  NoDup (PyDict.keys pre ++ ks) ->
  mapM (PyDict.getitem (pre ++ combine ks vs)) ks = Ok vs.
Proof.
  revert vs pre. induction ks as [|k ks IH]; intros [|v vs] pre Hlen Hnodup;
    try discriminate; [reflexivity|].
  cbn [mapM combine]. unfold PyDict.getitem at 1.
  rewrite get_app_skip_string.
  - cbn [PyDict.get]. unfold keqb, string_KeyEq. rewrite String.eqb_refl.
    cbn [of_option bind].
    replace (pre ++ (k, v) :: combine ks vs) with ((pre ++ [(k, v)]) ++ combine ks vs)
      by now rewrite <- app_assoc.
    rewrite IH; [reflexivity | simpl in Hlen; lia |].
    unfold PyDict.keys in *. rewrite map_app. cbn [map fst].
    now rewrite <- app_assoc.
  - apply NoDup_remove_2 in Hnodup. intros Hin. apply Hnodup.
    apply in_or_app. now left.
Qed.

(** The coordinate made of distinct directions freezes to the tuple it was
    zipped from. *)
Lemma freeze_of_zip (directions : list string) (ss : list Q) :
  NoDup directions -> length directions = length ss ->
  freeze directions (PyDict.of_zip directions ss) = Ok ss.
Proof.
  intros Hnodup Hlen. rewrite of_zip_distinct by exact Hnodup.
  exact (freeze_combine directions ss [] Hlen Hnodup).
Qed.

Lemma Forall2_length_eq {A B : Type} (P : A -> B -> Prop) (l1 : list A) (l2 : list B) :
  Forall2 P l1 l2 -> length l1 = length l2.
Proof. induction 1; simpl; auto. Qed.

(** Every slice of [iterate_axis] lies at a tuple of the product of the
    coordinate vectors, and its coordinate freezes to that tuple. *)
Lemma iterate_axis_member (arr : DataArray) (directions : list string)
      (slices : list (Coordinate * DataArray)) (coord_dict : Coordinate)
      (marginal : DataArray) :
  NoDup directions ->
  iterate_axis arr directions = Ok slices ->
  In (coord_dict, marginal) slices ->
  exists pools ss,
    mapM (PyDict.getitem (coords arr)) directions = Ok pools
    /\ In ss (Itertools.product pools)
    /\ freeze directions coord_dict = Ok ss.
Proof.
  intros Hnodup E Hin. unfold iterate_axis in E.
  apply bind_Ok in E as (marginals & Emarginals & E). inversion E; subst; clear E.
  unfold _iterate_marginals in Emarginals. cbn [bind] in Emarginals.
  apply bind_Ok in Emarginals as (pools & Epools & Emarginals).
  exists pools. apply mapM_pair_snd in Emarginals.
  apply in_map_iff in Hin as ([m c] & Eswap & Hin). cbn [fst snd] in Eswap.
  inversion Eswap; subst; clear Eswap.
  assert (Hc : In coord_dict (map snd marginals))
    by (apply in_map_iff; now exists (marginal, coord_dict)).
  rewrite Emarginals in Hc. apply in_map_iff in Hc as (ss & <- & Hss).
  exists ss. split; [exact Epools|]. split; [exact Hss|].
  apply freeze_of_zip; [exact Hnodup|].
  rewrite <- (mapM_Ok_length _ _ _ Epools).
  symmetry. exact (Forall2_length_eq _ _ _ (product_members pools ss Hss)).
Qed.
End SweepCoordinates.

Section Template.
Import Xarray BandAnalysis.

Lemma remove_nth_In {A : Type} (n : nat) (l : list A) (x : A) :
  In x (remove_nth n l) -> In x l.
Proof.
  revert n. induction l as [|y ys IH]; intros [|n]; simpl; auto.
  intros [-> | Hin]; [now left | right; eauto].
Qed.

Lemma remove_nth_index (ds : list string) (d : string) (i : nat) :
  NoDup ds -> index_of d ds = Some i ->
  ~ In d (remove_nth i ds) /\ NoDup (remove_nth i ds).
Proof.
  revert i. induction ds as [|d' ds IH]; intros i Hnodup; simpl; [discriminate|].
  inversion Hnodup as [|? ? Hfresh Hnodup']; subst.
  destruct (String.eqb_spec d' d) as [-> | Hne].
  - intros E. inversion E; subst. now split.
  - destruct (index_of d ds) as [i'|]; [|discriminate].
    intros E. inversion E; subst. destruct (IH i' Hnodup' eq_refl) as (Hnotin & Hnd).
    split.
    + intros [E' | Hin]; [congruence | tauto].
    + constructor; [|exact Hnd]. intros Hin. apply Hfresh. eapply remove_nth_In; eauto.
Qed.

Lemma sum_template_Ok (arr : DataArray) (d : string)
      (template : list string * PyDict.t string (list Q)) :
  sum_template arr d = Ok template ->
  exists i,
    index_of d (dims arr) = Some i
    /\ template = (remove_nth i (dims arr),
                   filter (fun kv => negb (String.eqb (fst kv) d)) (coords arr)).
Proof.
  unfold sum_template. destruct (index_of d (dims arr)) as [i|]; [|discriminate].
  intros E. inversion E. eauto.
Qed.

(** The template has the coordinate vectors of the free directions of the
    array. *)
Lemma template_pools (arr : DataArray) (d : string)
      (template : list string * PyDict.t string (list Q)) :
  NoDup (dims arr) -> sum_template arr d = Ok template ->
  NoDup (fst template)
  /\ mapM (PyDict.getitem (snd template)) (fst template)
     = mapM (PyDict.getitem (coords arr)) (fst template).
Proof.
  intros Hnodup E. apply sum_template_Ok in E as (i & Ei & ->). cbn [fst snd].
  destruct (remove_nth_index _ _ _ Hnodup Ei) as (Hnotin & Hnd).
  split; [exact Hnd|]. apply mapM_ext_in. intros d' Hd'.
  unfold PyDict.getitem. rewrite get_filter_other; [reflexivity|].
  intros ->. contradiction.
Qed.

Lemma object_grid_keys (template : list string * PyDict.t string (list Q))
      (grid : PyDict.t FrozenCoord (option Lmfit.ModelResult)) :
  object_grid template = Ok grid ->
  exists pools,
    mapM (PyDict.getitem (snd template)) (fst template) = Ok pools
    /\ PyDict.keys grid = Itertools.product pools
    /\ length grid = fold_right Nat.mul 1 (map (@length Q) pools).
Proof.
  unfold object_grid. intros E. apply bind_Ok in E as (pools & Epools & E).
  inversion E; subst. exists pools. split; [exact Epools|]. split.
  - unfold PyDict.keys. rewrite map_map. cbn [fst]. apply map_id.
  - rewrite length_map. apply product_length.
Qed.
End Template.

(** C7. In [fit_patterned_bands], a slice at which no band is available has
    its cell of the result grid set to [None]: the turn raises nothing, makes
    no fit, and the sweep goes on with the slices that follow. The grid
    returned has the coordinates of the spectrum with the fit direction
    removed, one cell per combination of the coordinates of the free
    directions, whatever the cells hold; and in the dataset every cell that
    holds [None] has a residual of zeros. *)
Theorem unbracketed_slice_is_sentinel
        (fit : Lmfit.Model -> list Q -> Lmfit.Params -> list Q -> Lmfit.ModelResult)
        (arr : Xarray.DataArray) (stray : option Q)
        (band_set : list BandAnalysis.BandDescription) (fit_direction : string)
        (background : option BandAnalysis.Band) (heap heap1 : Store.Heap)
        (template : list string * PyDict.t string (list Q))
        (grid0 st : PyDict.t BandAnalysis.FrozenCoord (option Lmfit.ModelResult))
        (earlier later : list (BandAnalysis.Coordinate * Xarray.DataArray))
        (coord_dict : BandAnalysis.Coordinate) (marginal : Xarray.DataArray) :
  NoDup (Xarray.dims arr) ->
  Xarray.sum_template arr fit_direction = Ok template ->
  BandAnalysis.object_grid template = Ok grid0 ->
  BandAnalysis.iterate_axis arr (fst template)
  = Ok (earlier ++ (coord_dict, marginal) :: later) ->
  Store.foldMM (BandAnalysis.patterned_turn fit arr stray (fst template) background band_set)
               earlier grid0 heap = Ok (st, heap1) ->
  no_bands_at arr coord_dict band_set = true ->
  exists fc fresh pools,
    BandAnalysis.freeze (fst template) coord_dict = Ok fc
    /\ BandAnalysis.patterned_turn fit arr stray (fst template) background band_set st
         (coord_dict, marginal) heap1
       = Ok (PyDict.set st fc None, heap1 ++ fresh)
    /\ PyDict.get (PyDict.set st fc None) fc = Some None
    /\ mapM (PyDict.getitem (Xarray.coords arr)) (fst template) = Ok pools
    /\ PyDict.keys (PyDict.set st fc None) = Itertools.product pools
    /\ length (PyDict.set st fc None) = fold_right Nat.mul 1 (map (@length Q) pools)
    /\ forall out heap',
         BandAnalysis.fit_patterned_bands fit arr stray band_set fit_direction
           background true heap = Ok (out, heap') ->
         Store.foldMM
           (BandAnalysis.patterned_turn fit arr stray (fst template) background band_set)
           later (PyDict.set st fc None) (heap1 ++ fresh)
         = Ok (BandAnalysis.out_results out, heap')
         /\ PyDict.keys (BandAnalysis.out_results out) = Itertools.product pools
         /\ exists fit_axis residual,
              PyDict.getitem (Xarray.coords arr) fit_direction = Ok fit_axis
              /\ BandAnalysis.out_residual out = Some residual
              /\ (distinct_coords (Itertools.product pools) = true ->
                  PyDict.keys residual = Itertools.product pools
                  /\ forall fc',
                       PyDict.get (BandAnalysis.out_results out) fc' = Some None ->
                       PyDict.get residual fc' = Some (repeat 0%Q (length fit_axis))).
Proof.
  intros Hnodup Etemplate Egrid Eslices Eearlier Hnone.
  destruct (template_pools arr fit_direction template Hnodup Etemplate)
    as (Hfree & Epools_eq).
  destruct (object_grid_keys template grid0 Egrid) as (pools & Epools & Hkeys0 & Hlen0).
  rewrite Epools_eq in Epools.
  destruct (iterate_axis_member arr (fst template) _ coord_dict marginal Hfree Eslices)
    as (pools' & fc & Epools' & Hfc & Efc); [apply in_or_app; right; now left|].
  rewrite Epools in Epools'. inversion Epools'; subst pools'. clear Epools'.
  pose proof (patterned_sweep_keys fit arr stray _ _ _ _ _ _ _ _ Eearlier) as Hkeys.
  rewrite Hkeys0 in Hkeys.
  destruct (PyDict.get st fc) as [cell|] eqn:Ecell.
  2:{ exfalso. revert Ecell. apply get_key_present; [exact tuple_eqb_refl|].
      now rewrite Hkeys. }
  destruct (patterned_turn_no_bands fit arr stray (fst template) background band_set
              st coord_dict marginal heap1 fc cell Hnone Efc Ecell) as (fresh & Eturn).
  assert (Hkeys1 : PyDict.keys (PyDict.set st fc None) = Itertools.product pools).
  { rewrite (set_keys_present st fc None cell Ecell). exact Hkeys. }
  exists fc, fresh, pools.
  split; [exact Efc|]. split; [exact Eturn|].
  split; [apply get_set_same; exact tuple_eqb_refl|].
  split; [exact Epools|]. split; [exact Hkeys1|]. split.
  { unfold PyDict.keys in Hkeys1.
    rewrite <- (length_map fst (PyDict.set st fc None)), Hkeys1. apply product_length. }
  intros out heap' Eout. unfold BandAnalysis.fit_patterned_bands in Eout.
  apply bindM_Ok in Eout as (i & h1 & Ei & Eout). apply lift_Ok in Ei as (Ei & ->).
  apply bindM_Ok in Eout as (template' & h1 & Et & Eout). apply lift_Ok in Et as (Et & ->).
  rewrite Etemplate in Et. inversion Et; subst template'. clear Et.
  apply bindM_Ok in Eout as (grid0' & h1 & Eg & Eout). apply lift_Ok in Eg as (Eg & ->).
  rewrite Egrid in Eg. inversion Eg; subst grid0'. clear Eg.
  apply bindM_Ok in Eout as (slices & h1 & Es & Eout). apply lift_Ok in Es as (Es & ->).
  assert (Efree : Xarray.remove_nth i (Xarray.dims arr) = fst template).
  { apply sum_template_Ok in Etemplate as (i' & Ei' & ->). cbn [fst].
    destruct (Xarray.index_of fit_direction (Xarray.dims arr)); inversion Ei; inversion Ei'.
    congruence. }
  rewrite Efree, Eslices in Es. inversion Es; subst slices. clear Es.
  apply bindM_Ok in Eout as (results & h1 & Erun & Eout).
  rewrite foldMM_app in Erun. unfold Store.bindM at 1 in Erun.
  rewrite Eearlier in Erun. cbn [Store.foldMM] in Erun.
  unfold Store.bindM at 1 in Erun. rewrite Eturn in Erun.
  apply bindM_Ok in Eout as (fit_axis & h2 & Eaxis & Eout).
  apply lift_Ok in Eaxis as (Eaxis & ->). inversion Eout; subst out heap'. clear Eout.
  cbn [BandAnalysis.out_results BandAnalysis.out_residual].
  pose proof (patterned_sweep_keys fit arr stray _ _ _ _ _ _ _ _ Erun) as Hkeys2.
  rewrite Hkeys1 in Hkeys2.
  split; [exact Erun|]. split; [exact Hkeys2|].
  exists fit_axis. eexists. split; [exact Eaxis|]. split; [reflexivity|].
  intros Hdistinct. rewrite aggregate_residual_cells by now rewrite Hkeys2.
  split.
  - unfold PyDict.keys in *. rewrite map_map. cbn [fst]. exact Hkeys2.
  - intros fc' Hcell.
    rewrite (get_map_values (residual_of (length fit_axis)) results fc'), Hcell.
    reflexivity.
Qed.

Lemma unbracketed_slice_is_sentinel_witness :
  exists fc fresh,
    BandAnalysis.freeze ["eV"%string] (fst SamplePattern.last_slice) = Ok fc
    /\ BandAnalysis.patterned_turn SamplePattern.null_fit SamplePattern.spectrum
         (Some 1%Q) ["eV"%string] (Some SamplePattern.background_band)
         SamplePattern.band_set (fst SamplePattern.before_last_slice)
         SamplePattern.last_slice (snd SamplePattern.before_last_slice)
       = Ok (PyDict.set (fst SamplePattern.before_last_slice) fc None,
             snd SamplePattern.before_last_slice ++ fresh)
    /\ PyDict.get (PyDict.set (fst SamplePattern.before_last_slice) fc None) fc
       = Some None
    /\ length (PyDict.set (fst SamplePattern.before_last_slice) fc None) = 4.
Proof.
  destruct (unbracketed_slice_is_sentinel
              SamplePattern.null_fit SamplePattern.spectrum (Some 1%Q)
              SamplePattern.band_set "kp" (Some SamplePattern.background_band)
              SamplePattern.caller_store (snd SamplePattern.before_last_slice)
              SamplePattern.template SamplePattern.empty_grid
              (fst SamplePattern.before_last_slice)
              (firstn 3 SamplePattern.slices) []
              (fst SamplePattern.last_slice) (snd SamplePattern.last_slice))
    as (fc & fresh & pools & Efc & Eturn & Eget & Epools & _ & Hlen & _).
  - repeat constructor; simpl; intuition discriminate.
  - reflexivity.
  - reflexivity.
  - vm_compute. reflexivity.
  - vm_compute. reflexivity.
  - vm_compute. reflexivity.
  - exists fc, fresh. split; [exact Efc|]. split; [exact Eturn|].
    split; [exact Eget|]. rewrite Hlen.
    cbn in Epools. inversion Epools. reflexivity.
Defined.

Example sample_pattern_last_cell :
  match BandAnalysis.patterned_turn SamplePattern.null_fit SamplePattern.spectrum
          (Some 1%Q) ["eV"%string] (Some SamplePattern.background_band)
          SamplePattern.band_set (fst SamplePattern.before_last_slice)
          SamplePattern.last_slice (snd SamplePattern.before_last_slice) with
  | Ok (grid, _) => PyDict.get grid [2%Q]
  | Raise _ => None
  end
  = Some None.
Proof. vm_compute. reflexivity. Qed.
(** ** Patterned mode: the interpolation between control points, further facts *)

Section FragmentFacts.
Import BandAnalysis.

Lemma is_between_iff (x y0 y1 : Q) :
  _is_between x y0 y1 = true
  <-> ((y0 <= x /\ x <= y1) \/ (y1 <= x /\ x <= y0))%Q.
Proof.
  unfold _is_between, Numpy.min2, Numpy.max2.
  destruct (Qle_bool y0 y1) eqn:E; rewrite andb_true_iff, !Qle_bool_iff.
  - apply Qle_bool_iff in E. split; [tauto|]. intros [H | H]; lra.
  - assert (Hlt : (y1 < y0)%Q).
    { apply Qnot_le_lt. intros H. apply Qle_bool_iff in H. congruence. }
    split; [tauto|]. intros [H | H]; lra.
Qed.

Lemma point_get_out_of_range (point : Q * Q) (coord_index : nat) :
  2 <= coord_index -> point_get point (Z.of_nat coord_index) = Raise IndexError.
Proof.
  intros H. unfold point_get.
  replace (Z.of_nat coord_index =? 0)%Z with false by (symmetry; apply Z.eqb_neq; lia).
  replace (Z.of_nat coord_index =? -2)%Z with false by (symmetry; apply Z.eqb_neq; lia).
  replace (Z.of_nat coord_index =? 1)%Z with false by (symmetry; apply Z.eqb_neq; lia).
  replace (Z.of_nat coord_index =? -1)%Z with false by (symmetry; apply Z.eqb_neq; lia).
  reflexivity.
Qed.

(** The four things a pair of consecutive control points can do. *)
Lemma interpolate_fragment_cases (coord : Q) (coord_index : nat)
      (pair : (Q * Q) * (Q * Q)) :
  (2 <= coord_index /\ interpolate_fragment coord coord_index pair = Raise IndexError)
  \/ (coord_index < 2 /\ degenerate coord_index coord pair = true
      /\ interpolate_fragment coord coord_index pair = Raise ZeroDivisionError)
  \/ (coord_index < 2 /\ brackets coord_index coord pair = false
      /\ interpolate_fragment coord coord_index pair = Ok [])
  \/ (coord_index < 2 /\ brackets coord_index coord pair = true
      /\ degenerate coord_index coord pair = false
      /\ exists center,
           interpolate_fragment coord coord_index pair = Ok [(coord, center)]
           /\ (center == linear_interpolation coord
                           (patterning_coordinate coord_index (fst pair))
                           (fit_coordinate coord_index (fst pair))
                           (patterning_coordinate coord_index (snd pair))
                           (fit_coordinate coord_index (snd pair)))%Q).
Proof.
  destruct (le_lt_dec 2 coord_index) as [Hbig | Hindex].
  - left. split; [exact Hbig|]. destruct pair as [point_low point_high].
    unfold interpolate_fragment. now rewrite point_get_out_of_range.
  - right. destruct (degenerate coord_index coord pair) eqn:Hdeg.
    + left. split; [exact Hindex|]. split; [reflexivity|].
      destruct pair as [point_low point_high].
      unfold interpolate_fragment, degenerate, brackets in *. cbn [fst snd] in *.
      destruct (point_get_patterning coord_index point_low Hindex) as (-> & _).
      destruct (point_get_patterning coord_index point_high Hindex) as (-> & _).
      cbn [bind]. apply andb_true_iff in Hdeg as (-> & Heq). rewrite Heq.
      unfold Qltb. apply Qeq_bool_iff in Heq.
      assert (Hle : Qle_bool (patterning_coordinate coord_index point_high)
                             (patterning_coordinate coord_index point_low) = true)
        by (apply Qle_bool_iff; lra).
      now rewrite Hle.
    + right.
      destruct (interpolate_fragment_spec coord coord_index pair Hindex Hdeg)
        as (fragment & Efragment & Hfragment).
      cbn [filter] in Hfragment.
      destruct (brackets coord_index coord pair) eqn:Hbr.
      * right. split; [exact Hindex|]. split; [reflexivity|]. split; [reflexivity|].
        cbn [map] in Hfragment.
        inversion Hfragment as [|[c center] ? ? ? Hhead Htail]; subst.
        inversion Htail; subst. destruct Hhead as (Hc & Hcenter).
        cbn [fst snd] in Hc, Hcenter. rewrite Hc in Efragment.
        exists center. split; [exact Efragment | exact Hcenter].
      * left. split; [exact Hindex|]. split; [reflexivity|].
        inversion Hfragment; subst. exact Efragment.
Qed.
End FragmentFacts.

(** X1. [_is_between(x, y0, y1)] holds exactly when [x] lies in the closed
    interval spanned by the two bounds, whichever of the two is the larger;
    so the two bounds can be exchanged. *)
Theorem is_between_closed_interval (x y0 y1 : Q) :
  (BandAnalysis._is_between x y0 y1 = true
   <-> ((y0 <= x /\ x <= y1) \/ (y1 <= x /\ x <= y0))%Q)
  /\ BandAnalysis._is_between x y0 y1 = BandAnalysis._is_between x y1 y0.
Proof.
  split; [apply is_between_iff|].
  destruct (BandAnalysis._is_between x y0 y1) eqn:E1;
    destruct (BandAnalysis._is_between x y1 y0) eqn:E2; try reflexivity.
  - apply is_between_iff in E1.
    assert (E : BandAnalysis._is_between x y1 y0 = true) by (apply is_between_iff; tauto).
    congruence.
  - apply is_between_iff in E2.
    assert (E : BandAnalysis._is_between x y0 y1 = true) by (apply is_between_iff; tauto).
    congruence.
Qed.

(** ** The first exception of a comprehension *)

(** A comprehension whose body can raise only one exception either raises
    it, at some element, or returns the results of all the elements. *)
Lemma mapM_uniform_error {A B : Type} (f : A -> res B) (e0 : pyerr) (l : list A) :
  (forall x e, In x l -> f x = Raise e -> e = e0) ->
  (mapM f l = Raise e0 /\ exists x, In x l /\ f x = Raise e0)
  \/ (exists ys, mapM f l = Ok ys /\ Forall2 (fun x y => f x = Ok y) l ys).
Proof.
  induction l as [|x xs IH]; intros Herr.
  - right. exists []. split; [reflexivity | constructor].
  - cbn [mapM]. destruct (f x) as [y|e] eqn:Ex; cbn [bind].
    + destruct IH as [(Eraise & z & Hz & Ez) | (ys & Eys & Hys)].
      * intros z e Hz. apply Herr. now right.
      * left. rewrite Eraise. split; [reflexivity|]. exists z. split; [now right | exact Ez].
      * right. rewrite Eys. exists (y :: ys). split; [reflexivity|]. now constructor.
    + left. assert (e = e0) by (apply (Herr x e); [now left | exact Ex]). subst e.
      split; [reflexivity|]. exists x. split; [now left | exact Ex].
Qed.

Lemma Forall2_In_l {A B : Type} (R : A -> B -> Prop) (l : list A) (l' : list B) (x : A) :
  Forall2 R l l' -> In x l -> exists y, In y l' /\ R x y.
Proof.
  induction 1 as [|a b l l' Hab _ IH]; intros Hin; [destruct Hin|].
  destruct Hin as [<- | Hin].
  - exists b. split; [now left | exact Hab].
  - destruct (IH Hin) as (y & Hy & Hxy). exists y. split; [now right | exact Hxy].
Qed.

Lemma Forall2_In_r {A B : Type} (R : A -> B -> Prop) (l : list A) (l' : list B) (y : B) :
  Forall2 R l l' -> In y l' -> exists x, In x l /\ R x y.
Proof.
  induction 1 as [|a b l l' Hab _ IH]; intros Hin; [destruct Hin|].
  destruct Hin as [<- | Hin].
  - exists a. split; [now left | exact Hab].
  - destruct (IH Hin) as (x & Hx & Hxy). exists x. split; [now right | exact Hxy].
Qed.

Section FragmentRuns.
Import BandAnalysis.

Lemma interpolate_fragment_error (coord : Q) (coord_index : nat)
      (pair : (Q * Q) * (Q * Q)) (e : pyerr) :
  interpolate_fragment coord coord_index pair = Raise e -> e = fragment_error coord_index.
Proof.
  unfold fragment_error.
  destruct (interpolate_fragment_cases coord coord_index pair)
    as [(H & E) | [(H & _ & E) | [(H & _ & E) | (H & _ & _ & center & E & _)]]];
    rewrite E; intros Eq; inversion Eq; subst.
  - apply Nat.ltb_ge in H. now rewrite H.
  - apply Nat.ltb_lt in H. now rewrite H.
Qed.

Lemma pairwise_In_length {A : Type} (l : list A) (pair : A * A) :
  In pair (Itertools.pairwise l) -> 2 <= length l.
Proof.
  destruct l as [|x [|y l]]; cbn [Itertools.pairwise]; intros Hin;
    try destruct Hin; cbn [length]; lia.
Qed.

(** The interpolation as a run over the pairs, once the list of points is
    known not to be empty. *)
Lemma interpolate_run (coord : Q) (coord_index : nat) (points : list (Q * Q)) :
  points <> [] ->
  _interpolate_intersecting_fragments coord coord_index points
  = fragments <- mapM (interpolate_fragment coord coord_index)
                      (Itertools.pairwise points) ;;
    Ok (concat fragments).
Proof.
  intros H. unfold _interpolate_intersecting_fragments.
  destruct points; [congruence | reflexivity].
Qed.

End FragmentRuns.



(** X4. When [_interpolate_intersecting_fragments] raises: [IndexError]
    on an empty list of control points, or when the patterning axis is at
    position two or more of the array and there are at least two control
    points; [ZeroDivisionError] when two consecutive control points have the
    patterning coordinate of the slice in common. It raises in no other
    case. *)
Theorem interpolation_failures
        (coord : Q) (coord_index : nat) (points : list (Q * Q)) (e : pyerr) :
  BandAnalysis._interpolate_intersecting_fragments coord coord_index points = Raise e
  <-> (points = [] /\ e = IndexError)
      \/ (2 <= coord_index /\ 2 <= length points /\ e = IndexError)
      \/ (coord_index < 2 /\ e = ZeroDivisionError
          /\ exists pair, In pair (Itertools.pairwise points)
                          /\ degenerate coord_index coord pair = true).
Proof.
  split.
  - destruct points as [|p ps].
    + intros E. left. split; [reflexivity|]. now inversion E.
    + rewrite interpolate_run by discriminate. intros E. right.
      destruct (mapM_uniform_error (BandAnalysis.interpolate_fragment coord coord_index)
                  (fragment_error coord_index) (Itertools.pairwise (p :: ps)))
        as [(Eraise & pair & Hpair & Epair) | (ys & Eys & _)].
      * intros x e' _. apply interpolate_fragment_error.
      * rewrite Eraise in E. cbn [bind] in E. inversion E; subst e; clear E.
        destruct (interpolate_fragment_cases coord coord_index pair)
          as [(H & E) | [(H & Hdeg & E) | [(H & _ & E) | (H & _ & _ & center & E & _)]]];
          rewrite E in Epair; try discriminate.
        -- left. split; [exact H|]. split; [now apply pairwise_In_length in Hpair|].
           now inversion Epair.
        -- right. split; [exact H|]. split; [now inversion Epair|]. eauto.
      * rewrite Eys in E. discriminate.
  - intros [(-> & ->) | [(Hbig & Hlen & ->) | (Hindex & -> & pair & Hpair & Hdeg)]].
    + reflexivity.
    + destruct points as [|p [|q ps]]; cbn [length] in Hlen; try lia.
      unfold BandAnalysis._interpolate_intersecting_fragments.
      cbn [hd_error of_option bind Itertools.pairwise mapM].
      destruct (interpolate_fragment_cases coord coord_index (p, q))
        as [(_ & E) | [(H & _) | [(H & _) | (H & _)]]]; try lia.
      now rewrite E.
    + assert (Hne : points <> []).
      { intros ->. destruct Hpair. }
      rewrite interpolate_run by exact Hne.
      destruct (mapM_uniform_error (BandAnalysis.interpolate_fragment coord coord_index)
                  (fragment_error coord_index) (Itertools.pairwise points))
        as [(Eraise & _) | (ys & _ & Hall)].
      * intros x e' _. apply interpolate_fragment_error.
      * rewrite Eraise. cbn [bind]. unfold fragment_error.
        apply Nat.ltb_lt in Hindex. now rewrite Hindex.
      * destruct (Forall2_In_l _ _ _ _ Hall Hpair) as (y & _ & Ey).
        destruct (interpolate_fragment_cases coord coord_index pair)
          as [(_ & E) | [(_ & _ & E) | [(_ & Hbr & _) | (_ & _ & Hnd & _)]]].
        -- rewrite E in Ey. discriminate.
        -- rewrite E in Ey. discriminate.
        -- unfold degenerate in Hdeg. rewrite Hbr in Hdeg. discriminate.
        -- congruence.
Qed.

Example sample_interpolation_failures :
  BandAnalysis._interpolate_intersecting_fragments 1 0 [] = Raise IndexError
  /\ BandAnalysis._interpolate_intersecting_fragments 1 2 [(0, 1); (1, 2)]%Q
     = Raise IndexError
  /\ BandAnalysis._interpolate_intersecting_fragments 1 2 [(0, 1)]%Q = Ok []
  /\ BandAnalysis._interpolate_intersecting_fragments 1 0 [(0, 1); (1, 1); (1, 2)]%Q
     = Raise ZeroDivisionError.
Proof. repeat split; reflexivity. Qed.

(** ** Patterned mode: the order of the control points *)


Lemma pairwise_app_cons {A : Type} (l1 l2 : list A) (x y : A) :
  Itertools.pairwise (l1 ++ x :: y :: l2)
  = Itertools.pairwise (l1 ++ [x]) ++ (x, y) :: Itertools.pairwise (y :: l2).
Proof.
  induction l1 as [|z l1 IH]; [reflexivity|].
  destruct l1 as [|w l1].
  - reflexivity.
  - change (Itertools.pairwise ((z :: w :: l1) ++ x :: y :: l2))
      with ((z, w) :: Itertools.pairwise ((w :: l1) ++ x :: y :: l2)).
    change (Itertools.pairwise ((z :: w :: l1) ++ [x]))
      with ((z, w) :: Itertools.pairwise ((w :: l1) ++ [x])).
    now rewrite IH.
Qed.

Lemma pairwise_rev {A : Type} (l : list A) :
  Itertools.pairwise (rev l)
  = rev (map (fun pair => (snd pair, fst pair)) (Itertools.pairwise l)).
Proof.
  induction l as [|x l IH]; [reflexivity|].
  destruct l as [|y l]; [reflexivity|].
  change (Itertools.pairwise (x :: y :: l)) with ((x, y) :: Itertools.pairwise (y :: l)).
  cbn [map rev fst snd]. rewrite <- IH. cbn [rev].
  rewrite <- app_assoc. cbn [app]. rewrite pairwise_app_cons. reflexivity.
Qed.

Lemma concat_rev_short {A : Type} (ls : list (list A)) :
  Forall (fun l => length l <= 1) ls -> concat (rev ls) = rev (concat ls).
Proof.
  induction 1 as [|l ls Hl _ IH]; [reflexivity|].
  cbn [rev concat]. rewrite concat_app, rev_app_distr, IH. cbn [concat].
  rewrite app_nil_r. f_equal.
  destruct l as [|a [|b l]]; [reflexivity | reflexivity | cbn [length] in Hl; lia].
Qed.

Lemma Forall2_rev {A B : Type} (R : A -> B -> Prop) (l : list A) (l' : list B) :
  Forall2 R l l' -> Forall2 R (rev l) (rev l').
Proof.
  induction 1 as [|a b l l' Hab _ IH]; [constructor|].
  cbn [rev]. apply Forall2_app; [exact IH|]. constructor; [exact Hab | constructor].
Qed.

Lemma Forall2_same_left {A B C : Type} (R1 : A -> B -> Prop) (R2 : A -> C -> Prop)
      (l : list A) (l1 : list B) (l2 : list C) :
  Forall2 R1 l l1 -> Forall2 R2 l l2 ->
  Forall2 (fun b c => exists a, R1 a b /\ R2 a c) l1 l2.
Proof.
  intros H1. revert l2. induction H1 as [|a b l l1 Hab _ IH]; intros l2 H2;
    inversion H2; subst; constructor; eauto.
Qed.

Lemma Forall2_concat {A B : Type} (R : A -> B -> Prop)
      (ls : list (list A)) (ls' : list (list B)) :
  Forall2 (Forall2 R) ls ls' -> Forall2 R (concat ls) (concat ls').
Proof.
  induction 1 as [|l l' ls ls' Hl _ IH]; [constructor|].
  cbn [concat]. now apply Forall2_app.
Qed.

Section FragmentOrder.
Import BandAnalysis.

Lemma brackets_swap (coord : Q) (coord_index : nat) (a b : Q * Q) :
  brackets coord_index coord (b, a) = brackets coord_index coord (a, b).
Proof.
  unfold brackets. cbn [fst snd].
  destruct (_is_between coord (patterning_coordinate coord_index a)
              (patterning_coordinate coord_index b)) eqn:E1;
    destruct (_is_between coord (patterning_coordinate coord_index b)
                (patterning_coordinate coord_index a)) eqn:E2; try reflexivity.
  - apply is_between_iff in E1.
    assert (E : _is_between coord (patterning_coordinate coord_index b)
                  (patterning_coordinate coord_index a) = true)
      by (apply is_between_iff; tauto).
    congruence.
  - apply is_between_iff in E2.
    assert (E : _is_between coord (patterning_coordinate coord_index a)
                  (patterning_coordinate coord_index b) = true)
      by (apply is_between_iff; tauto).
    congruence.
Qed.

Lemma Qeq_bool_swap (x y : Q) : Qeq_bool x y = Qeq_bool y x.
Proof.
  destruct (Qeq_bool x y) eqn:E1; destruct (Qeq_bool y x) eqn:E2; try reflexivity.
  - apply Qeq_bool_iff in E1. apply Qeq_bool_neq in E2. exfalso. apply E2. now symmetry.
  - apply Qeq_bool_iff in E2. apply Qeq_bool_neq in E1. exfalso. apply E1. now symmetry.
Qed.

Lemma degenerate_swap (coord : Q) (coord_index : nat) (a b : Q * Q) :
  degenerate coord_index coord (b, a) = degenerate coord_index coord (a, b).
Proof.
  unfold degenerate. rewrite brackets_swap. cbn [fst snd]. f_equal. apply Qeq_bool_swap.
Qed.

Lemma linear_interpolation_swap (x x0 y0 x1 y1 : Q) :
  ~ (x0 == x1)%Q ->
  (linear_interpolation x x1 y1 x0 y0 == linear_interpolation x x0 y0 x1 y1)%Q.
Proof.
  intros Hne. unfold linear_interpolation. field. split; intros H; apply Hne; lra.
Qed.

Lemma degenerate_brackets (coord : Q) (coord_index : nat) (pair : (Q * Q) * (Q * Q)) :
  degenerate coord_index coord pair = true -> brackets coord_index coord pair = true.
Proof. unfold degenerate. intros H. now apply andb_true_iff in H. Qed.

(** The two points of a pair can be exchanged. *)
Lemma interpolate_fragment_swap (coord : Q) (coord_index : nat) (a b : Q * Q) :
  same_outcome (interpolate_fragment coord coord_index (b, a))
               (interpolate_fragment coord coord_index (a, b)).
Proof.
  pose proof (brackets_swap coord coord_index a b) as Sb.
  pose proof (degenerate_swap coord coord_index a b) as Sd.
  destruct (interpolate_fragment_cases coord coord_index (a, b))
    as [(H & E) | [(H & Hdeg & E) | [(H & Hbr & E) | (H & Hbr & Hdeg & center & E & Hc)]]];
    destruct (interpolate_fragment_cases coord coord_index (b, a))
    as [(H' & E') | [(H' & Hdeg' & E')
                    | [(H' & Hbr' & E') | (H' & Hbr' & Hdeg' & center' & E' & Hc')]]];
    try lia; try congruence;
    try (apply degenerate_brackets in Hdeg; congruence);
    try (apply degenerate_brackets in Hdeg'; congruence);
    rewrite E, E'; cbn [same_outcome]; try reflexivity; try (now constructor).
  constructor; [|constructor].
  split; cbn [fst snd]; [reflexivity|].
  rewrite Hc, Hc'. cbn [fst snd]. apply linear_interpolation_swap.
  unfold degenerate in Hdeg. rewrite Hbr in Hdeg. cbn [andb fst snd] in Hdeg.
  now apply Qeq_bool_neq in Hdeg.
Qed.

Lemma interpolate_fragment_short (coord : Q) (coord_index : nat)
      (pair : (Q * Q) * (Q * Q)) (fragment : list (Q * Q)) :
  interpolate_fragment coord coord_index pair = Ok fragment -> length fragment <= 1.
Proof.
  destruct (interpolate_fragment_cases coord coord_index pair)
    as [(_ & E) | [(_ & _ & E) | [(_ & _ & E) | (_ & _ & _ & center & E & _)]]];
    rewrite E; intros Eq; inversion Eq; subst; cbn [length]; lia.
Qed.
End FragmentOrder.

(** X3. The order in which the control points are listed does not matter
    to [_interpolate_intersecting_fragments] beyond the order of what it
    yields: on the reversed list it raises the same exception or yields the
    same expected centers, reversed. *)
Theorem interpolation_of_reversed_points
        (coord : Q) (coord_index : nat) (points : list (Q * Q)) :
  same_outcome
    (BandAnalysis._interpolate_intersecting_fragments coord coord_index (rev points))
    (locations <- BandAnalysis._interpolate_intersecting_fragments coord coord_index points ;;
     Ok (rev locations)).
Proof.
  destruct points as [|p ps]; [reflexivity|].
  assert (Hrev : rev (p :: ps) <> []).
  { intros E. apply (f_equal (@length _)) in E. rewrite length_rev in E. discriminate. }
  rewrite !interpolate_run by (exact Hrev || discriminate).
  rewrite pairwise_rev.
  set (f := BandAnalysis.interpolate_fragment coord coord_index).
  set (pairs := Itertools.pairwise (p :: ps)).
  set (swap := fun pair : (Q * Q) * (Q * Q) => (snd pair, fst pair)).
  assert (Herr : forall l x e, In x l -> f x = Raise e -> e = fragment_error coord_index).
  { intros l x e _. apply interpolate_fragment_error. }
  assert (Hswap : forall pair, same_outcome (f (swap pair)) (f pair)).
  { intros [a b]. apply interpolate_fragment_swap. }
  destruct (mapM_uniform_error f (fragment_error coord_index) pairs (Herr pairs))
    as [(Eraise & pair & Hpair & Epair) | (ys & Eys & Hys)];
    destruct (mapM_uniform_error f (fragment_error coord_index) (rev (map swap pairs))
                (Herr _))
    as [(Eraise' & pair' & Hpair' & Epair') | (ys' & Eys' & Hys')].
  - rewrite Eraise, Eraise'. reflexivity.
  - exfalso. assert (Hin : In (swap pair) (rev (map swap pairs))).
    { apply in_rev. rewrite ?rev_involutive. now apply in_map. }
    destruct (Forall2_In_l _ _ _ _ Hys' Hin) as (y & _ & Ey).
    specialize (Hswap pair). rewrite Ey, Epair in Hswap. exact Hswap.
  - exfalso. apply in_rev in Hpair'. rewrite ?rev_involutive in Hpair'.
    apply in_map_iff in Hpair' as (pair & <- & Hpair).
    destruct (Forall2_In_l _ _ _ _ Hys Hpair) as (y & _ & Ey).
    specialize (Hswap pair). rewrite Ey, Epair' in Hswap. exact Hswap.
  - rewrite Eys, Eys'. cbn [bind same_outcome].
    assert (Hshort : Forall (fun l => length l <= 1) ys).
    { apply Forall_forall. intros y Hy.
      destruct (Forall2_In_r _ _ _ _ Hys Hy) as (pair & _ & Ey).
      exact (interpolate_fragment_short _ _ _ _ Ey). }
    rewrite <- (concat_rev_short ys Hshort). apply Forall2_concat.
    assert (Hleft : Forall2 (fun x' y => exists x, x' = swap x /\ f x = Ok y)
                            (rev (map swap pairs)) (rev ys)).
    { apply Forall2_rev. clear - Hys. induction Hys; constructor; eauto. }
    pose proof (Forall2_same_left _ _ _ _ _ Hys' Hleft) as Hboth.
    eapply Forall2_impl; [|exact Hboth].
    intros y' y (x' & Ey' & x & -> & Ey). cbn beta in Ey'.
    specialize (Hswap x). rewrite Ey', Ey in Hswap. exact Hswap.
Qed.

Example sample_reversed_points :
  BandAnalysis._interpolate_intersecting_fragments 1 0 [(0, 1); (1, 2); (3, 0)]%Q
  = Ok [(1, (1 - 0) / (1 - 0) * (2 - 1) + 1); (1, (1 - 1) / (3 - 1) * (0 - 2) + 2)]%Q
  /\ BandAnalysis._interpolate_intersecting_fragments 1 0 [(3, 0); (1, 2); (0, 1)]%Q
     = Ok [(1, (1 - 1) / (3 - 1) * (0 - 2) + 2); (1, (1 - 0) / (1 - 0) * (2 - 1) + 1)]%Q.
Proof. split; reflexivity. Qed.



(** ** Patterned mode: the dictionaries of hints, further facts *)

Section ResolveLoop.
Import Store BandAnalysis.

Lemma build_params_dict_center (d d' : ParamsDict) (center : Q) (center_stray : option Q)
      (marginal : option Xarray.DataArray) :
  build_params_dict d center center_stray marginal = Ok d' ->
  hint_at d' "center" "value" = Some center.
Proof.
  destruct center_stray as [s|]; intros E.
  - now apply (build_params_dict_stray d d' center s marginal).
  - unfold build_params_dict in E. inversion E; subst.
    change (PyDict.update d [("center"%string, VDict [("value"%string, center)])])
      with (PyDict.set d "center"%string (VDict [("value"%string, center)])).
    rewrite hint_at_set, String.eqb_refl. reflexivity.
Qed.

(** The comprehension of [resolve_partial_bands_from_description] over the
    locations: every turn writes to the one dictionary [params] and to no
    other, so that the dictionary ends with the center of the last
    location. *)
Lemma resolve_loop (stray : option Q) (marginal : Xarray.DataArray)
      (band : option Band) (name : string) (params : ref)
      (locations : list (nat * (Q * Q))) (heap heap' : Heap)
      (partial_bands : list PartialBand) :
  mapMM (fun i_location : nat * (Q * Q) =>
           let band_center := snd (snd i_location) in
           d <~ read params ;;
           center_stray <~ lift (center_stray_of stray d) ;;
           built <~ _build_params params band_center center_stray (Some marginal) ;;
           ret (mkPartialBand band (partial_name name (fst i_location)) built))
        locations heap
  = Ok (partial_bands, heap') ->
  length heap' = length heap
  /\ (forall r, r <> params -> nth_error heap' r = nth_error heap r)
  /\ Forall (fun pb => pb_params pb = params /\ pb_band pb = band) partial_bands
  /\ map pb_name partial_bands = map (fun il => partial_name name (fst il)) locations
  /\ (locations <> [] ->
      exists d', nth_error heap' params = Some d'
                 /\ hint_at d' "center" "value"
                    = Some (snd (snd (last locations (0, (0, 0)%Q))))).
Proof.
  revert heap heap' partial_bands.
  induction locations as [|i_location rest IH]; intros heap heap' partial_bands E;
    cbn [mapMM] in E.
  - inversion E; subst. repeat split; try constructor. intros H. congruence.
  - apply bindM_Ok in E as (pb & h1 & Epb & E).
    apply bindM_Ok in E as (pbs & h2 & Epbs & E). inversion E; subst; clear E.
    apply bindM_Ok in Epb as (d & h3 & Eread & Epb). apply read_Ok in Eread as (Ed & ->).
    apply bindM_Ok in Epb as (cs & h3 & Ecs & Epb). apply lift_Ok in Ecs as (_ & ->).
    apply bindM_Ok in Epb as (built & h3 & Ebuilt & Epb). inversion Epb; subst; clear Epb.
    apply build_params_frame in Ebuilt as (-> & d0 & d1 & Ed0 & Ed1 & ->).
    destruct (IH _ _ _ Epbs) as (Hlen & Hframe & Hall & Hnames & Hlast).
    rewrite replace_nth_length in Hlen.
    split; [exact Hlen|]. split; [|split; [|split]].
    + intros r Hr. rewrite (Hframe r Hr). now apply replace_nth_other.
    + constructor; [split; reflexivity | exact Hall].
    + cbn [map pb_name]. now rewrite Hnames.
    + intros _. destruct rest as [|next rest].
      * cbn [mapMM] in Epbs. inversion Epbs; subst. cbn [last].
        exists d1. split.
        -- apply replace_nth_same. apply nth_error_Some. congruence.
        -- exact (build_params_dict_center _ _ _ _ _ Ed1).
      * destruct Hlast as (d' & Ed' & Hd'); [discriminate|].
        exists d'. split; [exact Ed' | exact Hd'].
Qed.

Lemma enumerate_fst {A : Type} (l : list A) : map fst (enumerate l) = range (length l).
Proof.
  unfold enumerate, range. generalize 0. induction l as [|x l IH]; intros a; [reflexivity|].
  cbn [length seq combine map fst]. now rewrite IH.
Qed.

Lemma enumerate_snd {A : Type} (l : list A) : map snd (enumerate l) = l.
Proof.
  unfold enumerate. generalize 0. induction l as [|x l IH]; intros a; [reflexivity|].
  cbn [length seq combine map snd]. now rewrite IH.
Qed.

Lemma last_map {A B : Type} (f : A -> B) (l : list A) (d : A) :
  last (map f l) (f d) = f (last l d).
Proof.
  induction l as [|x [|y l] IH]; [reflexivity | reflexivity |].
  change (map f (x :: y :: l)) with (f x :: map f (y :: l)).
  change (last (f x :: map f (y :: l)) (f d)) with (last (map f (y :: l)) (f d)).
  exact IH.
Qed.

(** [resolve_partial_bands_from_description], taken apart. *)
Lemma resolve_inv (arr : Xarray.DataArray) (stray : option Q)
      (coord_dict : Coordinate) (marginal : Xarray.DataArray)
      (description : BandDescription) (heap heap' : Heap)
      (partial_bands : list PartialBand) :
  resolve_partial_bands_from_description arr stray coord_dict marginal description heap
  = Ok (partial_bands, heap') ->
  exists params heap0 locations,
    match bd_params description with
    | Some r => params = r /\ heap0 = heap
    | None => params = length heap /\ heap0 = heap ++ [[]]
    end
    /\ partial_band_locations arr coord_dict description = Ok locations
    /\ length heap' = length heap0
    /\ (forall r, r <> params -> nth_error heap' r = nth_error heap0 r)
    /\ Forall (fun pb => pb_params pb = params /\ pb_band pb = bd_band description)
              partial_bands
    /\ map pb_name partial_bands
       = map (partial_name (bd_name description)) (range (length locations))
    /\ (locations <> [] ->
        exists d', nth_error heap' params = Some d'
                   /\ hint_at d' "center" "value" = Some (snd (last locations (0, 0)%Q))).
Proof.
  unfold resolve_partial_bands_from_description. intros E.
  apply bindM_Ok in E as (params & heap0 & Eparams & E).
  apply bindM_Ok in E as (locations & h1 & Elocations & E).
  apply lift_Ok in Elocations as (Elocations & ->).
  apply resolve_loop in E as (Hlen & Hframe & Hall & Hnames & Hlast).
  exists params, heap0, locations. split.
  { destruct (bd_params description); inversion Eparams; subst; auto. }
  split; [exact Elocations|]. split; [exact Hlen|]. split; [exact Hframe|].
  split; [exact Hall|]. split.
  - rewrite Hnames, <- enumerate_fst, map_map. reflexivity.
  - intros Hne. destruct Hlast as (d' & Ed' & Hd').
    { intros Hnil. apply Hne. apply (f_equal (map snd)) in Hnil.
      now rewrite enumerate_snd in Hnil. }
    exists d'. split; [exact Ed'|]. rewrite Hd'. f_equal.
    rewrite <- (enumerate_snd locations) at 2.
    change (0%Q, 0%Q) with (snd (0, (0%Q, 0%Q))).
    now rewrite (last_map snd).
Qed.
End ResolveLoop.

(** X6. A band description without [params] of its own gets one new, empty
    dictionary per slice, made by the call itself: every partial band of the
    call refers to it, and no dictionary that existed before the call is
    changed. *)
Theorem band_without_params_gets_new_dictionary
        (arr : Xarray.DataArray) (stray : option Q)
        (coord_dict : BandAnalysis.Coordinate) (marginal : Xarray.DataArray)
        (description : BandAnalysis.BandDescription) (heap heap' : Store.Heap)
        (partial_bands : list BandAnalysis.PartialBand) :
  BandAnalysis.bd_params description = None ->
  BandAnalysis.resolve_partial_bands_from_description
    arr stray coord_dict marginal description heap
  = Ok (partial_bands, heap') ->
  length heap' = S (length heap)
  /\ (forall r, r < length heap -> nth_error heap' r = nth_error heap r)
  /\ Forall (fun pb => BandAnalysis.pb_params pb = length heap) partial_bands.
Proof.
  intros Hnone E.
  apply resolve_inv in E
    as (params & heap0 & locations & Hparams & _ & Hlen & Hframe & Hall & _).
  rewrite Hnone in Hparams. destruct Hparams as (-> & ->).
  split; [|split].
  - rewrite Hlen, length_app. cbn [length]. lia.
  - intros r Hr. rewrite Hframe by lia. now apply nth_error_app1.
  - eapply Forall_impl; [|exact Hall]. intros pb (H & _). exact H.
Qed.

Lemma band_without_params_gets_new_dictionary_witness :
  exists partial_bands heap',
    BandAnalysis.resolve_partial_bands_from_description
      SamplePattern.spectrum (Some 1%Q) SampleFold.coord_dict SampleFold.marginal
      (SampleFold.description None) [SampleFold.caller_hints]
    = Ok (partial_bands, heap')
    /\ length heap' = 2
    /\ (forall r, r < 1 -> nth_error heap' r = nth_error [SampleFold.caller_hints] r)
    /\ Forall (fun pb => BandAnalysis.pb_params pb = 1) partial_bands.
Proof.
  destruct (BandAnalysis.resolve_partial_bands_from_description
              SamplePattern.spectrum (Some 1%Q) SampleFold.coord_dict SampleFold.marginal
              (SampleFold.description None) [SampleFold.caller_hints])
    as [[partial_bands heap']|e] eqn:E; [|vm_compute in E; discriminate].
  exists partial_bands, heap'. split; [reflexivity|].
  exact (band_without_params_gets_new_dictionary
           SamplePattern.spectrum (Some 1%Q) SampleFold.coord_dict SampleFold.marginal
           (SampleFold.description None) [SampleFold.caller_hints] heap' partial_bands
           eq_refl E).
Defined.

(** X7. A band that is expected at several centers of one slice yields one
    partial band per center, named [name_0], [name_1], ... in the order of
    the centers, and all of them refer to one and the same dictionary, which
    after the call holds the center of the last one. *)
Theorem partial_bands_share_last_center
        (arr : Xarray.DataArray) (stray : option Q)
        (coord_dict : BandAnalysis.Coordinate) (marginal : Xarray.DataArray)
        (description : BandAnalysis.BandDescription) (heap heap' : Store.Heap)
        (partial_bands : list BandAnalysis.PartialBand) (locations : list (Q * Q)) :
  BandAnalysis.partial_band_locations arr coord_dict description = Ok locations ->
  locations <> [] ->
  BandAnalysis.resolve_partial_bands_from_description
    arr stray coord_dict marginal description heap
  = Ok (partial_bands, heap') ->
  map BandAnalysis.pb_name partial_bands
  = map (BandAnalysis.partial_name (BandAnalysis.bd_name description))
        (range (length locations))
  /\ exists params d',
       Forall (fun pb => BandAnalysis.pb_params pb = params) partial_bands
       /\ nth_error heap' params = Some d'
       /\ hint_at d' "center" "value" = Some (snd (last locations (0, 0)%Q)).
Proof.
  intros Elocations Hne E.
  apply resolve_inv in E
    as (params & heap0 & locations' & _ & Elocations' & _ & _ & Hall & Hnames & Hlast).
  rewrite Elocations in Elocations'. inversion Elocations'; subst locations'.
  split; [exact Hnames|].
  destruct (Hlast Hne) as (d' & Ed' & Hd').
  exists params, d'. split; [|split; assumption].
  eapply Forall_impl; [|exact Hall]. intros pb (H & _). exact H.
Qed.

Lemma partial_bands_share_last_center_witness :
  exists partial_bands heap',
    BandAnalysis.resolve_partial_bands_from_description
      SamplePattern.spectrum (Some 1%Q) SampleFold.coord_dict SampleFold.marginal
      (SampleFold.description (Some 0)) [SampleFold.caller_hints]
    = Ok (partial_bands, heap')
    /\ map BandAnalysis.pb_name partial_bands = ["a_0"; "a_1"]%string
    /\ exists params d',
         Forall (fun pb => BandAnalysis.pb_params pb = params) partial_bands
         /\ nth_error heap' params = Some d'
         /\ hint_at d' "center" "value" = Some ((1 - 0) / (2 - 0) * (3 - 2) + 2)%Q.
Proof.
  destruct (BandAnalysis.resolve_partial_bands_from_description
              SamplePattern.spectrum (Some 1%Q) SampleFold.coord_dict SampleFold.marginal
              (SampleFold.description (Some 0)) [SampleFold.caller_hints])
    as [[partial_bands heap']|e] eqn:E; [|vm_compute in E; discriminate].
  exists partial_bands, heap'. split; [reflexivity|].
  exact (partial_bands_share_last_center
           SamplePattern.spectrum (Some 1%Q) SampleFold.coord_dict SampleFold.marginal
           (SampleFold.description (Some 0)) [SampleFold.caller_hints] heap' partial_bands
           [(1, (1 - 0) / (2 - 0) * (3 - 1) + 1); (1, (1 - 0) / (2 - 0) * (3 - 2) + 2)]%Q
           eq_refl ltac:(discriminate) E).
Defined.

Section HintsFrame.
Import Store BandAnalysis.

Lemma string_eqb_false (a b : string) : a <> b -> String.eqb a b = false.
Proof. intros H. now apply String.eqb_neq. Qed.

Lemma hint_at_value_set (params : ParamsDict) (key : string) (hints : PyDict.t string Q)
      (field0 field : string) (v : Q) :
  field0 <> field ->
  hint_at (PyDict.set params key (VDict (PyDict.set hints field0 v))) key field
  = PyDict.get hints field.
Proof.
  intros H. rewrite hint_at_set, String.eqb_refl, get_set_string.
  now rewrite (string_eqb_false _ _ H).
Qed.

(** The hints under [key] after [params[key] = params.get(key, {})]. *)
Lemma default_hints (params : ParamsDict) (key : string) (hints : PyDict.t string Q)
      (field : string) :
  as_hints (PyDict.get_default params key (VDict [])) = Ok hints ->
  PyDict.get hints field = hint_at params key field.
Proof.
  unfold PyDict.get_default, hint_at.
  destruct (PyDict.get params key) as [[q|d]|]; cbn [as_hints]; intros E;
    inversion E; subst; reflexivity.
Qed.
End HintsFrame.

(** What [build_params_dict] leaves alone. *)
Lemma build_params_dict_frame
        (d d' : Store.ParamsDict) (center : Q) (center_stray : option Q)
        (marginal : option Xarray.DataArray) :
  BandAnalysis.build_params_dict d center center_stray marginal = Ok d' ->
  (forall key, key <> "center"%string -> key <> "sigma"%string ->
               key <> "amplitude"%string ->
               PyDict.get d' key = PyDict.get d key)
  /\ (forall field, field <> "value"%string -> field <> "min"%string ->
                    field <> "max"%string ->
                    hint_at d' "center" field = None)
  /\ (forall field, field <> "value"%string ->
                    hint_at d' "sigma" field = hint_at d "sigma" field)
  /\ (forall field, field <> "value"%string ->
                    hint_at d' "amplitude" field = hint_at d "amplitude" field)
  /\ (center_stray = None ->
      PyDict.get d' "sigma"%string = PyDict.get d "sigma"%string
      /\ PyDict.get d' "amplitude"%string = PyDict.get d "amplitude"%string).
Proof.
  unfold BandAnalysis.build_params_dict.
  change (PyDict.update d [("center"%string, Store.VDict [("value"%string, center)])])
    with (PyDict.set d "center"%string (Store.VDict [("value"%string, center)])).
  destruct center_stray as [s|].
  2:{ intros E. inversion E; subst d'; clear E. repeat split.
      - intros key H1 H2 H3. rewrite get_set_string.
        now rewrite (string_eqb_false "center" key) by congruence.
      - intros field H1 H2 H3. rewrite hint_at_set, String.eqb_refl. cbn [PyDict.get].
        unfold keqb, string_KeyEq.
        now rewrite (string_eqb_false "value" field) by congruence.
      - intros field _. now rewrite hint_at_set_same.
      - intros field _. now rewrite hint_at_set_same.
      - rewrite get_set_string; reflexivity.
      - rewrite get_set_string; reflexivity. }
  rewrite getitem_set_same. cbn [bind Store.as_hints].
  rewrite getitem_set_same. intros E.
  apply bind_Ok in E as (sigma & Esigma & E).
  assert (Hsigma : forall field,
             PyDict.get sigma field = hint_at d "sigma" field).
  { intros field. rewrite (default_hints _ _ _ field Esigma).
    rewrite hint_at_set_same by reflexivity. now rewrite hint_at_set_same. }
  assert (Hcenter : forall field, field <> "value"%string -> field <> "min"%string ->
                                  field <> "max"%string ->
             PyDict.get (PyDict.set (PyDict.set [("value"%string, center)] "min"%string
                                                (center - s)%Q)
                                    "max"%string (center + s)%Q) field = None).
  { intros field H1 H2 H3. rewrite !get_set_string. cbn [PyDict.get].
    unfold keqb, string_KeyEq.
    rewrite (string_eqb_false "max" field), (string_eqb_false "min" field),
      (string_eqb_false "value" field) by congruence.
    reflexivity. }
  destruct marginal as [m|].
  - apply bind_Ok in E as (spread & _ & E). rewrite getitem_set_same in E.
    apply bind_Ok in E as (amplitude & Eamplitude & E). inversion E; subst d'; clear E.
    assert (Hamplitude : forall field,
               PyDict.get amplitude field = hint_at d "amplitude" field).
    { intros field. rewrite (default_hints _ _ _ field Eamplitude).
      rewrite !hint_at_set_same by reflexivity. reflexivity. }
    split; [|split; [|split; [|split]]].
    + intros key H1 H2 H3. rewrite !get_set_string.
      rewrite (string_eqb_false "center" key), (string_eqb_false "sigma" key),
        (string_eqb_false "amplitude" key) by congruence.
      reflexivity.
    + intros field H1 H2 H3. rewrite !hint_at_set_same by reflexivity.
      rewrite hint_at_set, String.eqb_refl. now apply Hcenter.
    + intros field H. rewrite !hint_at_set_same by reflexivity.
      rewrite hint_at_value_set by congruence. apply Hsigma.
    + intros field H. rewrite hint_at_value_set by congruence. apply Hamplitude.
    + discriminate.
  - inversion E; subst d'; clear E.
    split; [|split; [|split; [|split]]].
    + intros key H1 H2 H3. rewrite !get_set_string.
      rewrite (string_eqb_false "center" key), (string_eqb_false "sigma" key)
        by congruence.
      reflexivity.
    + intros field H1 H2 H3. rewrite !hint_at_set_same by reflexivity.
      rewrite hint_at_set, String.eqb_refl. now apply Hcenter.
    + intros field H. rewrite hint_at_value_set by congruence. apply Hsigma.
    + intros field H. rewrite !hint_at_set_same by reflexivity. reflexivity.
    + discriminate.
Qed.


(** X8. What [_build_params] leaves alone in the dictionary it updates:
    every entry other than ["center"], ["sigma"] and ["amplitude"] (so the
    caller's ["stray"]), and every hint on the width and on the amplitude
    other than their ["value"]. The entry ["center"] is replaced as a whole:
    a hint of the caller on the center other than the value and the two
    bounds is gone. Without a stray the width and the amplitude are not
    touched at all. *)
Theorem build_params_keeps_other_hints
        (d d' : Store.ParamsDict) (center : Q) (center_stray : option Q)
        (marginal : option Xarray.DataArray) :
  BandAnalysis.build_params_dict d center center_stray marginal = Ok d' ->
  (forall key, key <> "center"%string -> key <> "sigma"%string ->
               key <> "amplitude"%string ->
               PyDict.get d' key = PyDict.get d key)
  /\ (forall field, field <> "value"%string -> field <> "min"%string ->
                    field <> "max"%string ->
                    hint_at d' "center" field = None)
  /\ (forall field, field <> "value"%string ->
                    hint_at d' "sigma" field = hint_at d "sigma" field)
  /\ (forall field, field <> "value"%string ->
                    hint_at d' "amplitude" field = hint_at d "amplitude" field)
  /\ (center_stray = None ->
      PyDict.get d' "sigma"%string = PyDict.get d "sigma"%string
      /\ PyDict.get d' "amplitude"%string = PyDict.get d "amplitude"%string).
Proof. apply build_params_dict_frame. Qed.

Lemma build_params_keeps_other_hints_witness :
  exists d',
    BandAnalysis.build_params_dict SampleFold.caller_hints 2 (Some (1 # 2)%Q)
                                   (Some SampleFold.marginal) = Ok d'
    /\ PyDict.get d' "stray"%string = Some (Store.VNum (1 # 2))
    /\ hint_at d' "center" "vary" = None
    /\ hint_at d' "sigma" "max" = Some 3%Q.
Proof.
  destruct (BandAnalysis.build_params_dict SampleFold.caller_hints 2 (Some (1 # 2)%Q)
                                           (Some SampleFold.marginal))
    as [d'|e] eqn:E; [|vm_compute in E; discriminate].
  exists d'. split; [reflexivity|].
  destruct (build_params_keeps_other_hints SampleFold.caller_hints d' 2 (Some (1 # 2)%Q)
              (Some SampleFold.marginal) E)
    as (Hother & Hcenter & Hsigma & _).
  split; [|split].
  - rewrite Hother by discriminate. reflexivity.
  - apply Hcenter; discriminate.
  - rewrite Hsigma by discriminate. reflexivity.
Defined.

(** ** Patterned mode without a background *)

Section NoBackground.
Import Store BandAnalysis.
Variable fit : Lmfit.Model -> list Q -> Lmfit.Params -> list Q -> Lmfit.ModelResult.
Variable arr : Xarray.DataArray.
Variable stray : option Q.

Lemma mapMM_In_Ok {A B : Type} (f : A -> M B) (l : list A) (x : A)
      (heap heap' : Heap) (ys : list B) :
  mapMM f l heap = Ok (ys, heap') -> In x l ->
  exists h1 y h2, f x h1 = Ok (y, h2).
Proof.
  revert heap heap' ys. induction l as [|a l IH]; intros heap heap' ys E Hin;
    [destruct Hin|].
  cbn [mapMM] in E.
  apply bindM_Ok in E as (y & h1 & Ey & E).
  apply bindM_Ok in E as (ys' & h2 & E & _).
  destruct Hin as [<- | Hin]; [eauto | exact (IH _ _ _ E Hin)].
Qed.

(** With [False] left in the place of the background band, a turn that
    does not raise has found no band at its slice and writes [None]. *)
Lemma patterned_turn_without_background (template_dims : list string)
      (band_set : list BandDescription)
      (band_results band_results' : PyDict.t FrozenCoord (option Lmfit.ModelResult))
      (cm : Coordinate * Xarray.DataArray) (heap heap' : Heap) :
  patterned_turn fit arr stray template_dims None band_set band_results cm heap
  = Ok (band_results', heap') ->
  exists fc, freeze template_dims (fst cm) = Ok fc
             /\ band_results' = PyDict.set band_results fc None.
Proof.
  destruct cm as [coord_dict marginal]. unfold patterned_turn. intros E.
  apply bindM_Ok in E as (partial_bands & h1 & _ & E).
  destruct (filter (fun p => negb (Nat.eqb (length p) 0)) partial_bands)
    as [|located others].
  - apply bindM_Ok in E as (pbs & h2 & Eret & E). inversion Eret; subst pbs h2.
    apply bindM_Ok in E as (models & h2 & Emodels & E).
    cbn [concat mapMM] in Emodels. inversion Emodels; subst models h2.
    apply bindM_Ok in E as (fc & h2 & Efc & E). apply lift_Ok in Efc as (Efc & ->).
    apply lift_Ok in E as (E & _). apply loc_set_Ok in E as (-> & _).
    exists fc. split; [exact Efc | reflexivity].
  - exfalso.
    apply bindM_Ok in E as (pbs & h2 & Epbs & E).
    apply bindM_Ok in Epbs as (fresh & h3 & _ & Epbs). inversion Epbs; subst pbs h2.
    apply bindM_Ok in E as (models & h2 & Emodels & _).
    destruct (mapMM_In_Ok _ _ (mkPartialBand None EmptyString fresh) _ _ _ Emodels)
      as (h4 & y & h5 & Ey).
    { apply in_concat. exists [mkPartialBand None EmptyString fresh].
      split; [|now left].
      change (In [mkPartialBand None EmptyString fresh]
                 ((located :: others) ++ [[mkPartialBand None EmptyString fresh]])).
      apply in_or_app. right. now left. }
    unfold _instantiate_band, bindM, lift in Ey. cbn in Ey. discriminate.
Qed.

Lemma patterned_sweep_without_background (template_dims : list string)
      (band_set : list BandDescription)
      (slices : list (Coordinate * Xarray.DataArray))
      (band_results band_results' : PyDict.t FrozenCoord (option Lmfit.ModelResult))
      (heap heap' : Heap) :
  foldMM (patterned_turn fit arr stray template_dims None band_set)
         slices band_results heap
  = Ok (band_results', heap') ->
  (forall cell, In cell band_results -> snd cell = None) ->
  forall cell, In cell band_results' -> snd cell = None.
Proof.
  revert band_results heap. induction slices as [|cm slices IH];
    intros band_results heap E Hall; cbn [foldMM] in E.
  - inversion E; subst. exact Hall.
  - apply bindM_Ok in E as (grid1 & h1 & Eturn & E).
    apply patterned_turn_without_background in Eturn as (fc & _ & ->).
    apply (IH _ _ E). intros cell Hcell.
    apply set_In in Hcell as [Hcell | Hcell]; [now apply Hall | exact Hcell].
Qed.
End NoBackground.

(** X9. Called with [background=False], [fit_patterned_bands] never
    returns a fit. The [False] stays in the place of the background band, and
    as soon as a band is found at a slice it is handed to
    [_instantiate_band], which calls it; so a sweep that returns has found no
    band at any slice, and every cell of its result is [None]. *)
Theorem no_fit_without_background
        (fit : Lmfit.Model -> list Q -> Lmfit.Params -> list Q -> Lmfit.ModelResult)
        (arr : Xarray.DataArray) (stray : option Q)
        (band_set : list BandAnalysis.BandDescription) (fit_direction : string)
        (dataset : bool) (heap heap' : Store.Heap) (out : BandAnalysis.PatternedOutput) :
  BandAnalysis.fit_patterned_bands fit arr stray band_set fit_direction None dataset heap
  = Ok (out, heap') ->
  forall cell, In cell (BandAnalysis.out_results out) -> snd cell = None.
Proof.
  unfold BandAnalysis.fit_patterned_bands. intros E.
  apply bindM_Ok in E as (i & h1 & _ & E).
  apply bindM_Ok in E as (template & h2 & _ & E).
  apply bindM_Ok in E as (grid0 & h3 & Egrid & E). apply lift_Ok in Egrid as (Egrid & ->).
  apply bindM_Ok in E as (slices & h4 & _ & E).
  apply bindM_Ok in E as (results & h5 & Erun & E).
  assert (Hall : forall cell, In cell results -> snd cell = None).
  { apply (patterned_sweep_without_background fit arr stray _ _ _ _ _ _ _ Erun).
    unfold BandAnalysis.object_grid in Egrid.
    apply bind_Ok in Egrid as (pools & _ & Egrid). inversion Egrid; subst grid0.
    intros cell Hcell. apply in_map_iff in Hcell as (fc & <- & _). reflexivity. }
  destruct dataset.
  - apply bindM_Ok in E as (fit_axis & h6 & _ & E). inversion E; subst. exact Hall.
  - inversion E; subst. exact Hall.
Qed.

Lemma no_fit_without_background_witness :
  exists out heap',
    BandAnalysis.fit_patterned_bands SamplePattern.null_fit SamplePattern.spectrum
      (Some 1%Q)
      [BandAnalysis.mkBandDescription "a" (Some SamplePattern.peak_band)
         (Some ["eV"%string]) None (Some [(5, 1); (6, 2)]%Q)]
      "kp" None false []
    = Ok (out, heap')
    /\ length (BandAnalysis.out_results out) = 4
    /\ forall cell, In cell (BandAnalysis.out_results out) -> snd cell = None.
Proof.
  destruct (BandAnalysis.fit_patterned_bands SamplePattern.null_fit SamplePattern.spectrum
              (Some 1%Q)
              [BandAnalysis.mkBandDescription "a" (Some SamplePattern.peak_band)
                 (Some ["eV"%string]) None (Some [(5, 1); (6, 2)]%Q)]
              "kp" None false [])
    as [[out heap']|e] eqn:E; [|vm_compute in E; discriminate].
  exists out, heap'. split; [reflexivity|]. split.
  - vm_compute in E. inversion E. reflexivity.
  - exact (no_fit_without_background _ _ _ _ _ _ _ _ _ E).
Defined.

Example sample_background_false_raises :
  match BandAnalysis.fit_patterned_bands SamplePattern.null_fit SamplePattern.spectrum
          (Some 1%Q) SamplePattern.band_set "kp" None false SamplePattern.caller_store with
  | Ok _ => None
  | Raise e => Some e
  end = Some TypeError.
Proof. vm_compute. reflexivity. Qed.

(** ** [_instantiate_band] *)

Section Instantiate.
Import Store BandAnalysis Lmfit.

(** The loop of [_instantiate_band] over the entries of the dictionary. *)
Lemma hints_loop (hints : ParamsDict) (built : BasicModel) :
  (forall key v, In (key, v) hints -> key <> "stray"%string -> exists d, v = VDict d)
  <-> exists built',
        foldM (fun built kv =>
                 if String.eqb (fst kv) "stray" then Ok built
                 else hint <- as_hints (snd kv) ;;
                      Ok (set_param_hint built (fst kv) hint))
              hints built = Ok built'.
Proof.
  revert built. induction hints as [|[key v] hints IH]; intros built.
  - split; [intros _; now exists built | intros _ key v []].
  - cbn [foldM fst snd]. destruct (String.eqb_spec key "stray") as [-> | Hkey].
    + cbn [bind]. rewrite <- IH. split.
      * intros H key v' Hin. apply H. now right.
      * intros H key v' [Heq | Hin]; [inversion Heq; congruence | now apply H].
    + destruct v as [q|d]; cbn [as_hints bind].
      * split; [|intros (b & Eb); discriminate].
        intros H. destruct (H key (VNum q)) as (d & Ed); [now left | exact Hkey|].
        discriminate.
      * rewrite <- IH. split.
        -- intros H key' v' Hin. apply H. now right.
        -- intros H key' v' [Heq | Hin]; [inversion Heq; eauto | now apply H].
Qed.

Lemma hints_loop_prefix (hints : ParamsDict) (built built' : BasicModel) :
  foldM (fun built kv =>
           if String.eqb (fst kv) "stray" then Ok built
           else hint <- as_hints (snd kv) ;;
                Ok (set_param_hint built (fst kv) hint))
        hints built = Ok built' ->
  prefix built' = prefix built.
Proof.
  revert built. induction hints as [|[key v] hints IH]; intros built E; cbn [foldM] in E.
  - now inversion E.
  - apply bind_Ok in E as (b1 & E1 & E). rewrite (IH _ E). cbn [fst snd] in E1.
    destruct (String.eqb key "stray"); [now inversion E1|].
    apply bind_Ok in E1 as (hint & _ & E1). now inversion E1.
Qed.
End Instantiate.

(** X10. [_instantiate_band] builds a model exactly when the band of the
    partial band can be called and every entry of its dictionary other than
    ["stray"] is a dictionary of hints: a number under any other key cannot
    be unpacked into keyword arguments. It changes no dictionary, and the
    model it builds has the prefix of [fit_cls(prefix=name)]. *)
Theorem instantiate_band_succeeds_iff
        (partial_band : BandAnalysis.PartialBand) (heap : Store.Heap) :
  ((exists built heap',
       BandAnalysis._instantiate_band partial_band heap = Ok (built, heap'))
   <-> (exists band hints,
          BandAnalysis.pb_band partial_band = Some band
          /\ nth_error heap (BandAnalysis.pb_params partial_band) = Some hints
          /\ forall key v, In (key, v) hints -> key <> "stray"%string ->
                           exists d, v = Store.VDict d))
  /\ (forall built heap',
        BandAnalysis._instantiate_band partial_band heap = Ok (built, heap') ->
        heap' = heap
        /\ exists band b,
             BandAnalysis.pb_band partial_band = Some band
             /\ built = Lmfit.Basic b
             /\ Lmfit.prefix b
                = Lmfit.prefix (BandAnalysis.fit_cls band
                                  (BandAnalysis.pb_name partial_band))).
Proof.
  assert (Hinv : forall built heap',
             BandAnalysis._instantiate_band partial_band heap = Ok (built, heap') ->
             heap' = heap
             /\ exists band hints b,
                  BandAnalysis.pb_band partial_band = Some band
                  /\ nth_error heap (BandAnalysis.pb_params partial_band) = Some hints
                  /\ built = Lmfit.Basic b
                  /\ foldM (fun built kv =>
                              if String.eqb (fst kv) "stray" then Ok built
                              else hint <- Store.as_hints (snd kv) ;;
                                   Ok (Lmfit.set_param_hint built (fst kv) hint))
                           hints
                           (BandAnalysis.fit_cls band (BandAnalysis.pb_name partial_band))
                     = Ok b).
  { intros built heap' E. unfold BandAnalysis._instantiate_band in E.
    apply bindM_Ok in E as (band & h1 & Eband & E). apply lift_Ok in Eband as (Eband & ->).
    apply bindM_Ok in E as (hints & h1 & Ehints & E). apply read_Ok in Ehints as (Ehints & ->).
    apply bindM_Ok in E as (b & h1 & Eb & E). apply lift_Ok in Eb as (Eb & ->).
    inversion E; subst. split; [reflexivity|]. exists band, hints, b.
    destruct (BandAnalysis.pb_band partial_band); inversion Eband; subst. auto. }
  split; [split|].
  - intros (built & heap' & E).
    destruct (Hinv built heap' E) as (_ & band & hints & b & Eband & Ehints & _ & Eloop).
    exists band, hints. split; [exact Eband|]. split; [exact Ehints|].
    apply (hints_loop hints (BandAnalysis.fit_cls band (BandAnalysis.pb_name partial_band))).
    now exists b.
  - intros (band & hints & Eband & Ehints & Hall).
    apply (hints_loop hints (BandAnalysis.fit_cls band (BandAnalysis.pb_name partial_band)))
      in Hall as (b & Eb).
    exists (Lmfit.Basic b), heap.
    unfold BandAnalysis._instantiate_band, Store.bindM, Store.lift, Store.read, Store.ret,
      PyDict.items.
    rewrite Eband. cbn [of_option]. rewrite Ehints, Eb. reflexivity.
  - intros built heap' E.
    destruct (Hinv built heap' E) as (-> & band & hints & b & Eband & _ & -> & Eloop).
    split; [reflexivity|]. exists band, b. split; [exact Eband|]. split; [reflexivity|].
    exact (hints_loop_prefix _ _ _ Eloop).
Qed.

Lemma instantiate_band_succeeds_iff_witness :
  (exists built heap',
      BandAnalysis._instantiate_band
        (BandAnalysis.mkPartialBand (Some SamplePattern.peak_band) "a_0" 0)
        [SampleFold.caller_hints] = Ok (built, heap'))
  /\ ~ (exists built heap',
           BandAnalysis._instantiate_band
             (BandAnalysis.mkPartialBand (Some SamplePattern.peak_band) "a_0" 0)
             [[("sigma"%string, Store.VNum 1)]] = Ok (built, heap')).
Proof.
  split.
  - apply (instantiate_band_succeeds_iff
             (BandAnalysis.mkPartialBand (Some SamplePattern.peak_band) "a_0" 0)
             [SampleFold.caller_hints]).
    exists SamplePattern.peak_band, SampleFold.caller_hints.
    split; [reflexivity|]. split; [reflexivity|].
    intros key v [H | [H | [H | []]]] Hkey; inversion H; subst; eauto. congruence.
  - intros H.
    apply (instantiate_band_succeeds_iff
             (BandAnalysis.mkPartialBand (Some SamplePattern.peak_band) "a_0" 0)
             [[("sigma"%string, Store.VNum 1)]]) in H
      as (band & hints & _ & Ehints & Hall).
    inversion Ehints; subst hints.
    destruct (Hall "sigma"%string (Store.VNum 1)) as (d & Ed);
      [now left | discriminate | discriminate].
Defined.

(** ** [unpack_bands_from_fit]: the extraction of the bands *)

Section Extraction.
Import BandAnalysis Lmfit.
Variable euclidean : list Q -> list Q -> Q.
Variable weights : Q * Q * Q.
Variable dims : list string.

Lemma as_vector_params (fit_result : ModelResult) (p : string) (v : list Q) :
  as_vector weights fit_result p = Ok v ->
  exists sigma amplitude center,
    PyDict.get (params fit_result) (p ++ "sigma")%string = Some sigma
    /\ PyDict.get (params fit_result) (p ++ "amplitude")%string = Some amplitude
    /\ PyDict.get (params fit_result) (p ++ "center")%string = Some center.
Proof.
  unfold as_vector. destruct weights as [[w_sigma w_amplitude] w_center]. intros E.
  apply bind_Ok in E as (sigma & Esigma & E).
  apply bind_Ok in E as (amplitude & Eamplitude & E).
  apply bind_Ok in E as (center & Ecenter & _).
  unfold PyDict.getitem in *.
  destruct (PyDict.get (params fit_result) (p ++ "sigma")%string) as [s|]; [|discriminate].
  destruct (PyDict.get (params fit_result) (p ++ "amplitude")%string) as [a|];
    [|discriminate].
  destruct (PyDict.get (params fit_result) (p ++ "center")%string) as [c|];
    [|discriminate].
  exists s, a, c. repeat split; reflexivity.
Qed.

Lemma value_at_cell_Ok (identified : PyDict.t FrozenCoord (list string))
      (cell : Coordinate * ModelResult) (fc : FrozenCoord) (ps : list string)
      (i : nat) (p param_name : string) (is_value : bool) (par : Param) :
  freeze dims (fst cell) = Ok fc ->
  PyDict.get identified fc = Some ps ->
  nth_error ps i = Some p ->
  PyDict.get (params (snd cell)) (p ++ param_name)%string = Some par ->
  value_at_cell dims identified param_name i is_value cell
  = Ok (fc, if is_value then Some (value par) else stderr par).
Proof.
  intros Efc Eps Ep Epar. unfold value_at_cell, PyDict.getitem.
  rewrite Efc. cbn [bind]. rewrite Eps. cbn [of_option bind]. rewrite Ep.
  cbn [of_option bind]. rewrite Epar. reflexivity.
Qed.

(** What the extraction reads at one cell for the band [i]. *)
Lemma cell_of_band (prefixes : list string) (st : IdentState)
      (cell : Coordinate * ModelResult) (fc : FrozenCoord) (ps : list string) (i : nat) :
  ident_inv weights prefixes st ->
  fit_ok weights prefixes (snd cell) = true ->
  freeze dims (fst cell) = Ok fc ->
  PyDict.get (identified_band_results st) fc = Some ps ->
  i < length prefixes ->
  Permutation ps prefixes
  /\ exists p sigma amplitude center,
       nth_error ps i = Some p
       /\ PyDict.get (params (snd cell)) (p ++ "sigma")%string = Some sigma
       /\ PyDict.get (params (snd cell)) (p ++ "amplitude")%string = Some amplitude
       /\ PyDict.get (params (snd cell)) (p ++ "center")%string = Some center
       /\ forall is_value,
            value_at_cell dims (identified_band_results st) "center" i is_value cell
            = Ok (fc, if is_value then Some (value center) else stderr center)
            /\ value_at_cell dims (identified_band_results st) "amplitude" i is_value cell
               = Ok (fc, if is_value then Some (value amplitude) else stderr amplitude)
            /\ value_at_cell dims (identified_band_results st) "sigma" i is_value cell
               = Ok (fc, if is_value then Some (value sigma) else stderr sigma).
Proof.
  intros Hinv Hfit Efc Eps Hi.
  destruct (get_In _ _ _ Eps) as (fc0 & Hin).
  pose proof (proj2 Hinv fc0 ps Hin) as Hperm.
  split; [exact Hperm|].
  rewrite <- (Permutation_length Hperm) in Hi.
  destruct (nth_error ps i) as [p|] eqn:Ep; [|apply nth_error_None in Ep; lia].
  assert (Hp : In p prefixes)
    by (eapply Permutation_in; [exact Hperm | eapply nth_error_In; eauto]).
  destruct (fit_ok_vector weights prefixes (snd cell) p Hfit Hp) as (v & Ev).
  destruct (as_vector_params _ _ _ Ev) as (sigma & amplitude & center & Es & Ea & Ec).
  exists p, sigma, amplitude, center.
  repeat (split; [assumption || reflexivity|]).
  intros is_value.
  split; [|split]; eapply value_at_cell_Ok; eauto.
Qed.

End Extraction.

Lemma forallb_In {A : Type} (f : A -> bool) (l : list A) (x : A) :
  forallb f l = true -> In x l -> f x = true.
Proof. rewrite forallb_forall. auto. Qed.

Section ExtractionRun.
Import BandAnalysis Lmfit.
Variable euclidean : list Q -> list Q -> Q.
Variable weights : Q * Q * Q.

(** The extraction on a one-dimensional array whose cells can all be
    processed. *)
Lemma extract_run (d : string) (first : Coordinate * ModelResult)
      (rest : list (Coordinate * ModelResult)) :
  forallb (cell_ok weights [d] (component_prefixes (snd first))) (first :: rest) = true ->
  exists st bands,
    unpack_bands_from_fit euclidean weights (line_of_fits d (first :: rest)) = Ok st
    /\ ident_inv weights (component_prefixes (snd first)) st
    /\ first_coordinate st = Some (fst first)
    /\ (forall cell, In cell (first :: rest) ->
          exists fc ps, freeze [d] (fst cell) = Ok fc
                        /\ PyDict.get (identified_band_results st) fc = Some ps)
    /\ extract_bands (line_of_fits d (first :: rest))
                     (component_prefixes (snd first)) st = Ok bands.
Proof.
  intros Hok.
  destruct (unpack_run euclidean weights d first rest Hok)
    as (st & Est & Hinv & _ & Hfirst & Hall).
  assert (Harray : forall param_name is_value i,
             In param_name ["center"; "amplitude"; "sigma"]%string ->
             i < length (component_prefixes (snd first)) ->
             exists array,
               dataarray_for_value (line_of_fits d (first :: rest))
                 (identified_band_results st) param_name i is_value = Ok array).
  { intros param_name is_value i Hname Hi. unfold dataarray_for_value, line_of_fits.
    cbn [br_dims br_cells]. apply mapM_is_ok. intros cell Hcell.
    destruct (Hall cell Hcell) as (fc & ps & Efc & Eps).
    pose proof (forallb_In _ _ _ Hok Hcell) as Hcell_ok.
    apply cell_ok_inv in Hcell_ok as (_ & Hfit).
    destruct (cell_of_band weights [d] _ st cell fc ps i Hinv Hfit Efc Eps Hi)
      as (_ & p & sigma & amplitude & center & _ & _ & _ & _ & Hvalues).
    destruct (Hvalues is_value) as (Hc & Ha & Hs).
    destruct Hname as [<- | [<- | [<- | []]]]; eauto. }
  assert (Hbands : exists bands,
             extract_bands (line_of_fits d (first :: rest))
                           (component_prefixes (snd first)) st = Ok bands).
  { unfold extract_bands. apply mapM_is_ok. intros i Hi. apply range_In in Hi.
    rewrite Hfirst. unfold line_of_fits at 1. cbn [of_option bind br_dims].
    destruct (Hall first (or_introl eq_refl)) as (fc & ps & Efc & Eps).
    rewrite Efc. cbn [bind]. unfold PyDict.getitem at 1. rewrite Eps. cbn [of_option bind].
    pose proof (forallb_In _ _ _ Hok (or_introl eq_refl)) as Hcell_ok.
    apply cell_ok_inv in Hcell_ok as (_ & Hfit).
    destruct (cell_of_band weights [d] _ st first fc ps i Hinv Hfit Efc Eps Hi)
      as (_ & p & _ & _ & _ & Ep & _).
    rewrite Ep. cbn [of_option bind].
    destruct (Harray "center"%string true i) as (a1 & ->); [cbn; auto | exact Hi|].
    destruct (Harray "center"%string false i) as (a2 & ->); [cbn; auto | exact Hi|].
    destruct (Harray "amplitude"%string true i) as (a3 & ->); [cbn; auto | exact Hi|].
    destruct (Harray "amplitude"%string false i) as (a4 & ->); [cbn; auto | exact Hi|].
    destruct (Harray "sigma"%string true i) as (a5 & ->); [cbn; auto | exact Hi|].
    destruct (Harray "sigma"%string false i) as (a6 & ->); [cbn; auto | exact Hi|].
    cbn [bind]. eauto. }
  destruct Hbands as (bands & Ebands).
  exists st, bands. auto.
Qed.
End ExtractionRun.

(** X11. The bands that [unpack_bands_from_fit] returns, on a
    one-dimensional array whose cells can all be processed: there is one band
    per tracked component, those of the first fit; at every cell the band
    [i] holds the center, the amplitude and the width, with their standard
    errors, of the component that the cell assigns to the position [i]; the
    assignment of a cell is a permutation of the tracked prefixes, so that
    every tracked component goes to a band, and to one band only when the
    tracked prefixes are distinct. The label of the band [i] is the prefix at
    the position [i] of the assignment of the first cell. *)
Theorem extracted_bands_rearrange_components
        (euclidean : list Q -> list Q -> Q) (weights : Q * Q * Q)
        (d : string)
        (first : BandAnalysis.Coordinate * Lmfit.ModelResult)
        (rest : list (BandAnalysis.Coordinate * Lmfit.ModelResult)) :
  forallb (cell_ok weights [d] (BandAnalysis.component_prefixes (snd first)))
          (first :: rest) = true ->
  exists st bands,
    BandAnalysis.unpack_bands_from_fit euclidean weights
      (line_of_fits d (first :: rest)) = Ok st
    /\ BandAnalysis.unpack_bands euclidean weights
         (line_of_fits d (first :: rest)) = Ok bands
    /\ length bands = length (BandAnalysis.component_prefixes (snd first))
    /\ forall n cell, nth_error (first :: rest) n = Some cell ->
         exists fc ps,
           BandAnalysis.freeze [d] (fst cell) = Ok fc
           /\ PyDict.get (BandAnalysis.identified_band_results st) fc = Some ps
           /\ Permutation ps (BandAnalysis.component_prefixes (snd first))
           /\ (forall p, In p (BandAnalysis.component_prefixes (snd first)) ->
                 exists i band, nth_error bands i = Some band
                                /\ nth_error ps i = Some p)
           /\ (NoDup (BandAnalysis.component_prefixes (snd first)) ->
               forall i j p, nth_error ps i = Some p -> nth_error ps j = Some p ->
                             i = j)
           /\ forall i band, nth_error bands i = Some band ->
                exists p sigma amplitude center,
                  nth_error ps i = Some p
                  /\ (n = 0 -> BandAnalysis.eb_label band = p)
                  /\ PyDict.get (Lmfit.params (snd cell)) (p ++ "sigma")%string
                     = Some sigma
                  /\ PyDict.get (Lmfit.params (snd cell)) (p ++ "amplitude")%string
                     = Some amplitude
                  /\ PyDict.get (Lmfit.params (snd cell)) (p ++ "center")%string
                     = Some center
                  /\ nth_error (BandAnalysis.eb_center band) n
                     = Some (fc, Some (Lmfit.value center))
                  /\ nth_error (BandAnalysis.eb_center_stderr band) n
                     = Some (fc, Lmfit.stderr center)
                  /\ nth_error (BandAnalysis.eb_amplitude band) n
                     = Some (fc, Some (Lmfit.value amplitude))
                  /\ nth_error (BandAnalysis.eb_amplitude_stderr band) n
                     = Some (fc, Lmfit.stderr amplitude)
                  /\ nth_error (BandAnalysis.eb_sigma band) n
                     = Some (fc, Some (Lmfit.value sigma))
                  /\ nth_error (BandAnalysis.eb_sigma_stderr band) n
                     = Some (fc, Lmfit.stderr sigma).
Proof.
  intros Hok.
  destruct (extract_run euclidean weights d first rest Hok)
    as (st & bands & Est & Hinv & Hfirst & Hall & Ebands).
  exists st, bands. split; [exact Est|]. split.
  { unfold BandAnalysis.unpack_bands. rewrite Est. exact Ebands. }
  assert (Hlen : length bands = length (BandAnalysis.component_prefixes (snd first))).
  { unfold BandAnalysis.extract_bands in Ebands.
    rewrite (mapM_Ok_length _ _ _ Ebands). unfold range. apply length_seq. }
  split; [exact Hlen|].
  intros n cell Hn.
  assert (Hcell : In cell (first :: rest)) by (eapply nth_error_In; eauto).
  destruct (Hall cell Hcell) as (fc & ps & Efc & Eps).
  pose proof (forallb_In _ _ _ Hok Hcell) as Hcell_ok.
  apply cell_ok_inv in Hcell_ok as (_ & Hfit).
  exists fc, ps. split; [exact Efc|]. split; [exact Eps|].
  assert (Hperm : Permutation ps (BandAnalysis.component_prefixes (snd first))).
  { destruct (get_In _ _ _ Eps) as (fc0 & Hin). exact (proj2 Hinv fc0 ps Hin). }
  split; [exact Hperm|]. split; [|split].
  { intros p Hp.
    assert (Hps : In p ps)
      by (eapply Permutation_in; [apply Permutation_sym; exact Hperm | exact Hp]).
    apply In_nth_error in Hps as (i & Hi).
    assert (Hlt : i < length bands).
    { rewrite Hlen, <- (Permutation_length Hperm). apply nth_error_Some. congruence. }
    destruct (nth_error bands i) as [band|] eqn:Eband;
      [|apply nth_error_None in Eband; lia].
    exists i, band. split; [exact Eband | exact Hi]. }
  { intros Hnodup i j p Hi Hj.
    assert (Hnd : NoDup ps)
      by (eapply Permutation_NoDup; [apply Permutation_sym; exact Hperm | exact Hnodup]).
    apply (proj1 (NoDup_nth_error ps) Hnd).
    - apply nth_error_Some. congruence.
    - congruence. }
  intros i band Hband.
  assert (Hi : i < length (BandAnalysis.component_prefixes (snd first))).
  { rewrite <- Hlen. apply nth_error_Some. congruence. }
  destruct (cell_of_band weights [d] _ st cell fc ps i Hinv Hfit Efc Eps Hi)
    as (_ & p & sigma & amplitude & center & Ep & Es & Ea & Ec & Hvalues).
  exists p, sigma, amplitude, center.
  split; [exact Ep|].
  unfold BandAnalysis.extract_bands in Ebands.
  destruct (mapM_Ok_nth _ _ _ i i Ebands (range_nth_error _ _ Hi)) as (band' & Hband' & E).
  rewrite Hband in Hband'. inversion Hband'; subst band'. clear Hband'.
  apply bind_Ok in E as (c0 & Ec0 & E).
  apply bind_Ok in E as (fc0 & Efc0 & E).
  apply bind_Ok in E as (ps0 & Eps0 & E).
  apply bind_Ok in E as (label & Elabel & E).
  apply bind_Ok in E as (a1 & E1 & E). apply bind_Ok in E as (a2 & E2 & E).
  apply bind_Ok in E as (a3 & E3 & E). apply bind_Ok in E as (a4 & E4 & E).
  apply bind_Ok in E as (a5 & E5 & E). apply bind_Ok in E as (a6 & E6 & E).
  inversion E; subst band; clear E.
  cbn [BandAnalysis.eb_label BandAnalysis.eb_center BandAnalysis.eb_center_stderr
       BandAnalysis.eb_amplitude BandAnalysis.eb_amplitude_stderr
       BandAnalysis.eb_sigma BandAnalysis.eb_sigma_stderr].
  unfold BandAnalysis.dataarray_for_value, line_of_fits in *.
  cbn [BandAnalysis.br_dims BandAnalysis.br_cells] in *.
  split.
  { intros ->. cbn [nth_error] in Hn. inversion Hn; subst cell.
    rewrite Hfirst in Ec0. inversion Ec0; subst c0.
    rewrite Efc in Efc0. inversion Efc0; subst fc0.
    unfold PyDict.getitem in Eps0. rewrite Eps in Eps0. inversion Eps0; subst ps0.
    rewrite Ep in Elabel. now inversion Elabel. }
  repeat (split; [assumption|]).
  destruct (Hvalues true) as (Hc1 & Ha1 & Hs1).
  destruct (Hvalues false) as (Hc0 & Ha0 & Hs0).
  destruct (mapM_Ok_nth _ _ _ n cell E1 Hn) as (y1 & -> & Ey1).
  destruct (mapM_Ok_nth _ _ _ n cell E2 Hn) as (y2 & -> & Ey2).
  destruct (mapM_Ok_nth _ _ _ n cell E3 Hn) as (y3 & -> & Ey3).
  destruct (mapM_Ok_nth _ _ _ n cell E4 Hn) as (y4 & -> & Ey4).
  destruct (mapM_Ok_nth _ _ _ n cell E5 Hn) as (y5 & -> & Ey5).
  destruct (mapM_Ok_nth _ _ _ n cell E6 Hn) as (y6 & -> & Ey6).
  rewrite Hc1 in Ey1. rewrite Hc0 in Ey2. rewrite Ha1 in Ey3. rewrite Ha0 in Ey4.
  rewrite Hs1 in Ey5. rewrite Hs0 in Ey6.
  inversion Ey1; inversion Ey2; inversion Ey3; inversion Ey4; inversion Ey5;
    inversion Ey6; subst.
  repeat split; reflexivity.
Qed.

Lemma extracted_bands_rearrange_components_witness :
  exists st bands,
    BandAnalysis.unpack_bands_from_fit Samples.axis_distance Samples.default_weights
      (line_of_fits "kp" Samples.sweep) = Ok st
    /\ BandAnalysis.unpack_bands Samples.axis_distance Samples.default_weights
         (line_of_fits "kp" Samples.sweep) = Ok bands
    /\ length bands = 2
    /\ forall n cell, nth_error Samples.sweep n = Some cell ->
         exists fc ps,
           BandAnalysis.freeze ["kp"%string] (fst cell) = Ok fc
           /\ PyDict.get (BandAnalysis.identified_band_results st) fc = Some ps
           /\ Permutation ps ["a_"; "b_"]%string
           /\ (forall p, In p ["a_"; "b_"]%string ->
                 exists i band, nth_error bands i = Some band
                                /\ nth_error ps i = Some p)
           /\ (NoDup ["a_"; "b_"]%string ->
               forall i j p, nth_error ps i = Some p -> nth_error ps j = Some p ->
                             i = j)
           /\ forall i band, nth_error bands i = Some band ->
                exists p sigma amplitude center,
                  nth_error ps i = Some p
                  /\ (n = 0 -> BandAnalysis.eb_label band = p)
                  /\ PyDict.get (Lmfit.params (snd cell)) (p ++ "sigma")%string
                     = Some sigma
                  /\ PyDict.get (Lmfit.params (snd cell)) (p ++ "amplitude")%string
                     = Some amplitude
                  /\ PyDict.get (Lmfit.params (snd cell)) (p ++ "center")%string
                     = Some center
                  /\ nth_error (BandAnalysis.eb_center band) n
                     = Some (fc, Some (Lmfit.value center))
                  /\ nth_error (BandAnalysis.eb_center_stderr band) n
                     = Some (fc, Lmfit.stderr center)
                  /\ nth_error (BandAnalysis.eb_amplitude band) n
                     = Some (fc, Some (Lmfit.value amplitude))
                  /\ nth_error (BandAnalysis.eb_amplitude_stderr band) n
                     = Some (fc, Lmfit.stderr amplitude)
                  /\ nth_error (BandAnalysis.eb_sigma band) n
                     = Some (fc, Some (Lmfit.value sigma))
                  /\ nth_error (BandAnalysis.eb_sigma_stderr band) n
                     = Some (fc, Lmfit.stderr sigma).
Proof.
  apply (extracted_bands_rearrange_components
           Samples.axis_distance Samples.default_weights
           "kp" (Samples.at_kp 1, Samples.fit_at 0 5)
           [(Samples.at_kp 2, Samples.fit_at 5 0); (Samples.at_kp 3, Samples.fit_at 0 5)]).
  vm_compute. reflexivity.
Defined.

(** On the sample sweep, whose second fit swapped the two peaks, the band
    [a_] gets the center [0] and the band [b_] the center [5] at every
    slice. *)
Example sample_extracted_centers :
  match BandAnalysis.unpack_bands Samples.axis_distance Samples.default_weights
          (line_of_fits "kp" Samples.sweep) with
  | Ok bands =>
      Some (map (fun band => (BandAnalysis.eb_label band,
                              map snd (BandAnalysis.eb_center band))) bands)
  | Raise _ => None
  end
  = Some [("a_"%string, [Some 0; Some 0; Some 0]%Q);
          ("b_"%string, [Some 5; Some 5; Some 5]%Q)].
Proof. vm_compute. reflexivity. Qed.

(** A component that a later cell was fitted with beyond the tracked ones
    reaches no band: the sweep with a third peak at its second slice is
    unpacked into the two bands of the first fit. *)
Example sample_extracted_without_third :
  match BandAnalysis.unpack_bands Samples.axis_distance Samples.default_weights
          (line_of_fits "kp"
             [(Samples.at_kp 1, Samples.fit_at 0 5);
              (Samples.at_kp 2, Samples.fit_with_third 0 5 9)]) with
  | Ok bands =>
      Some (map (fun band => (BandAnalysis.eb_label band,
                              map snd (BandAnalysis.eb_center band))) bands)
  | Raise _ => None
  end
  = Some [("a_"%string, [Some 0; Some 0]%Q); ("b_"%string, [Some 5; Some 5]%Q)].
Proof. vm_compute. reflexivity. Qed.

(** ** [unpack_bands_from_fit]: the fits it cannot process *)

Lemma mapM_Raise_inv {A B : Type} (f : A -> res B) (l : list A) (e : pyerr) :
  mapM f l = Raise e -> exists x, In x l /\ f x = Raise e.
Proof.
  induction l as [|x xs IH]; cbn [mapM]; [discriminate|].
  destruct (f x) as [y|e'] eqn:Ex; cbn [bind].
  - destruct (mapM f xs) as [ys|e'']; cbn [bind]; [discriminate|].
    intros E. inversion E; subst e''. destruct (IH eq_refl) as (z & Hz & Ez).
    exists z. split; [now right | exact Ez].
  - intros E. inversion E; subst e'. exists x. split; [now left | exact Ex].
Qed.

Lemma mapM_fails {A B : Type} (f : A -> res B) (l : list A) (x : A) :
  In x l -> is_ok (f x) = false -> exists e, mapM f l = Raise e.
Proof.
  intros Hin Hx. destruct (mapM f l) as [ys|e] eqn:E; [|eauto].
  apply mapM_Ok_Forall2 in E.
  destruct (Forall2_In_l _ _ _ _ E Hin) as (y & _ & Ey). rewrite Ey in Hx. discriminate.
Qed.

Lemma forallb_first_false {A : Type} (f : A -> bool) (l : list A) :
  forallb f l = false ->
  exists good bad later,
    l = good ++ bad :: later /\ forallb f good = true /\ f bad = false.
Proof.
  induction l as [|x l IH]; cbn [forallb]; [discriminate|].
  destruct (f x) eqn:Ex; cbn [andb].
  - intros E. destruct (IH E) as (good & bad & later & -> & Hgood & Hbad).
    exists (x :: good), bad, later. cbn [forallb app]. rewrite Ex, Hgood. auto.
  - intros _. exists [], x, l. auto.
Qed.

Section Unusable.
Import BandAnalysis Lmfit.
Variable euclidean : list Q -> list Q -> Q.
Variable weights : Q * Q * Q.
Variable dims : list string.

Lemma as_vector_errors (fit_result : ModelResult) (p : string) (e : pyerr) :
  as_vector weights fit_result p = Raise e -> e = KeyError \/ e = TypeError.
Proof.
  unfold as_vector, PyDict.getitem. destruct weights as [[w_sigma w_amplitude] w_center].
  destruct (PyDict.get (params fit_result) (p ++ "sigma")%string) as [sigma|];
    cbn [of_option bind]; [|intros E; inversion E; auto].
  destruct (PyDict.get (params fit_result) (p ++ "amplitude")%string) as [amplitude|];
    cbn [of_option bind]; [|intros E; inversion E; auto].
  destruct (PyDict.get (params fit_result) (p ++ "center")%string) as [center|];
    cbn [of_option bind]; [|intros E; inversion E; auto].
  destruct (stderr sigma); cbn [of_option bind]; [|intros E; inversion E; auto].
  destruct (stderr amplitude); cbn [of_option bind]; [|intros E; inversion E; auto].
  destruct (stderr center); cbn [of_option bind]; [|intros E; inversion E; auto].
  discriminate.
Qed.

Lemma freeze_errors (coordinate : Coordinate) (e : pyerr) :
  freeze dims coordinate = Raise e -> e = KeyError.
Proof.
  unfold freeze. intros E. apply mapM_Raise_inv in E as (d & _ & E).
  unfold PyDict.getitem in E. destruct (PyDict.get coordinate d); now inversion E.
Qed.

(** A fit that does not yield a vector at some tracked prefix cannot be
    compared with a reference. *)
Lemma build_dist_mat_raises (prefixes : list string) (fit_result : ModelResult)
      (closest : Identified) :
  fit_ok weights prefixes fit_result = false ->
  length (fst closest) = length prefixes ->
  exists e,
    build_dist_mat euclidean weights prefixes fit_result closest = Raise e
    /\ (e = KeyError \/ e = TypeError).
Proof.
  destruct closest as [closest_prefixes closest_fit]. cbn [fst].
  intros Hfit Hlen. unfold fit_ok in Hfit.
  assert (Hbad : exists i p, nth_error prefixes i = Some p
                             /\ is_ok (as_vector weights fit_result p) = false).
  { destruct (forallb_first_false _ _ Hfit) as (good & p & later & -> & _ & Hp).
    exists (length good), p. split; [|exact Hp].
    now rewrite nth_error_app2, Nat.sub_diag by lia. }
  destruct Hbad as (i & p & Ei & Hp).
  assert (Hi : i < length prefixes) by (apply nth_error_Some; congruence).
  unfold build_dist_mat.
  match goal with |- exists e, mapM ?row _ = _ /\ _ => set (f := row) end.
  destruct (mapM_fails f (range (length prefixes)) i) as (e & E).
  { now apply range_In. }
  { unfold f. destruct (mapM _ (range (length prefixes))) as [row|e] eqn:Erow;
      [|reflexivity].
    exfalso. assert (H0 : In 0 (range (length prefixes))) by (apply range_In; lia).
    apply mapM_Ok_Forall2 in Erow.
    destruct (Forall2_In_l _ _ _ _ Erow H0) as (y & _ & Ey).
    rewrite Ei in Ey. cbn [of_option bind] in Ey.
    destruct (as_vector weights fit_result p); [discriminate Hp | discriminate Ey]. }
  exists e. split; [exact E|].
  apply mapM_Raise_inv in E as (i' & Hi' & E). unfold f in E.
  apply mapM_Raise_inv in E as (j & Hj & E).
  apply range_In in Hi', Hj.
  destruct (nth_error prefixes i') as [prefix_i|] eqn:Ei';
    [|apply nth_error_None in Ei'; lia].
  cbn [of_option bind] in E.
  destruct (as_vector weights fit_result prefix_i) as [u|e'] eqn:Eu; cbn [bind] in E.
  2:{ inversion E; subst e'. exact (as_vector_errors _ _ _ Eu). }
  destruct (nth_error closest_prefixes j) as [prefix_j|] eqn:Ej;
    [|apply nth_error_None in Ej; lia].
  cbn [of_option bind] in E.
  destruct (as_vector weights closest_fit prefix_j) as [v|e'] eqn:Ev; cbn [bind] in E;
    [discriminate|].
  inversion E; subst e'. exact (as_vector_errors _ _ _ Ev).
Qed.

Lemma resolve_against_raises (prefixes : list string) (st : IdentState)
      (fc : FrozenCoord) (fit_result : ModelResult) (closest : Identified) :
  fit_ok weights prefixes fit_result = false ->
  length (fst closest) = length prefixes ->
  exists e,
    resolve_against euclidean weights prefixes st fc fit_result closest = Raise e
    /\ (e = KeyError \/ e = TypeError).
Proof.
  intros Hfit Hlen.
  destruct (build_dist_mat_raises prefixes fit_result closest Hfit Hlen) as (e & E & He).
  exists e. split; [|exact He].
  unfold resolve_against. destruct closest as [closest_prefixes closest_fit].
  now rewrite E.
Qed.

(** A cell that cannot be processed aborts the loop. *)
Lemma identify_cell_raises (prefixes : list string) (st : IdentState)
      (cell : Coordinate * ModelResult) :
  (identified_by_coordinate st = [] -> component_prefixes (snd cell) = prefixes) ->
  ident_inv weights prefixes st ->
  cell_ok weights dims prefixes cell = false ->
  exists e,
    identify_cell euclidean weights dims prefixes st cell = Raise e
    /\ (e = KeyError \/ e = TypeError).
Proof.
  intros Hfirst Hinv Hcell. destruct cell as [coordinate fit_result].
  unfold cell_ok in Hcell. cbn [fst snd] in *. unfold identify_cell.
  destruct (freeze dims coordinate) as [fc|e] eqn:Efc; cbn [bind].
  2:{ exists e. split; [reflexivity|]. left. exact (freeze_errors _ _ Efc). }
  cbn [is_ok andb] in Hcell.
  destruct (identified_by_coordinate st) as [|entry pool] eqn:Epool.
  - rewrite find_closest_empty. apply resolve_against_raises; [exact Hcell|].
    cbn [fst]. now rewrite Hfirst.
  - destruct (find_closest_first (entry :: pool) fc) as (item & Efind & Hmin);
      [discriminate|].
    rewrite Efind. apply resolve_against_raises; [exact Hcell|].
    destruct item as [coord [closest_prefixes closest_fit]]. cbn [fst snd].
    apply Permutation_length.
    apply (proj1 Hinv coord closest_prefixes closest_fit).
    rewrite Epool. exact (first_minimizer_In _ _ _ Hmin).
Qed.
End Unusable.

(** X12. On a one-dimensional array, [unpack_bands_from_fit] raises as
    soon as one cell cannot be processed, and the exception is a [KeyError]
    (the cell has no coordinate along the dimension of the array, or its fit
    lacks the width, the amplitude or the center of a tracked component) or a
    [TypeError] (one of these has no standard error): a fit whose
    uncertainties were not estimated cannot be unpacked. *)
Theorem unpack_raises_on_unusable_cell
        (euclidean : list Q -> list Q -> Q) (weights : Q * Q * Q)
        (d : string)
        (first : BandAnalysis.Coordinate * Lmfit.ModelResult)
        (rest : list (BandAnalysis.Coordinate * Lmfit.ModelResult)) :
  forallb (cell_ok weights [d] (BandAnalysis.component_prefixes (snd first)))
          (first :: rest) = false ->
  exists e,
    BandAnalysis.unpack_bands_from_fit euclidean weights
      (line_of_fits d (first :: rest)) = Raise e
    /\ (e = KeyError \/ e = TypeError).
Proof.
  intros Hbad.
  destruct (forallb_first_false _ _ Hbad) as (good & bad & later & Ecells & Hgood & Hcell).
  rewrite unpack_loop. rewrite Ecells, foldM_app.
  destruct good as [|first' good].
  - cbn [app] in Ecells. inversion Ecells; subst bad later.
    cbn [foldM bind].
    destruct (identify_cell_raises euclidean weights [d]
                (BandAnalysis.component_prefixes (snd first)) initial_state first)
      as (e & E & He).
    + reflexivity.
    + split; [intros ? ? ? [] | intros ? ? []].
    + exact Hcell.
    + exists e. rewrite E. auto.
  - cbn [app] in Ecells. inversion Ecells; subst first' rest.
    destruct (unpack_run euclidean weights d first good Hgood)
      as (st & Est & Hinv & Hne & _).
    rewrite unpack_loop in Est. rewrite Est. cbn [bind foldM].
    destruct (identify_cell_raises euclidean weights [d]
                (BandAnalysis.component_prefixes (snd first)) st bad)
      as (e & E & He).
    + intros Hempty. contradiction.
    + exact Hinv.
    + exact Hcell.
    + exists e. rewrite E. auto.
Qed.

Lemma unpack_raises_on_unusable_cell_witness :
  exists e,
    BandAnalysis.unpack_bands_from_fit Samples.axis_distance Samples.default_weights
      (line_of_fits "kp"
         [(Samples.at_kp 1, Samples.fit_at 0 5);
          (Samples.at_kp 2,
           Lmfit.mkResult Samples.two_peaks (Lmfit.make_params Samples.two_peaks)
             (PyDict.set (Lmfit.params (Samples.fit_at 5 0)) "b_center"%string
                         (Lmfit.mkParam 0 None None None))
             [])])
    = Raise e
    /\ (e = KeyError \/ e = TypeError).
Proof.
  apply (unpack_raises_on_unusable_cell Samples.axis_distance Samples.default_weights
           "kp" (Samples.at_kp 1, Samples.fit_at 0 5)).
  vm_compute. reflexivity.
Defined.

(** On an array of two or more dimensions whose first axis is not empty,
    [band_results.values[0]] is a sub-array, and both functions raise
    [AttributeError] before any cell is looked at; without dimension or
    with an empty first axis they raise [IndexError]. *)
Lemma unpack_raises_off_the_line
      (euclidean : list Q -> list Q -> Q) (weights : Q * Q * Q)
      (dims : list string) (n m : nat) (shape : list nat)
      (cells : list (BandAnalysis.Coordinate * Lmfit.ModelResult)) :
  BandAnalysis.unpack_bands_from_fit euclidean weights
    (BandAnalysis.mkBandResults dims (S n :: m :: shape) cells) = Raise AttributeError
  /\ BandAnalysis.unpack_bands euclidean weights
       (BandAnalysis.mkBandResults dims (S n :: m :: shape) cells) = Raise AttributeError
  /\ BandAnalysis.unpack_bands_from_fit euclidean weights
       (BandAnalysis.mkBandResults dims (0 :: m :: shape) cells) = Raise IndexError
  /\ BandAnalysis.unpack_bands_from_fit euclidean weights
       (BandAnalysis.mkBandResults dims [] cells) = Raise IndexError.
Proof. repeat split; reflexivity. Qed.

(** ** Composite models: sums of several models *)

Section Sums.
Import Lmfit XModelMixin.

Lemma components_fold_add (ms : list Model) (m : Model) :
  components (fold_left add ms m) = flat_map components (m :: ms).
Proof.
  revert m. induction ms as [|m1 ms IH]; intros m; cbn [fold_left flat_map].
  - now rewrite app_nil_r.
  - rewrite IH. cbn [flat_map add components]. now rewrite app_assoc.
Qed.

Lemma eval_fold_add (ms : list Model) (m : Model) (params : Params) (x : Q) :
  eval (fold_left add ms m) params x
  = y <- eval m params x ;;
    ys <- mapM (fun m' => eval m' params x) ms ;;
    Ok (fold_left Qplus ys y).
Proof.
  revert m. induction ms as [|m1 ms IH]; intros m; cbn [fold_left mapM].
  - destruct (eval m params x); reflexivity.
  - rewrite IH. cbn [add eval].
    destruct (eval m params x) as [y|e]; cbn [bind]; [|reflexivity].
    destruct (eval m1 params x) as [y1|e]; cbn [bind]; [|reflexivity].
    destruct (mapM (fun m' => eval m' params x) ms); reflexivity.
Qed.
End Sums.

(** X13. The composite model that [fit_bands] and [fit_patterned_bands]
    build with [functools.reduce(lambda x, y: x + y, internal_models)]: its
    components are those of the band models, in their order, and it
    evaluates to the sum of the evaluations of the band models, raising what
    the first of them that raises does. On an empty list of models the
    reduction raises [TypeError]. *)
Theorem reduced_model_is_sum_of_bands
        (internal_models : list Lmfit.Model) (params : Lmfit.Params) (x : Q) :
  match BandAnalysis.reduce_add internal_models with
  | Ok composite_model =>
      internal_models <> []
      /\ Lmfit.components composite_model
         = flat_map Lmfit.components internal_models
      /\ namespace composite_model = flat_map namespace internal_models
      /\ same_value (Lmfit.eval composite_model params x)
                    (ys <- mapM (fun m => Lmfit.eval m params x) internal_models ;;
                     Ok (Qsum ys))
  | Raise e => internal_models = [] /\ e = TypeError
  end.
Proof.
  destruct internal_models as [|m ms]; cbn [BandAnalysis.reduce_add]; [auto|].
  split; [discriminate|]. split; [apply components_fold_add|]. split.
  - unfold namespace at 1. rewrite components_fold_add.
    generalize (m :: ms). intros l. induction l as [|a l IH]; [reflexivity|].
    cbn [flat_map]. rewrite flat_map_app, IH. reflexivity.
  - rewrite eval_fold_add. cbn [mapM].
    destruct (Lmfit.eval m params x) as [y|e]; cbn [bind same_value]; [|reflexivity].
    destruct (mapM (fun m' => Lmfit.eval m' params x) ms) as [ys|e];
      cbn [bind same_value]; [|reflexivity].
    unfold Qsum. cbn [fold_left]. rewrite (Qsum_from ys y), (Qsum_from ys (0 + y)).
    ring.
Qed.

Example sample_reduced_model :
  match BandAnalysis.reduce_add
          [Lmfit.Basic (Samples.peak "a_"); Lmfit.Basic (Samples.peak "b_");
           Lmfit.Basic (SamplePattern.affine EmptyString)] with
  | Ok m => Some (map Lmfit.prefix (Lmfit.components m))
  | Raise _ => None
  end = Some ["a_"; "b_"; EmptyString]%string.
Proof. reflexivity. Qed.


(** ** The guess of a convolution *)

Section Convolution.
Import Lmfit XModelMixin.

Lemma guess_loop_skips_kernel (comps : list BasicModel) (data xs : list Q) (acc : Params) :
  foldM (fun (guessed : Params) c =>
           if String.eqb (prefix c) "conv_" then Ok guessed
           else g <- guess_fn c data xs ;; Ok (PyDict.update guessed g))
        comps acc
  = foldM (fun (guessed : Params) c =>
             g <- guess_fn c data xs ;; Ok (PyDict.update guessed g))
          (filter (fun c => negb (String.eqb (prefix c) "conv_")) comps) acc.
Proof.
  revert acc. induction comps as [|c comps IH]; intros acc; [reflexivity|].
  cbn [foldM filter]. destruct (String.eqb (prefix c) "conv_"); cbn [negb bind].
  - apply IH.
  - cbn [foldM]. destruct (guess_fn c data xs) as [g|e]; cbn [bind]; [apply IH | reflexivity].
Qed.
End Convolution.

(** X15. [XConvolutionCompositeModel.guess] never asks the kernel, the
    component of prefix ["conv_"], for a guess: it returns as soon as the
    other components can guess, whatever the guess of the kernel would do.
    What it returns holds, under every name, the guess of the last of those
    components that guessed the name, or else the default of
    [make_params], which is what every parameter of the kernel gets unless
    another component guessed it. *)
Theorem convolution_guess_skips_kernel
        (self : Lmfit.Model) (data xs : list Q) (guesses : list Lmfit.Params) :
  mapM (fun c => Lmfit.guess_fn c data xs) (guessed_components self) = Ok guesses ->
  Forall (fun g => NoDup (PyDict.keys g)) guesses ->
  exists pars,
    XModelMixin.guess_convolution self data xs = Ok pars
    /\ (forall k,
          PyDict.get pars k
          = match last_guess guesses k with
            | Some v => Some v
            | None => PyDict.get (Lmfit.make_params self) k
            end)
    /\ (forall k, In k (namespace self) -> PyDict.get pars k <> None).
Proof.
  intros Eguess Hnodup. unfold XModelMixin.guess_convolution.
  rewrite guess_loop_skips_kernel.
  fold (guessed_components self).
  rewrite (guessed_merge _ data xs guesses PyDict.empty Eguess). cbn [bind].
  exists (PyDict.update (Lmfit.make_params self)
            (fold_left PyDict.update guesses PyDict.empty)).
  split; [reflexivity|].
  assert (Hmerged : NoDup (PyDict.keys (fold_left PyDict.update guesses
                                          (PyDict.empty (V := Lmfit.Param)))))
    by (apply merge_keys_NoDup; constructor).
  split.
  - intros k. rewrite (get_update _ _ k Hmerged), (merge_get _ _ k Hnodup).
    reflexivity.
  - intros k Hk. apply get_update_present. left.
    unfold Lmfit.make_params. apply make_params_present. now right.
Qed.

Lemma convolution_guess_skips_kernel_witness :
  exists pars,
    XModelMixin.guess_convolution
      (Lmfit.CompositeModel (Lmfit.Basic (Samples.guessing_peak "a_"))
                            (Lmfit.Basic (Samples.peak "conv_"))
                            XModelMixin.operator_mul)
      [3; 4]%Q [7; 8]%Q = Ok pars
    /\ (forall k,
          PyDict.get pars k
          = match last_guess [[("a_center"%string, Samples.fitted 7);
                               ("a_amplitude"%string, Samples.fitted 3)]] k with
            | Some v => Some v
            | None =>
                PyDict.get
                  (Lmfit.make_params
                     (Lmfit.CompositeModel (Lmfit.Basic (Samples.guessing_peak "a_"))
                                           (Lmfit.Basic (Samples.peak "conv_"))
                                           XModelMixin.operator_mul)) k
            end)
    /\ (forall k,
          In k (namespace
                  (Lmfit.CompositeModel (Lmfit.Basic (Samples.guessing_peak "a_"))
                                        (Lmfit.Basic (Samples.peak "conv_"))
                                        XModelMixin.operator_mul)) ->
          PyDict.get pars k <> None).
Proof.
  apply (convolution_guess_skips_kernel
           (Lmfit.CompositeModel (Lmfit.Basic (Samples.guessing_peak "a_"))
                                 (Lmfit.Basic (Samples.peak "conv_"))
                                 XModelMixin.operator_mul)
           [3; 4]%Q [7; 8]%Q).
  - reflexivity.
  - repeat constructor; cbn; intuition discriminate.
Defined.

(** The kernel of the sample has no guess of its own: the guess of the sum
    raises where the guess of the convolution returns. *)
Example sample_convolution_guess :
  XModelMixin.guess
    (Lmfit.CompositeModel (Lmfit.Basic (Samples.guessing_peak "a_"))
                          (Lmfit.Basic (Samples.peak "conv_"))
                          XModelMixin.operator_mul)
    [3; 4]%Q [7; 8]%Q = Raise NotImplementedError
  /\ XModelMixin.guess_convolution
       (Lmfit.CompositeModel (Lmfit.Basic (Samples.guessing_peak "a_"))
                             (Lmfit.Basic (Samples.peak "conv_"))
                             XModelMixin.operator_mul)
       [3; 4]%Q [7; 8]%Q
     = Ok [("a_amplitude"%string, Samples.fitted 3); ("a_center"%string, Samples.fitted 7);
           ("a_sigma"%string, Samples.fitted 1);
           ("conv_amplitude"%string, Samples.fitted 1);
           ("conv_center"%string, Samples.fitted 0);
           ("conv_sigma"%string, Samples.fitted 1)].
Proof. split; reflexivity. Qed.

(** ** The getters of [band_analysis_utils] *)

(** X16. The safe getters never raise. Where the parameter exists they
    return what the unsafe getters return; where it does not, the unsafe
    getters raise [KeyError] and the safe ones return [nan]. A fitted value
    written under a name is read back by both. *)
Theorem safe_getters_agree_with_unsafe (param_name : string) (x : Lmfit.ModelResult) :
  (exists v, BandAnalysisUtils.param_getter param_name true x = Ok v
             /\ match BandAnalysisUtils.param_getter param_name false x with
                | Ok v' => v = v'
                | Raise e => e = KeyError /\ v = BandAnalysisUtils.Nan
                end)
  /\ (exists v, BandAnalysisUtils.param_stderr_getter param_name true x = Ok v
                /\ match BandAnalysisUtils.param_stderr_getter param_name false x with
                   | Ok v' => v = v'
                   | Raise e => e = KeyError /\ v = BandAnalysisUtils.Nan
                   end)
  /\ (forall p safe,
        BandAnalysisUtils.param_getter param_name safe
          (Lmfit.mkResult (Lmfit.model x) (Lmfit.init_params x)
                          (PyDict.set (Lmfit.params x) param_name p) (Lmfit.residual x))
        = Ok (BandAnalysisUtils.Num (Lmfit.value p))).
Proof.
  unfold BandAnalysisUtils.param_getter, BandAnalysisUtils.param_stderr_getter,
    PyDict.getitem.
  split; [|split].
  - eexists. split; [reflexivity|].
    destruct (PyDict.get (Lmfit.params x) param_name); cbn [of_option bind]; auto.
  - eexists. split; [reflexivity|].
    destruct (PyDict.get (Lmfit.params x) param_name); cbn [of_option bind]; auto.
  - intros p safe. cbn [Lmfit.params].
    rewrite get_set_string, String.eqb_refl. now destruct safe.
Qed.

(** ** The parameter of the Fermi momentum *)

Section FermiParameter.
Import Kfermi.

Lemma contains_empty (hay : string) : contains EmptyString hay = true.
Proof. destruct hay; reflexivity. Qed.

Lemma filter_all {A : Type} (f : A -> bool) (l : list A) :
  (forall x, f x = true) -> filter f l = l.
Proof.
  intros H. induction l as [|x l IH]; [reflexivity|]. cbn [filter]. now rewrite H, IH.
Qed.

Lemma existsb_eqb_In (k : string) (l : list string) :
  existsb (String.eqb k) l = true <-> In k l.
Proof.
  rewrite existsb_exists. split.
  - intros (y & Hy & E). apply String.eqb_eq in E. now subst.
  - intros H. exists k. split; [exact H | apply String.eqb_refl].
Qed.
End FermiParameter.

(** X17. The parameter that [kfermi_from_mdcs] reads. A name that is one
    of the parameter names of the fits is taken as it is. Any other name,
    the empty default included, is not used at all: the parameter is then the
    one name that contains ["center"], and the assertion fails unless there
    is exactly one such name. What is chosen is always one of the parameter
    names. *)
Theorem fermi_parameter_choice (param_names : list string) (param : string) :
  (In param param_names -> Kfermi.real_param_name param_names param = Some param)
  /\ (~ In param param_names ->
      Kfermi.real_param_name param_names param = only_center param_names)
  /\ (forall name, Kfermi.real_param_name param_names param = Some name ->
                   In name param_names).
Proof.
  assert (Hin : In param param_names ->
                Kfermi.real_param_name param_names param = Some param).
  { intros H. unfold Kfermi.real_param_name.
    now rewrite (proj2 (existsb_eqb_In param param_names) H). }
  assert (Hout : ~ In param param_names ->
                 Kfermi.real_param_name param_names param = only_center param_names).
  { intros H. unfold Kfermi.real_param_name, only_center.
    destruct (existsb (String.eqb param) param_names) eqn:E.
    - apply existsb_eqb_In in E. contradiction.
    - destruct (String.eqb_spec param EmptyString) as [-> | _]; [|reflexivity].
      rewrite (filter_all (Kfermi.contains EmptyString)); [reflexivity|]. apply contains_empty. }
  split; [exact Hin|]. split; [exact Hout|].
  intros name E.
  destruct (in_dec string_dec param param_names) as [H | H].
  - rewrite (Hin H) in E. inversion E as [Eq]. rewrite <- Eq. exact H.
  - rewrite (Hout H) in E. unfold only_center in E.
    destruct (filter (Kfermi.contains "center") param_names) as [|n [|n' l]] eqn:Ef;
      try discriminate.
    inversion E; subst n.
    assert (Hn : In name (filter (Kfermi.contains "center") param_names))
      by (rewrite Ef; now left).
    now apply filter_In in Hn.
Qed.

Lemma fermi_parameter_choice_witness :
  Kfermi.real_param_name ["a_center"; "a_sigma"; "b_center"]%string "b_center"
  = Some "b_center"%string
  /\ Kfermi.real_param_name ["a_center"; "a_sigma"]%string "sigma"
     = only_center ["a_center"; "a_sigma"]%string.
Proof.
  split.
  - apply (fermi_parameter_choice ["a_center"; "a_sigma"; "b_center"]%string "b_center").
    cbn. auto.
  - apply (fermi_parameter_choice ["a_center"; "a_sigma"]%string "sigma").
    cbn. intuition discriminate.
Defined.

Example sample_fermi_parameter :
  Kfermi.real_param_name ["a_center"; "a_sigma"]%string "sigma" = Some "a_center"%string
  /\ Kfermi.real_param_name ["a_center"; "a_sigma"; "b_center"]%string EmptyString = None
  /\ Kfermi.real_param_name ["slope"; "intercept"]%string EmptyString = None.
Proof. repeat split; reflexivity. Qed.

(** ** [fit_bands]: the sweep *)

Section CoordinateKeys.
Context {V : Type}.

(** Reading a dictionary keyed by coordinates after an assignment. *)
Lemma get_set_coord (d : PyDict.t (list Q) V) (k q : list Q) (v : V) :
  PyDict.get (PyDict.set d k v) q
  = if tuple_eqb k q then Some v else PyDict.get d q.
Proof.
  destruct (tuple_eqb k q) eqn:E.
  - induction d as [|[k1 v1] d IH]; cbn [PyDict.set PyDict.get];
      unfold keqb, tuple_KeyEq.
    + now rewrite E.
    + destruct (tuple_eqb k1 k) eqn:E1; cbn [PyDict.get]; unfold keqb, tuple_KeyEq.
      * now rewrite (tuple_eqb_trans k1 k q E1 E).
      * destruct (tuple_eqb k1 q) eqn:E2; [|exact IH].
        rewrite tuple_eqb_sym in E.
        rewrite (tuple_eqb_trans k1 q k E2 E) in E1. discriminate.
  - apply get_set_other_coord. rewrite tuple_eqb_sym. exact E.
Qed.

(** A coordinate met for the first time goes last. *)
Lemma set_fresh_coord (d : PyDict.t (list Q) V) (k : list Q) (v : V) :
  PyDict.get d k = None -> PyDict.set d k v = d ++ [(k, v)].
Proof.
  induction d as [|[k1 v1] d IH]; cbn [PyDict.set PyDict.get app]; [reflexivity|].
  destruct (keqb k1 k); [discriminate|]. intros E. now rewrite IH.
Qed.
End CoordinateKeys.

Section SweepFacts.
Import BandAnalysis Lmfit.
Variable fit : Model -> list Q -> Params -> list Q -> ModelResult.
Variable direction : string.
Variable template_dims : list string.
Variable internal_models : list Model.
Variable initial_fits : Params.

(** One turn of the sweep, taken apart. *)
Lemma fit_bands_turn_inv (st st' : SweepState) (mc : Xarray.DataArray * Coordinate) :
  fit_bands_turn fit direction template_dims internal_models initial_fits st mc = Ok st' ->
  exists fc composite_model x,
    freeze template_dims (snd mc) = Ok fc
    /\ reduce_add internal_models = Ok composite_model
    /\ marginal_x (fst mc) = Ok x
    /\ PyDict.get (fst st) fc <> None
    /\ st' = (PyDict.set (fst st) fc
                (Some (fit_from fit composite_model (fst mc) x
                         (closest_model_params direction initial_fits (snd st) fc))),
              PyDict.set (snd st) fc
                (params (fit_from fit composite_model (fst mc) x
                           (closest_model_params direction initial_fits (snd st) fc)))).
Proof.
  destruct st as [band_results all_fit_parameters]. destruct mc as [marginal coordinate].
  unfold fit_bands_turn. intros E.
  apply bind_Ok in E as (fc & Efc & E).
  apply bind_Ok in E as (composite_model & Ecomposite & E).
  apply bind_Ok in E as (x & Ex & E).
  apply bind_Ok in E as (grid & Egrid & E). inversion E; subst st'; clear E.
  exists fc, composite_model, x. cbn [fst snd].
  split; [exact Efc|]. split; [exact Ecomposite|]. split; [exact Ex|].
  unfold loc_set in Egrid. split.
  - destruct (PyDict.get band_results fc); [discriminate | discriminate Egrid].
  - apply loc_set_Ok in Egrid as (-> & _). reflexivity.
Qed.

(** What the sweep maintains: every entry of the cache is the parameters of
    the fit that the grid holds at that coordinate. *)
Lemma fit_bands_run (marginals : list (Xarray.DataArray * Coordinate)) (st st' : SweepState) :
  foldM (fit_bands_turn fit direction template_dims internal_models initial_fits)
        marginals st = Ok st' ->
  (forall fc p, PyDict.get (snd st) fc = Some p ->
                exists r, PyDict.get (fst st) fc = Some (Some r) /\ p = params r) ->
  PyDict.keys (fst st') = PyDict.keys (fst st)
  /\ (forall fc p, PyDict.get (snd st') fc = Some p ->
                   exists r, PyDict.get (fst st') fc = Some (Some r) /\ p = params r)
  /\ (forall fc p, PyDict.get (snd st) fc = Some p ->
                   exists p', PyDict.get (snd st') fc = Some p')
  /\ (forall mc, In mc marginals ->
                 exists fc p, freeze template_dims (snd mc) = Ok fc
                              /\ PyDict.get (snd st') fc = Some p).
Proof.
  revert st. induction marginals as [|mc marginals IH]; intros st E Hinv; cbn [foldM] in E.
  - inversion E; subst st'. split; [reflexivity|]. split; [exact Hinv|].
    split; [eauto|]. intros mc [].
  - apply bind_Ok in E as (st1 & Eturn & E).
    pose proof Eturn as Eturn'.
    apply fit_bands_turn_inv in Eturn as (fc & composite & x & Efc & _ & _ & Hcell & ->).
    set (r := fit_from fit composite (fst mc) x
                (closest_model_params direction initial_fits (snd st) fc)) in *.
    destruct (IH _ E) as (Hkeys & Hinv' & Hkept & Hall).
    { cbn [fst snd]. intros fc' p. rewrite !get_set_coord.
      destruct (tuple_eqb fc fc').
      - intros Ep. inversion Ep; subst p. now exists r.
      - apply Hinv. }
    split; [|split; [exact Hinv'|split]].
    + rewrite Hkeys. cbn [fst].
      destruct (PyDict.get (fst st) fc) as [cell|] eqn:Ecell; [|congruence].
      exact (set_keys_present _ _ _ _ Ecell).
    + intros fc' p Ep. cbn [snd] in Hkept.
      destruct (get_set_kept (snd st) fc fc' (params r) p Ep) as (p1 & Ep1).
      exact (Hkept fc' p1 Ep1).
    + intros mc' [<- | Hmc]; [|now apply Hall].
      destruct (Hkept fc (params r)) as (p' & Ep').
      { cbn [snd]. apply get_set_same. exact tuple_eqb_refl. }
      eauto.
Qed.

(** [fit_bands_sweep], taken apart. *)
Lemma fit_bands_sweep_inv (arr : Xarray.DataArray) (broadcast_direction : string)
      (st : SweepState) :
  fit_bands_sweep fit arr direction broadcast_direction internal_models initial_fits
  = Ok st ->
  exists i template grid0 marginals,
    Xarray.index_of broadcast_direction (Xarray.dims arr) = Some i
    /\ Xarray.sum_template arr broadcast_direction = Ok template
    /\ fst template = Xarray.remove_nth i (Xarray.dims arr)
    /\ object_grid template = Ok grid0
    /\ _iterate_marginals arr (Some (fst template)) = Ok marginals
    /\ foldM (fit_bands_turn fit direction (fst template) internal_models initial_fits)
             marginals (grid0, PyDict.empty) = Ok st.
Proof.
  unfold fit_bands_sweep. intros E.
  apply bind_Ok in E as (i & Ei & E).
  apply bind_Ok in E as (template & Etemplate & E).
  apply bind_Ok in E as (grid0 & Egrid & E).
  apply bind_Ok in E as (marginals & Emarginals & E).
  assert (Ei' : Xarray.index_of broadcast_direction (Xarray.dims arr) = Some i).
  { destruct (Xarray.index_of broadcast_direction (Xarray.dims arr)); now inversion Ei. }
  assert (Efree : fst template = Xarray.remove_nth i (Xarray.dims arr)).
  { apply sum_template_Ok in Etemplate as (i' & Hi' & ->). cbn [fst]. congruence. }
  exists i, template, grid0, marginals.
  split; [exact Ei'|]. split; [exact Etemplate|]. split; [exact Efree|].
  split; [exact Egrid|]. split; [rewrite Efree; exact Emarginals | exact E].
Qed.
End SweepFacts.

(** X18. With [direction = "mdc"], a fit of the sweep of [fit_bands] is
    started from the parameters of the fit made just before it, in the order
    of the sweep, whatever the distance between the two slices: the turn that
    follows the first visit of a slice hands the values fitted at that slice
    to the next fit. *)
Theorem mdc_prior_is_previous_fit
        (fit : Lmfit.Model -> list Q -> Lmfit.Params -> list Q -> Lmfit.ModelResult)
        (template_dims : list string) (internal_models : list Lmfit.Model)
        (initial_fits : Lmfit.Params) (st st1 st2 : BandAnalysis.SweepState)
        (previous current : Xarray.DataArray * BandAnalysis.Coordinate)
        (fc_previous : BandAnalysis.FrozenCoord) :
  BandAnalysis.freeze template_dims (snd previous) = Ok fc_previous ->
  PyDict.get (snd st) fc_previous = None ->
  BandAnalysis.fit_bands_turn fit "mdc" template_dims internal_models initial_fits
    st previous = Ok st1 ->
  BandAnalysis.fit_bands_turn fit "mdc" template_dims internal_models initial_fits
    st1 current = Ok st2 ->
  exists composite_model x fc previous_fit,
    BandAnalysis.reduce_add internal_models = Ok composite_model
    /\ BandAnalysis.marginal_x (fst current) = Ok x
    /\ BandAnalysis.freeze template_dims (snd current) = Ok fc
    /\ PyDict.get (fst st1) fc_previous = Some (Some previous_fit)
    /\ PyDict.get (fst st2) fc
       = Some (Some (fit_from fit composite_model (fst current) x
                       (Lmfit.params previous_fit))).
Proof.
  intros Eprevious Hfresh Eturn1 Eturn2.
  apply fit_bands_turn_inv in Eturn1 as (fc1 & composite1 & x1 & Efc1 & _ & _ & _ & ->).
  rewrite Eprevious in Efc1. inversion Efc1; subst fc1. clear Efc1.
  apply fit_bands_turn_inv in Eturn2 as (fc & composite & x & Efc & Ecomposite & Ex & _ & ->).
  cbn [fst snd].
  set (previous_fit := fit_from fit composite1 (fst previous) x1
                         (BandAnalysis.closest_model_params "mdc" initial_fits (snd st)
                            fc_previous)).
  exists composite, x, fc, previous_fit.
  split; [exact Ecomposite|]. split; [exact Ex|]. split; [exact Efc|]. split.
  - apply get_set_same. exact tuple_eqb_refl.
  - rewrite (set_fresh_coord (snd st) fc_previous _ Hfresh).
    rewrite closest_model_params_mdc.
    apply get_set_same. exact tuple_eqb_refl.
Qed.

(** X19. A sweep of [fit_bands] that returns has filled every cell of its
    result: the grid has one cell per combination of the coordinates of the
    free axes, every cell holds a fit, and the cache holds the parameters of
    that fit under the same coordinate. *)
Theorem sweep_fills_every_cell
        (fit : Lmfit.Model -> list Q -> Lmfit.Params -> list Q -> Lmfit.ModelResult)
        (arr : Xarray.DataArray) (direction broadcast_direction : string)
        (internal_models : list Lmfit.Model) (initial_fits : Lmfit.Params)
        (band_results : PyDict.t BandAnalysis.FrozenCoord (option Lmfit.ModelResult))
        (all_fit_parameters : PyDict.t BandAnalysis.FrozenCoord Lmfit.Params) :
  NoDup (Xarray.dims arr) ->
  BandAnalysis.fit_bands_sweep fit arr direction broadcast_direction internal_models
    initial_fits = Ok (band_results, all_fit_parameters) ->
  exists i pools,
    Xarray.index_of broadcast_direction (Xarray.dims arr) = Some i
    /\ mapM (PyDict.getitem (Xarray.coords arr)) (Xarray.remove_nth i (Xarray.dims arr))
       = Ok pools
    /\ PyDict.keys band_results = Itertools.product pools
    /\ forall fc, In fc (Itertools.product pools) ->
         exists fit_result,
           PyDict.get band_results fc = Some (Some fit_result)
           /\ PyDict.get all_fit_parameters fc = Some (Lmfit.params fit_result).
Proof.
  intros Hnodup E.
  apply fit_bands_sweep_inv in E
    as (i & template & grid0 & marginals & Ei & Etemplate & Efree & Egrid & Emarginals & Erun).
  destruct (template_pools arr broadcast_direction template Hnodup Etemplate)
    as (Hfree & Epools_eq).
  destruct (object_grid_keys template grid0 Egrid) as (pools & Epools & Hkeys0 & _).
  rewrite Epools_eq in Epools.
  destruct (fit_bands_run fit direction (fst template) internal_models initial_fits
              marginals _ _ Erun) as (Hkeys & Hinv & _ & Hall).
  { cbn [snd]. intros fc p Ep. discriminate. }
  cbn [fst snd] in *.
  exists i, pools. split; [exact Ei|]. split; [now rewrite <- Efree|].
  split; [now rewrite Hkeys|].
  intros fc Hfc.
  unfold BandAnalysis._iterate_marginals in Emarginals. cbn [bind] in Emarginals.
  rewrite Epools in Emarginals. cbn [bind] in Emarginals.
  pose proof (mapM_pair_snd _ _ _ _ Emarginals) as Hcoords.
  assert (Hmc : exists mc, In mc marginals /\ snd mc = PyDict.of_zip (fst template) fc).
  { assert (Hin : In (PyDict.of_zip (fst template) fc) (map snd marginals))
      by (rewrite Hcoords; now apply in_map).
    apply in_map_iff in Hin as (mc & Emc & Hmc). eauto. }
  destruct Hmc as (mc & Hmc & Emc).
  destruct (Hall mc Hmc) as (fc' & p & Efc' & Ep).
  rewrite Emc in Efc'.
  rewrite freeze_of_zip in Efc'.
  - inversion Efc'; subst fc'. destruct (Hinv fc p Ep) as (r & Er & ->). eauto.
  - exact Hfree.
  - apply product_members in Hfc. apply mapM_Ok_Forall2 in Epools.
    rewrite (Forall2_length_eq _ _ _ Epools). symmetry.
    exact (Forall2_length_eq _ _ _ Hfc).
Qed.

Lemma sweep_fills_every_cell_witness :
  exists band_results all_fit_parameters i pools,
    BandAnalysis.fit_bands_sweep SampleSweep.total_intensity_fit SampleSweep.spectrum
      "mdc" "kp" SampleSweep.one_peak SampleSweep.initial_fits
    = Ok (band_results, all_fit_parameters)
    /\ Xarray.index_of "kp" (Xarray.dims SampleSweep.spectrum) = Some i
    /\ mapM (PyDict.getitem (Xarray.coords SampleSweep.spectrum))
            (Xarray.remove_nth i (Xarray.dims SampleSweep.spectrum))
       = Ok pools
    /\ PyDict.keys band_results = Itertools.product pools
    /\ forall fc, In fc (Itertools.product pools) ->
         exists fit_result,
           PyDict.get band_results fc = Some (Some fit_result)
           /\ PyDict.get all_fit_parameters fc = Some (Lmfit.params fit_result).
Proof.
  destruct (BandAnalysis.fit_bands_sweep SampleSweep.total_intensity_fit
              SampleSweep.spectrum "mdc" "kp" SampleSweep.one_peak
              SampleSweep.initial_fits)
    as [[band_results all_fit_parameters]|e] eqn:E; [|vm_compute in E; discriminate].
  exists band_results, all_fit_parameters.
  destruct (sweep_fills_every_cell SampleSweep.total_intensity_fit SampleSweep.spectrum
              "mdc" "kp" SampleSweep.one_peak SampleSweep.initial_fits
              band_results all_fit_parameters)
    as (i & pools & H);
    [repeat constructor; cbn; intuition discriminate | exact E |].
  exists i, pools. split; [reflexivity | exact H].
Defined.

Section OtherDirections.
Import BandAnalysis Lmfit.
Variable fit : Model -> list Q -> Params -> list Q -> ModelResult.
Variable direction : string.
Variable template_dims : list string.
Variable internal_models : list Model.
Variable initial_fits : Params.
Hypothesis not_mdc : String.eqb direction "mdc" = false.

Lemma fit_bands_run_initial (all : list (Xarray.DataArray * Coordinate))
      (marginals : list (Xarray.DataArray * Coordinate)) (st st' : SweepState) :
  foldM (fit_bands_turn fit direction template_dims internal_models initial_fits)
        marginals st = Ok st' ->
  (forall mc, In mc marginals -> In mc all) ->
  (forall cell, In cell (fst st) ->
     snd cell = None
     \/ exists mc composite_model x,
          In mc all /\ reduce_add internal_models = Ok composite_model
          /\ marginal_x (fst mc) = Ok x
          /\ snd cell = Some (fit_from fit composite_model (fst mc) x initial_fits)) ->
  forall cell, In cell (fst st') ->
     snd cell = None
     \/ exists mc composite_model x,
          In mc all /\ reduce_add internal_models = Ok composite_model
          /\ marginal_x (fst mc) = Ok x
          /\ snd cell = Some (fit_from fit composite_model (fst mc) x initial_fits).
Proof.
  revert st. induction marginals as [|mc marginals IH]; intros st E Hsub Hinv;
    cbn [foldM] in E.
  - inversion E; subst st'. exact Hinv.
  - apply bind_Ok in E as (st1 & Eturn & E).
    apply fit_bands_turn_inv in Eturn as (fc & composite & x & _ & Ecomposite & Ex & _ & ->).
    rewrite (closest_model_params_not_mdc direction initial_fits (snd st) fc not_mdc) in E.
    apply (IH _ E); [intros mc' Hmc'; apply Hsub; now right|].
    cbn [fst]. intros cell Hcell. apply set_In in Hcell as [Hcell | Hcell].
    + now apply Hinv.
    + right. exists mc, composite, x.
      split; [apply Hsub; now left|]. auto.
Qed.
End OtherDirections.

(** X20. With any direction other than ["mdc"] (so with ["edc"], and with
    ["MDC"] and ["EDC"], which the assertion of [fit_bands] accepts), no fit
    of the sweep is started from an earlier fit: every fit in the result is
    the fit of one marginal, started from the values of the initial fits. *)
Theorem other_directions_start_from_initial_fits
        (fit : Lmfit.Model -> list Q -> Lmfit.Params -> list Q -> Lmfit.ModelResult)
        (arr : Xarray.DataArray) (direction broadcast_direction : string)
        (internal_models : list Lmfit.Model) (initial_fits : Lmfit.Params)
        (st : BandAnalysis.SweepState) :
  String.eqb direction "mdc" = false ->
  BandAnalysis.fit_bands_sweep fit arr direction broadcast_direction internal_models
    initial_fits = Ok st ->
  exists i marginals,
    Xarray.index_of broadcast_direction (Xarray.dims arr) = Some i
    /\ BandAnalysis._iterate_marginals arr
         (Some (Xarray.remove_nth i (Xarray.dims arr))) = Ok marginals
    /\ forall fc fit_result,
         PyDict.get (fst st) fc = Some (Some fit_result) ->
         exists mc composite_model x,
           In mc marginals
           /\ BandAnalysis.reduce_add internal_models = Ok composite_model
           /\ BandAnalysis.marginal_x (fst mc) = Ok x
           /\ fit_result = fit_from fit composite_model (fst mc) x initial_fits.
Proof.
  intros Hdirection E.
  apply fit_bands_sweep_inv in E
    as (i & template & grid0 & marginals & Ei & _ & Efree & Egrid & Emarginals & Erun).
  exists i, marginals. split; [exact Ei|]. split; [now rewrite <- Efree|].
  intros fc fit_result Hget.
  destruct (get_In _ _ _ Hget) as (fc0 & Hin).
  destruct (fit_bands_run_initial fit direction (fst template) internal_models
              initial_fits Hdirection marginals marginals _ _ Erun
              (fun mc H => H)) with (cell := (fc0, Some fit_result))
    as [Hnone | (mc & composite & x & Hmc & Ecomposite & Ex & Ecell)].
  - cbn [fst]. intros cell Hcell. left.
    unfold BandAnalysis.object_grid in Egrid.
    apply bind_Ok in Egrid as (pools & _ & Egrid). inversion Egrid; subst grid0.
    apply in_map_iff in Hcell as (fc' & <- & _). reflexivity.
  - exact Hin.
  - discriminate.
  - cbn [snd] in Ecell. inversion Ecell. exists mc, composite, x. auto.
Qed.

Lemma other_directions_start_from_initial_fits_witness :
  exists st i marginals,
    BandAnalysis.fit_bands_sweep SampleSweep.total_intensity_fit SampleSweep.spectrum
      "MDC" "kp" SampleSweep.one_peak SampleSweep.initial_fits = Ok st
    /\ Xarray.index_of "kp" (Xarray.dims SampleSweep.spectrum) = Some i
    /\ BandAnalysis._iterate_marginals SampleSweep.spectrum
         (Some (Xarray.remove_nth i (Xarray.dims SampleSweep.spectrum))) = Ok marginals
    /\ forall fc fit_result,
         PyDict.get (fst st) fc = Some (Some fit_result) ->
         exists mc composite_model x,
           In mc marginals
           /\ BandAnalysis.reduce_add SampleSweep.one_peak = Ok composite_model
           /\ BandAnalysis.marginal_x (fst mc) = Ok x
           /\ fit_result = fit_from SampleSweep.total_intensity_fit composite_model
                             (fst mc) x SampleSweep.initial_fits.
Proof.
  destruct (BandAnalysis.fit_bands_sweep SampleSweep.total_intensity_fit
              SampleSweep.spectrum "MDC" "kp" SampleSweep.one_peak
              SampleSweep.initial_fits)
    as [st|e] eqn:E; [|vm_compute in E; discriminate].
  exists st.
  destruct (other_directions_start_from_initial_fits SampleSweep.total_intensity_fit
              SampleSweep.spectrum "MDC" "kp" SampleSweep.one_peak
              SampleSweep.initial_fits st eq_refl E)
    as (i & marginals & H).
  exists i, marginals. split; [reflexivity | exact H].
Defined.

Example sample_sweep_uppercase_direction :
  map (SampleSweep.initial_center_at
         (BandAnalysis.fit_bands_sweep SampleSweep.total_intensity_fit SampleSweep.spectrum
            "MDC" "kp" SampleSweep.one_peak SampleSweep.initial_fits))
      [[0; 0]; [0; 5]; [0; 10]; [1; 0]]%Q
  = [Some 0; Some 0; Some 0; Some 0]%Q
  /\ map (SampleSweep.initial_center_at
            (BandAnalysis.fit_bands_sweep SampleSweep.total_intensity_fit
               SampleSweep.spectrum
               "mdc" "kp" SampleSweep.one_peak SampleSweep.initial_fits))
         [[0; 0]; [0; 5]; [0; 10]; [1; 0]]%Q
     = [Some 0; Some 1; Some 11; Some 21]%Q.
Proof. split; vm_compute; reflexivity. Qed.

Lemma mdc_prior_is_previous_fit_witness :
  exists composite_model x fc previous_fit,
    BandAnalysis.reduce_add SampleSweep.one_peak = Ok composite_model
    /\ BandAnalysis.marginal_x (fst SampleTurns.second_marginal) = Ok x
    /\ BandAnalysis.freeze SampleTurns.template_dims (snd SampleTurns.second_marginal)
       = Ok fc
    /\ PyDict.get (fst SampleTurns.after_first) [0; 0]%Q = Some (Some previous_fit)
    /\ PyDict.get (fst SampleTurns.after_second) fc
       = Some (Some (fit_from SampleSweep.total_intensity_fit composite_model
                       (fst SampleTurns.second_marginal) x
                       (Lmfit.params previous_fit))).
Proof.
  apply (mdc_prior_is_previous_fit SampleSweep.total_intensity_fit
           SampleTurns.template_dims SampleSweep.one_peak SampleSweep.initial_fits
           (SampleTurns.empty_grid, PyDict.empty)
           SampleTurns.after_first SampleTurns.after_second
           SampleTurns.first_marginal SampleTurns.second_marginal [0; 0]%Q).
  - reflexivity.
  - reflexivity.
  - vm_compute. reflexivity.
  - vm_compute. reflexivity.
Defined.

(** The second fit of the sample sweep, at [(eV, delay) = (0, 5)], starts
    from the center [1] fitted at [(0, 0)]. *)
Example sample_second_turn_prior :
  option_map
    (fun cell => match cell with
                 | Some r => option_map Lmfit.value
                               (PyDict.get (Lmfit.init_params r) "a_center"%string)
                 | None => None
                 end)
    (PyDict.get (fst SampleTurns.after_second) [0; 5]%Q)
  = Some (Some 1%Q).
Proof. vm_compute. reflexivity. Qed.

(** ** Patterned mode: the stray of a band *)

Section OwnStray.
Import Store BandAnalysis.

Lemma resolve_loop_stray (stray : option Q) (marginal : Xarray.DataArray)
      (band : option Band) (name : string) (params : ref) (q : Q)
      (locations : list (nat * (Q * Q))) (heap heap' : Heap)
      (partial_bands : list PartialBand) (d : ParamsDict) :
  nth_error heap params = Some d ->
  PyDict.get d "stray"%string = Some (VNum q) ->
  locations <> [] ->
  mapMM (fun i_location : nat * (Q * Q) =>
           let band_center := snd (snd i_location) in
           d <~ read params ;;
           center_stray <~ lift (center_stray_of stray d) ;;
           built <~ _build_params params band_center center_stray (Some marginal) ;;
           ret (mkPartialBand band (partial_name name (fst i_location)) built))
        locations heap
  = Ok (partial_bands, heap') ->
  exists d',
    nth_error heap' params = Some d'
    /\ PyDict.get d' "stray"%string = Some (VNum q)
    /\ hint_at d' "center" "min"
       = Some (snd (snd (last locations (O, (0, 0)%Q))) - q)%Q
    /\ hint_at d' "center" "max"
       = Some (snd (snd (last locations (O, (0, 0)%Q))) + q)%Q
    /\ hint_at d' "sigma" "value" = Some q.
Proof.
  revert heap heap' partial_bands d.
  induction locations as [|i_location rest IH];
    intros heap heap' partial_bands d Ed Hstray Hne E; [congruence|].
  cbn [mapMM] in E.
  apply bindM_Ok in E as (pb & h1 & Epb & E).
  apply bindM_Ok in E as (pbs & h2 & Epbs & E). inversion E; subst; clear E.
  apply bindM_Ok in Epb as (d0 & h3 & Eread & Epb). apply read_Ok in Eread as (Ed0 & ->).
  rewrite Ed in Ed0. inversion Ed0; subst d0. clear Ed0.
  apply bindM_Ok in Epb as (cs & h3 & Ecs & Epb). apply lift_Ok in Ecs as (Ecs & ->).
  unfold center_stray_of in Ecs. rewrite Hstray in Ecs. inversion Ecs; subst cs. clear Ecs.
  apply bindM_Ok in Epb as (built & h3 & Ebuilt & Epb). inversion Epb; subst; clear Epb.
  apply build_params_frame in Ebuilt as (-> & d0 & d1 & Ed0 & Ed1 & ->).
  rewrite Ed in Ed0. inversion Ed0; subst d0. clear Ed0.
  assert (Hstray1 : PyDict.get d1 "stray"%string = Some (VNum q)).
  { destruct (build_params_dict_frame _ _ _ _ _ Ed1) as (Hother & _).
    rewrite Hother by discriminate. exact Hstray. }
  assert (Ed1' : nth_error (replace_nth params d1 heap) params = Some d1).
  { apply replace_nth_same. apply nth_error_Some. congruence. }
  destruct rest as [|next rest].
  - cbn [mapMM] in Epbs. inversion Epbs; subst. cbn [last].
    exists d1. split; [exact Ed1'|]. split; [exact Hstray1|].
    destruct (build_params_dict_stray _ _ _ _ _ Ed1) as (_ & Hmin & Hmax & Hsigma & _).
    auto.
  - exact (IH _ _ _ d1 Ed1' Hstray1 ltac:(discriminate) Epbs).
Qed.
End OwnStray.

(** X21. The ["stray"] that a band brings in its own [params] takes
    precedence over the stray given to [fit_patterned_bands], at every
    expected center, and stays in the dictionary: after the band is resolved
    at a slice, its dictionary bounds the center by that stray around the
    last expected center and has it as the width. *)
Theorem own_stray_takes_precedence
        (arr : Xarray.DataArray) (stray : option Q)
        (coord_dict : BandAnalysis.Coordinate) (marginal : Xarray.DataArray)
        (description : BandAnalysis.BandDescription) (heap heap' : Store.Heap)
        (partial_bands : list BandAnalysis.PartialBand) (locations : list (Q * Q))
        (params : Store.ref) (d : Store.ParamsDict) (q : Q) :
  BandAnalysis.bd_params description = Some params ->
  nth_error heap params = Some d ->
  PyDict.get d "stray"%string = Some (Store.VNum q) ->
  BandAnalysis.partial_band_locations arr coord_dict description = Ok locations ->
  locations <> [] ->
  BandAnalysis.resolve_partial_bands_from_description
    arr stray coord_dict marginal description heap
  = Ok (partial_bands, heap') ->
  exists d',
    nth_error heap' params = Some d'
    /\ PyDict.get d' "stray"%string = Some (Store.VNum q)
    /\ hint_at d' "center" "min" = Some (snd (last locations (0, 0)%Q) - q)%Q
    /\ hint_at d' "center" "max" = Some (snd (last locations (0, 0)%Q) + q)%Q
    /\ hint_at d' "sigma" "value" = Some q.
Proof.
  intros Hparams Ed Hstray Elocations Hne E.
  unfold BandAnalysis.resolve_partial_bands_from_description in E.
  rewrite Hparams in E.
  apply bindM_Ok in E as (r & h0 & Eret & E). inversion Eret; subst r h0. clear Eret.
  apply bindM_Ok in E as (locations' & h1 & Elift & E).
  apply lift_Ok in Elift as (Elocations' & ->).
  rewrite Elocations in Elocations'. inversion Elocations'; subst locations'.
  destruct (resolve_loop_stray stray marginal (BandAnalysis.bd_band description)
              (BandAnalysis.bd_name description) params q (enumerate locations)
              heap heap' partial_bands d Ed Hstray)
    as (d' & Ed' & Hstray' & Hmin & Hmax & Hsigma).
  { intros Hnil. apply Hne. apply (f_equal (map snd)) in Hnil.
    now rewrite enumerate_snd in Hnil. }
  { exact E. }
  exists d'. split; [exact Ed'|]. split; [exact Hstray'|].
  assert (Hlast : snd (snd (last (enumerate locations) (O, (0, 0)%Q)))
                  = snd (last locations (0, 0)%Q)).
  { rewrite <- (enumerate_snd locations) at 2.
    change (0%Q, 0%Q) with (snd (0, (0%Q, 0%Q))).
    now rewrite (last_map snd). }
  rewrite Hlast in Hmin, Hmax. auto.
Qed.

Lemma own_stray_takes_precedence_witness :
  exists partial_bands heap' d',
    BandAnalysis.resolve_partial_bands_from_description
      SamplePattern.spectrum (Some 1%Q) SampleFold.coord_dict SampleFold.marginal
      (SampleFold.description (Some 0)) [SampleFold.caller_hints]
    = Ok (partial_bands, heap')
    /\ nth_error heap' 0 = Some d'
    /\ PyDict.get d' "stray"%string = Some (Store.VNum (1 # 2))
    /\ hint_at d' "center" "min" = Some ((1 - 0) / (2 - 0) * (3 - 2) + 2 - (1 # 2))%Q
    /\ hint_at d' "center" "max" = Some ((1 - 0) / (2 - 0) * (3 - 2) + 2 + (1 # 2))%Q
    /\ hint_at d' "sigma" "value" = Some (1 # 2)%Q.
Proof.
  destruct (BandAnalysis.resolve_partial_bands_from_description
              SamplePattern.spectrum (Some 1%Q) SampleFold.coord_dict SampleFold.marginal
              (SampleFold.description (Some 0)) [SampleFold.caller_hints])
    as [[partial_bands heap']|e] eqn:E; [|vm_compute in E; discriminate].
  destruct (own_stray_takes_precedence
              SamplePattern.spectrum (Some 1%Q) SampleFold.coord_dict SampleFold.marginal
              (SampleFold.description (Some 0)) [SampleFold.caller_hints] heap'
              partial_bands
              [(1, (1 - 0) / (2 - 0) * (3 - 1) + 1); (1, (1 - 0) / (2 - 0) * (3 - 2) + 2)]%Q
              0 SampleFold.caller_hints (1 # 2)
              eq_refl eq_refl eq_refl eq_refl ltac:(discriminate) E)
    as (d' & H).
  exists partial_bands, heap', d'. split; [reflexivity | exact H].
Defined.
